(* ===== verification/_CoqProject ===== *)
-Q . S2P
Prelude.v
NpSort.v
NpArray.v
RobustStats.v
Piecewise.v
Posterior.v
FileSys.v
PyNum.v
Argparse.v
DataIO.v
Cli.v
Gui.v
Engine.v
Bootstrap.v
Bea.v
Bad.v
Plot.v
Main.v
GuiApp.v
