(* ===== verification/Prelude.v ===== *)
(** * A verification development for BayesianDepage (package [bea_bad])

    The repository estimates eruption ages of volcanic ash beds from zircon
    grain ages (the BEA stage, [src/bea_bad/bea.py]) and fits a piecewise
    linear age-depth model through the resulting tie points (the BAD stage,
    [src/bea_bad/bad.py]).  Shared numerical helpers live in
    [src/bea_bad/utils.py]; [src/bea_bad/dataio.py] reads and filters the
    input tables, [src/bea_bad/cli.py] strings the stages together and
    [src/app_gui.py] is a Tk front end that builds a command line for
    [cli.main].  Sampling itself is delegated to PyMC ([pm.sample]).

    ** How the program is modelled

    Floating-point numbers are modelled by exact rationals [Q] (Stdlib
    QArith): every theorem is a statement about the real-number semantics
    of the arithmetic the code performs, so "within floating-point
    tolerance" claims of the spec become exact equalities ([==]).  A NaN
    produced by numpy (the median of an empty array) is [None] in
    [option Q].  A float the user passes ([--max_span_ma],
    [--depth_sigma_m]) may be any Python float, [inf] and [nan]
    included: it is a [PyFloat] ([Fin q], [Inf], [NaN]) of this file;
    counts such as [draws] are Python ints ([Z]).  numpy arrays are lists; boolean-mask indexing, [np.diff],
    [np.cumsum], [np.searchsorted], [np.clip], [np.median], [np.std] are
    written out as list functions from what numpy computes.  A Python
    exception is a value of [PyExc] returned in the error monad [result]
    of this file.  The square root of [np.std] is not rational: it is taken
    through the interface [NpArray.SqrtModel] (non-negative, [sqrt 0 = 0],
    compatible with [==]); an executable instance built on [Z.sqrt] is
    given, and every theorem is proved for any instance.

    ** Files (in dependency order) and what they model

    - [Prelude.v] (this file): notations ([bea_scope]), the error monad,
      setoid equality on lists ([=l=]) and options ([=o=]), the
      development's tactics and the [bea] hint database, shared list lemmas.
    - [NpSort.v]: [np.sort] as insertion sort and [np.median]; sorting is
      invariant under permutation up to [==] (setoid rewriting with
      [Proper] instances), and the median lies within the data's bounds.
    - [NpArray.v]: [np.mean], [np.std] (through [SqrtModel]), [np.diff],
      [np.cumsum], [np.clip], [np.linspace] and
      [np.searchsorted(side="right")] as the binary search numpy runs,
      proved equal to the count of entries [<= v] on sorted input (the
      fuel [length a] is enough: the interval halves at each step).
    - [RobustStats.v]: [utils.robust_mad] and
      [utils.filter_outliers_within_span] (RobustStats).
    - [Piecewise.v]: [bad._piecewise_age_one_draw]
      (PiecewiseAgeInterpolator): cumulative tie ages, the clamped segment
      lookup; it reproduces the tie ages, is strictly increasing in depth
      for positive rates, stays between neighbouring tie ages and
      extrapolates with the boundary segment's rate.
    - [Posterior.v]: [az.hdi], [np.quantile], [ages2.min()].
    - [FileSys.v]: the file system as a record of directories and files
      and the state-and-exception monad [IO]; [utils.ensure_dir],
      [os.path.join], [to_netcdf], [to_csv] and [savefig] (a write is the
      creation of the file).  [confined] (a run made one directory and
      only expected files) carries the file-system reasoning of [Bad],
      [Plot] and [Main].
    - [PyNum.v]: Python's [int(s)], [float(s)] (whitespace, sign,
      underscores, exponent, [inf]/[nan]) and [str(n)] of an int;
      [int(str(n)) == n].
    - [Argparse.v]: [ArgumentParser.parse_args] of CPython 3.11 for
      option-only parsers: token classification (abbreviations, [=],
      negative numbers, [--]), [consume_optional], type conversion,
      required options and extras ([SystemExit(2)]), [-h] ([SystemExit(0)]).
      The token loop runs with fuel = number of tokens, which is enough
      because every step consumes a token (theorem [walk_fuel]).
    - [DataIO.v]: [dataio.read_inputs] and [read_query_depths] over tables;
      [pd.read_csv] is the interface [CsvSource].
    - [Cli.v]: the parser of [cli.main] (lines 14-28) and [main] up to
      [ap.parse_args()]; [cli_main] takes the body of [main] as an
      argument, which [Main.v] supplies (the GUI theorems hold for any
      body, since the GUI never reaches it).
    - [Gui.v]: [app_gui.run_pipeline], [_parse_int], [_parse_float]; the
      window's variables as a record, dialogs as events, [str(float)] as
      the interface [FloatRepr].
    - [Engine.v]: the external collaborators as classes with laws:
      [Sampler] ([pm.sample] on the declared model), [Kde]
      ([gaussian_kde], failing on a zero-variance sample) and
      [NormalGenerator] ([default_rng(seed).normal]), with instances used
      by the examples.
    - [Bootstrap.v]: [utils.bootstrap_min_prior_kde] (EmpiricalPriorBuilder).
    - [Bea.v]: [bea.fit_bea_for_ash] (BEAModel) in full.
    - [Bad.v]: [bad.fit_bad] (BADModel) in full, as an [IO] computation.
    - [Plot.v]: [plot.plot_age_depth]: the series handed to matplotlib
      ([figure_of]) and the saved file.
    - [Main.v]: the body of [cli.main] (lines 31-81) as the [IO]
      computation [run_main]: [groupby("ash_id")] (sorted keys), one
      [fit_bea_for_ash] per ash, the left merge with the tie points,
      [sort_values("depth_m")], the [fit_bad] call, the CSV files and the
      figure; [main = cli_main run_main] is the whole entry point.
    - [GuiApp.v]: the rest of [app_gui.py]: the widgets and what each is
      bound to ([layout], lines 129-176), [browse_csv] and
      [browse_outdir] with the dialog's answer as input, and
      [root.mainloop()] as a loop over user actions ([handle],
      [mainloop]) with Tkinter's callback semantics ([SystemExit] ends
      the program, other exceptions are reported); the Run button runs
      [Gui.run_pipeline] with [Main.run_main].  [reachable] is the
      step relation's reachable sessions.

    ** What the theorems show

    - BAD: query ages strictly increase with depth after a fit, the tie
      table is the input sorted by depth, bands are ordered, fewer than
      two ties fail after the output directory is created, short columns
      fail and extra rows are ignored, the posterior file is written.
    - BEA: the HDI lies inside the prior grid; the summary reports the
      mean of the sampler's pooled draws and a narrowest interval holding
      at least [floor(0.95 n) + 1] of them ([bea_hdi95]); the declared
      model is well formed, zero sigmas make the KDE fail
      (no fall-back), no grains fail before sampling.
    - Interpolation and numerics: the properties of
      [_piecewise_age_one_draw] above; [searchsorted] against its
      reference; [hdi] narrowest and holding its mass; quantile bounds;
      [robust_mad] and [filter_outliers_within_span] (the kept pairs are
      exactly those within [median +- max_span_ma / 2]).
    - Front ends: the GUI's Run button ends in [SystemExit(2)] whenever its
      inputs are valid (the argument vector carries [--target_accept],
      which [cli.py] does not declare, and [SystemExit] escapes
      [except Exception]), so it never reports "Done"; [_parse_float]
      accepts NaN; [_parse_int] is exactly [int] plus its bound.
    - CLI: on cli.py's own parser, [--zircon z --tiepoints t] yields the
      defaults of lines 15-28 ([cli_defaults]); [--bea_draws] and
      [--max_span_ma] are converted by [int()] and [float()], a value
      they reject exiting with status 2 ([cli_converts]); a command line
      without [--zircon] or [--tiepoints] exits with status 2
      ([cli_required_options]).
    - The application ([GuiApp.v]): by rule induction on [reachable],
      every session, for every sequence of user actions, keeps the file
      system untouched, shows only error dialogs and keeps the check
      button's variable in [{0, 1}], or has ended with status 2
      ([gui_session_safe]); browsing two existing files and pressing Run
      ends the program at once ([gui_first_run_exits]); the layout wires
      each variable to one entry and each Browse button to its row's
      variable ([gui_layout_wiring]); the reachable window states are
      exactly the settings with the check variable 0 or 1
      ([gui_window_states]).
    - Pipeline ([Main.v]): [main] runs to completion once the data
      stages succeed, making [outdir] and writing exactly its five
      outputs ([run_main_completes], a liveness theorem stated on any
      file system); the table handed to [fit_bad] is non-empty, sorted
      by depth, without NaN, one fit per ash with grains
      ([bea_table_for_bad]: so the value [float_array] gives a NaN is
      never used); with no grain left [main] raises [KeyError] from the
      merge of an empty frame ([run_main_no_grains]).
    - Input: the grains [read_inputs] returns are rows with a tie point,
      concordant when flagged; the flag filter keeps [-1 < flag < 1]; the
      merge keeps each grain once when tie ash ids are unique (and
      duplicates them otherwise); the default query grid is 300 points
      from the shallowest to the deepest tie.

    Every theorem with hypotheses has a witness (a closed lemma applying
    it to concrete inputs); the collaborator interfaces have executable
    instances for them.

    ** What is not modelled

    - The rendering of the figure: [figure_of] records the series
      [plot_age_depth] hands to matplotlib, but the saved file is only
      created, so nothing is proved about what it shows; the look of the window
      (geometry, padding, fonts) and the file dialogs' own windows (only
      the path they return is modelled), the CSV parser
      and the contents of the CSV and NetCDF files (a write is the
      file's creation), the [print] calls of [main], parent directories
      [os.makedirs] creates on the way.
    - Ash ids are strings: pandas would read an all-numeric [ash_id]
      column as integers and [groupby] would order them numerically, not
      as text.  numpy's [rng.normal] rejects a negative scale; the model
      of [bootstrap_min_prior_kde] does not (no theorem depends on it).
    - pandas' [sort_values] uses an unstable quicksort; the model sorts
      stably, one of its possible orders (they differ only among rows of
      equal depth).
    - The numerical sampler (NUTS in PyMC), scipy's Gaussian KDE
      evaluation (exponentials are not rational) and the normal generator
      enter only through their contracts.
    - Floating-point rounding (floats are exact rationals), NaN cells of
      ages and depths in the input tables, the text argparse prints. *)

From Stdlib Require Export String.
From Stdlib Require Export QArith Qabs Qminmax Lqa List Sorted Permutation
  Morphisms RelationClasses Arith ZArith Lia Bool.
Export ListNotations.

Declare Scope bea_scope.
Delimit Scope bea_scope with bea.
Open Scope Q_scope.

(** ** Notations *)

(** [a.[i]] is numpy's [a[i]] on an in-range index (the default [0] is
    never observed when [i < length a]). *)
Notation "l .[ i ]" := (nth i l 0%Q) (at level 1, format "l .[ i ]") : bea_scope.
(** Lists of rationals equal elementwise up to [==]. *)
Notation "l1 =l= l2" := (Forall2 Qeq l1 l2) (at level 70, no associativity) : bea_scope.

Open Scope bea_scope.

(** Strict comparison as a boolean ([Qle_bool] is the Stdlib primitive). *)
Definition Qltb (x y : Q) : bool := negb (Qle_bool y x).

(** ** Python exceptions and the error monad *)

Inductive PyExc :=
| ValueError (msg : string)
| IndexError (msg : string)
| OSError (msg : string)
| LinAlgError (msg : string)
| KeyError (msg : string)
| SystemExit (code : nat).

Inductive result (A : Type) :=
| Ok (a : A)
| Err (e : PyExc).
Arguments Ok {A} a.
Arguments Err {A} e.

Definition bind {A B} (r : result A) (k : A -> result B) : result B :=
  match r with Ok a => k a | Err e => Err e end.

Declare Scope result_scope.
Delimit Scope result_scope with result.
Notation "x <- c ;; k" := (bind c (fun x => k))
  (at level 61, c at next level, right associativity) : result_scope.
Notation "'raise' e" := (Err e) (at level 10) : result_scope.

(** ** Python floats *)

(** A Python [float] as the code receives it from the command line: a
    finite value (exact), an infinity ([negative] for [-inf]) or NaN. *)
Inductive PyFloat :=
| Fin (q : Q)
| Inf (negative : bool)
| NaN.

(** [x / 2.0] *)
Definition float_half (x : PyFloat) : PyFloat :=
  match x with Fin q => Fin (q / 2) | _ => x end.

(** ** Setoid equality on options of rationals *)

Definition oQeq (a b : option Q) : Prop :=
  match a, b with
  | Some x, Some y => x == y
  | None, None => True
  | _, _ => False
  end.
Notation "a =o= b" := (oQeq a b) (at level 70, no associativity) : bea_scope.

#[export] Instance oQeq_equiv : Equivalence oQeq.
Proof.
  split.
  - intros [x|]; simpl; reflexivity.
  - intros [x|] [y|]; simpl; auto. intros H; symmetry; exact H.
  - intros [x|] [y|] [z|]; simpl; try tauto. intros H1 H2; rewrite H1; exact H2.
Qed.

#[export] Instance eqlistQ_equiv : Equivalence (Forall2 Qeq).
Proof.
  split.
  - intros l; induction l; constructor; auto. reflexivity.
  - intros l1 l2 H; induction H; constructor; auto. symmetry; auto.
  - intros l1 l2 l3 H; revert l3; induction H as [|x y l1 l2 Hxy H IH];
      intros l3 H3; inversion H3; subst; constructor; eauto.
    rewrite Hxy; assumption.
Qed.

(** ** Tactics *)

(** Turn every boolean comparison on [Q] in the goal and the context into
    its proposition, by case analysis. *)
Ltac qcase :=
  repeat match goal with
  | |- context [Qle_bool ?x ?y] =>
      let E := fresh "E" in destruct (Qle_bool x y) eqn:E
  | H : Qle_bool _ _ = true |- _ => apply Qle_bool_iff in H
  | H : Qle_bool ?x ?y = false |- _ =>
      let H' := fresh H in
      assert (H' : y < x)
        by (apply Qnot_le_lt; rewrite <- Qle_bool_iff, H; discriminate);
      clear H
  end.

Create HintDb bea.

(** ** Lemmas shared by the components *)

Lemma Qltb_iff (x y : Q) : Qltb x y = true <-> x < y.
Proof.
  unfold Qltb; rewrite negb_true_iff, <- Bool.not_true_iff_false, Qle_bool_iff.
  split; [apply Qnot_le_lt | intros H H'; apply (Qlt_not_le _ _ H H')].
Qed.

#[export] Instance Qltb_proper : Proper (Qeq ==> Qeq ==> eq) Qltb.
Proof. intros x x' Hx y y' Hy; unfold Qltb; rewrite Hx, Hy; reflexivity. Qed.

Lemma Forall2_nth_Qeq (l1 l2 : list Q) (i : nat) :
  l1 =l= l2 -> l1.[i] == l2.[i].
Proof.
  intros H; revert i; induction H as [|x y l1 l2 Hxy H IH]; intros [|i]; simpl;
    auto; reflexivity.
Qed.

Lemma Forall2_map_Qeq (f g : Q -> Q) (l1 l2 : list Q) :
  (forall x y, x == y -> f x == g y) -> l1 =l= l2 -> map f l1 =l= map g l2.
Proof. intros Hfg H; induction H; constructor; auto. Qed.

Lemma nth_In_Q (l : list Q) (i : nat) : (i < length l)%nat -> In l.[i] l.
Proof. apply nth_In. Qed.

Lemma Forall_nth_Q (P : Q -> Prop) (l : list Q) (i : nat) :
  Forall P l -> (i < length l)%nat -> P l.[i].
Proof. rewrite Forall_forall; intros H Hi; apply H, nth_In_Q, Hi. Qed.

#[export] Hint Resolve Forall2_nth_Qeq nth_In_Q : bea.

(** Entries of a list sorted by a transitive relation are related in
    index order. *)
Lemma Sorted_nth {A : Type} (R : A -> A -> Prop) (a : list A) (d : A) (i j : nat) :
  Relations_1.Transitive R -> Sorted R a -> (i < j < length a)%nat ->
  R (nth i a d) (nth j a d).
Proof.
  intros HT Hs. apply Sorted_StronglySorted in Hs; [|exact HT].
  revert i j; induction Hs as [|x a Hs IH Hx]; intros i j Hij; simpl in Hij; [lia|].
  destruct i as [|i], j as [|j]; simpl; try lia.
  - rewrite Forall_forall in Hx; apply Hx, nth_In; lia.
  - apply IH; lia.
Qed.

Lemma Qle_trans1 : Relations_1.Transitive Qle.
Proof. intros x y z; apply Qle_trans. Qed.

Lemma Qlt_trans1 : Relations_1.Transitive Qlt.
Proof. intros x y z; apply Qlt_trans. Qed.

(** The sum of an array, [np.sum] / the accumulator of [np.mean]. *)
Definition qsum (l : list Q) : Q := fold_right Qplus 0 l.

Lemma qsum_permutation (a b : list Q) : Permutation a b -> qsum a == qsum b.
Proof.
  induction 1; simpl; lra.
Qed.

#[export] Instance qsum_proper : Proper (Forall2 Qeq ==> Qeq) qsum.
Proof. intros a b H; induction H; simpl; [reflexivity|]. rewrite H, IHForall2; reflexivity. Qed.

Lemma filter_all_false {A : Type} (p : A -> bool) (l : list A) :
  (forall x, p x = false) -> filter p l = [].
Proof. intros H; induction l as [|x l IH]; simpl; [reflexivity|]; rewrite H; exact IH. Qed.

Lemma filter_none {A : Type} (p : A -> bool) (l : list A) :
  (forall x, In x l -> p x = false) -> filter p l = [].
Proof.
  intros H; induction l as [|x l IH]; simpl; [reflexivity|].
  rewrite H by (left; reflexivity); apply IH; intros y Hy; apply H; right; exact Hy.
Qed.

Lemma filter_all_in {A : Type} (p : A -> bool) (l : list A) :
  Forall (fun x => p x = true) l -> filter p l = l.
Proof. induction 1 as [|x l Hx _ IH]; cbn; [reflexivity|]; rewrite Hx, IH; reflexivity. Qed.

Lemma Forall2_Qeq_nth (l1 l2 : list Q) :
  length l1 = length l2 -> (forall k, (k < length l1)%nat -> l1.[k] == l2.[k]) -> l1 =l= l2.
Proof.
  revert l2; induction l1 as [|x l1 IH]; intros [|y l2] Hl Hk; simpl in Hl; try lia;
    constructor.
  - apply (Hk 0%nat); simpl; lia.
  - apply IH; [lia|]. intros k Hk'; apply (Hk (S k)); simpl; lia.
Qed.

Lemma nth_map_Q (f : Q -> Q) (l : list Q) (k : nat) :
  (k < length l)%nat -> (map f l).[k] = f l.[k].
Proof. intros Hk; rewrite (nth_indep _ _ (f 0)) by (rewrite length_map; exact Hk); apply map_nth. Qed.

(** Closing concrete side conditions of a witness: booleans by
    evaluation, comparisons of rational constants through [Qle_bool] and
    [Qltb], comparisons of natural numbers by [lia]. *)
Ltac concrete :=
  first [ reflexivity
        | apply Qle_bool_iff; vm_compute; reflexivity
        | apply Qltb_iff; vm_compute; reflexivity
        | simpl; lia ].

Lemma nth_map_lt {A : Type} (f : A -> Q) (l : list A) (d : A) (i : nat) :
  (i < length l)%nat -> (map f l).[i] = f (nth i l d).
Proof. intros Hi; rewrite (nth_indep _ _ (f d)) by (rewrite length_map; exact Hi); apply map_nth. Qed.

Lemma Forall_nth_Q_iff (P : Q -> Prop) (l : list Q) :
  (forall i, (i < length l)%nat -> P l.[i]) -> Forall P l.
Proof.
  intros H; apply Forall_forall; intros x Hx.
  destruct (In_nth l x 0 Hx) as (i & Hi & <-); apply H, Hi.
Qed.

(** [map] of a fallible function: the first error wins, as a Python loop
    raising at the first failing element. *)
Fixpoint map_result {A B : Type} (f : A -> result B) (l : list A) : result (list B) :=
  match l with
  | [] => Ok []
  | x :: l' =>
      match f x with
      | Ok y => match map_result f l' with Ok ys => Ok (y :: ys) | Err e => Err e end
      | Err e => Err e
      end
  end.

(** A successful [x <- r ;; k x] went through [r]. *)
Lemma bind_ok {A B : Type} (r : result A) (k : A -> result B) (y : B) :
  bind r k = Ok y -> exists x, r = Ok x /\ k x = Ok y.
Proof. destruct r; simpl; [eauto | discriminate]. Qed.

Lemma map_result_ok {A B : Type} (f : A -> result B) (l : list A) :
  (forall x, In x l -> exists y, f x = Ok y) ->
  exists ys, map_result f l = Ok ys /\ Forall2 (fun x y => f x = Ok y) l ys.
Proof.
  induction l as [|x l IH]; intros H; simpl; [eauto|].
  destruct (H x (or_introl eq_refl)) as [y Hy]; rewrite Hy.
  destruct IH as (ys & E & HF); [intros z Hz; apply H; right; exact Hz|].
  rewrite E; eauto.
Qed.

Lemma Forall2_Forall_r {A B : Type} (R : A -> B -> Prop) (P : B -> Prop) (l1 : list A) (l2 : list B) :
  Forall2 R l1 l2 -> (forall x y, In x l1 -> R x y -> P y) -> Forall P l2.
Proof.
  induction 1 as [|x y l1 l2 Hxy H IH]; intros HP; constructor.
  - apply (HP x); [left; reflexivity | exact Hxy].
  - apply IH; intros a b Ha Hab; apply (HP a); [right; exact Ha | exact Hab].
Qed.

Lemma Forall_concat_In {A : Type} (P : A -> Prop) (ls : list (list A)) (x : A) :
  Forall (Forall P) ls -> In x (concat ls) -> P x.
Proof.
  intros H Hx; apply in_concat in Hx as (l & Hl & Hx).
  rewrite Forall_forall in H; specialize (H l Hl); rewrite Forall_forall in H; auto.
Qed.

Lemma map_result_Forall2 {A B : Type} (f : A -> result B) (l : list A) (ys : list B) :
  map_result f l = Ok ys -> Forall2 (fun x y => f x = Ok y) l ys.
Proof.
  revert ys; induction l as [|x l IH]; intros ys; simpl.
  - intros E; injection E as <-; constructor.
  - destruct (f x) as [y|e] eqn:Ef; [|discriminate].
    destruct (map_result f l) as [ys'|e] eqn:El; [|discriminate].
    intros E; injection E as <-; constructor; [exact Ef | apply IH; reflexivity].
Qed.

(** Entry [j] of a [map_result] over rationals. *)
Lemma map_result_nth {A : Type} (f : A -> result Q) (l : list A) (ys : list Q) (d : A) (j : nat) :
  map_result f l = Ok ys -> (j < length l)%nat -> f (nth j l d) = Ok ys.[j].
Proof.
  intros H; apply map_result_Forall2 in H; revert j.
  induction H as [|x y l ys Hxy H IH]; intros [|j] Hj; simpl in *; try lia; auto.
  apply IH; lia.
Qed.

Lemma map_result_length {A B : Type} (f : A -> result B) (l : list A) (ys : list B) :
  map_result f l = Ok ys -> length ys = length l.
Proof. intros H; symmetry; apply (Forall2_length (map_result_Forall2 f l ys H)). Qed.

Lemma map_nth_seq_self {A : Type} (l : list A) (d : A) :
  map (fun j => nth j l d) (seq 0 (length l)) = l.
Proof.
  induction l as [|x l IH]; simpl; [reflexivity|]. f_equal.
  rewrite <- seq_shift, map_map; exact IH.
Qed.

Lemma Forall2_map_same {A B C : Type} (R : B -> C -> Prop) (f : A -> B) (g : A -> C) (l : list A) :
  (forall x, In x l -> R (f x) (g x)) -> Forall2 R (map f l) (map g l).
Proof.
  induction l as [|x l IH]; intros H; simpl; constructor.
  - apply H; left; reflexivity.
  - apply IH; intros y Hy; apply H; right; exact Hy.
Qed.
