(* ===== verification/NpSort.v ===== *)
(** * numpy's [np.sort] and [np.median] on float arrays

    [np.median] (called by [utils.robust_mad] and
    [utils.filter_outliers_within_span]) partitions the array around its
    middle and returns the middle element, or the mean of the two middle
    elements for an even length; on an empty array it returns NaN.  Any
    correct partition yields the same middle values as a full sort, so the
    median is written through a sort; [sort] is insertion sort.

    Equality of floats is [==] on [Q], so sorting equal inputs can return
    lists that differ syntactically ([1#2] and [2#4]); the lemmas here are
    stated up to [=l=], with [Proper] instances for setoid rewriting. *)

From S2P Require Import Prelude.

Fixpoint insert (x : Q) (l : list Q) : list Q :=
  match l with
  | [] => [x]
  | y :: l' => if Qle_bool x y then x :: y :: l' else y :: insert x l'
  end.

(** [np.sort(a)] *)
Fixpoint sort (a : list Q) : list Q :=
  match a with
  | [] => []
  | x :: a' => insert x (sort a')
  end.

(** The middle of a sorted array: numpy's [mean(part[indexer])] on the
    one or two middle entries; the mean of an empty slice is NaN. *)
Definition middle (s : list Q) : option Q :=
  let n := length s in
  if Nat.eqb n 0 then None
  else if Nat.odd n then Some s.[Nat.div n 2]
  else Some ((s.[Nat.pred (Nat.div n 2)] + s.[Nat.div n 2]) / 2).

(** [np.median(a)]: [None] is the NaN returned for an empty array. *)
Definition median (a : list Q) : option Q := middle (sort a).

(** ** Sorting: permutation, order, and compatibility with [==] *)

Ltac qcase_simpl := repeat (progress (simpl; qcase)).

Lemma insert_perm (x : Q) (l : list Q) : Permutation (insert x l) (x :: l).
Proof.
  induction l as [|y l IH]; simpl; [reflexivity|].
  destruct (Qle_bool x y); [reflexivity|].
  rewrite IH; apply perm_swap.
Qed.

Lemma sort_perm (a : list Q) : Permutation (sort a) a.
Proof.
  induction a as [|x a IH]; simpl; [reflexivity|].
  rewrite insert_perm, IH; reflexivity.
Qed.

Lemma insert_sorted (x : Q) (l : list Q) :
  Sorted Qle l -> Sorted Qle (insert x l).
Proof.
  induction 1 as [|y l Hl IH Hhd]; simpl; [repeat constructor|].
  qcase.
  - repeat constructor; assumption.
  - constructor; [exact IH|].
    destruct l as [|z l]; simpl; [constructor; lra|].
    inversion Hhd; subst. qcase; constructor; lra.
Qed.

Lemma sort_sorted (a : list Q) : Sorted Qle (sort a).
Proof. induction a; simpl; auto using insert_sorted. Qed.

#[export] Instance insert_proper : Proper (Qeq ==> Forall2 Qeq ==> Forall2 Qeq) insert.
Proof.
  intros x x' Hx l l' Hl; induction Hl as [|y y' l l' Hy Hl IH]; simpl.
  - repeat constructor; assumption.
  - rewrite Hx, Hy at 1. destruct (Qle_bool x' y'); repeat constructor; assumption.
Qed.

#[export] Instance sort_proper : Proper (Forall2 Qeq ==> Forall2 Qeq) sort.
Proof.
  intros a a' H; induction H as [|x x' a a' Hx H IH]; simpl; [constructor|].
  rewrite Hx, IH; reflexivity.
Qed.

(** Inserting two values in either order gives the same list up to [==]. *)
Lemma insert_comm (a b : Q) (l : list Q) :
  insert a (insert b l) =l= insert b (insert a l).
Proof.
  induction l as [|y l IH]; qcase_simpl;
    repeat first [ lra
                 | apply Forall2_cons; [lra|]
                 | reflexivity
                 | exact IH ].
Qed.

(** [np.sort] does not depend on the order of its input. *)
Lemma sort_permutation (a b : list Q) : Permutation a b -> sort a =l= sort b.
Proof.
  induction 1 as [|x a b H IH|x y a|a b c H1 IH1 H2 IH2]; simpl.
  - reflexivity.
  - rewrite IH; reflexivity.
  - apply insert_comm.
  - rewrite IH1; exact IH2.
Qed.

Lemma sort_length (a : list Q) : length (sort a) = length a.
Proof. apply Permutation_length, sort_perm. Qed.

Lemma sort_Forall (P : Q -> Prop) (a : list Q) : Forall P a -> Forall P (sort a).
Proof. intros H. eapply Permutation_Forall; [symmetry; apply sort_perm | exact H]. Qed.

(** ** The median *)

#[export] Instance middle_proper : Proper (Forall2 Qeq ==> oQeq) middle.
Proof.
  intros s t Hs. unfold middle.
  rewrite (Forall2_length Hs).
  destruct (Nat.eqb _ 0); simpl; [exact I|].
  destruct (Nat.odd _); simpl.
  - apply Forall2_nth_Qeq; exact Hs.
  - rewrite (Forall2_nth_Qeq _ _ (Nat.pred (Nat.div (length t) 2)) Hs),
            (Forall2_nth_Qeq _ _ (Nat.div (length t) 2) Hs); reflexivity.
Qed.

#[export] Instance median_proper : Proper (Forall2 Qeq ==> oQeq) median.
Proof. intros a b H; unfold median; rewrite H; reflexivity. Qed.

Lemma median_permutation (a b : list Q) : Permutation a b -> median a =o= median b.
Proof. intros H; unfold median; rewrite (sort_permutation a b H); reflexivity. Qed.

Lemma median_None (a : list Q) : median a = None <-> a = [].
Proof.
  unfold median, middle; rewrite sort_length.
  destruct a as [|x a]; simpl; [tauto|].
  split; [destruct (Nat.odd _); discriminate | discriminate].
Qed.

(** The median of values within [lo, hi] lies within [lo, hi]. *)
Lemma median_bounds (a : list Q) (lo hi m : Q) :
  Forall (fun x => lo <= x <= hi) a -> median a = Some m -> lo <= m <= hi.
Proof.
  intros Hall. unfold median, middle.
  pose proof (sort_Forall _ _ Hall) as Hs.
  destruct (Nat.eqb_spec (length (sort a)) 0) as [E0|E0]; [discriminate|].
  assert (Hmid : (length (sort a) / 2 < length (sort a))%nat)
    by (apply Nat.div_lt; lia).
  pose proof (Forall_nth_Q _ _ _ Hs Hmid) as Hm.
  destruct (Nat.odd _); intros Hr; injection Hr as <-; [exact Hm|].
  assert (Hlo : (Nat.pred (length (sort a) / 2) < length (sort a))%nat) by lia.
  pose proof (Forall_nth_Q _ _ _ Hs Hlo) as Hm'.
  simpl in Hm, Hm'. split; [apply Qle_shift_div_l | apply Qle_shift_div_r];
    try reflexivity; lra.
Qed.

(** ** Executable order predicates *)

(** [sorted_by lt a]: every two neighbours of [a] are related by [lt]. *)
(** A stable sort of any data by a rational key: the insertion sort above
    run on the keys, carrying the data along.  It models [np.argsort] and
    pandas' [sort_values] (see [Bad.v] for what numpy's unstable default
    changes). *)
Section SortBy.
Context {A : Type} (key : A -> Q).

Fixpoint insert_by (x : A) (l : list A) : list A :=
  match l with
  | [] => [x]
  | y :: l' => if Qle_bool (key x) (key y) then x :: y :: l' else y :: insert_by x l'
  end.

Fixpoint sort_by (l : list A) : list A :=
  match l with
  | [] => []
  | x :: l' => insert_by x (sort_by l')
  end.

End SortBy.

Fixpoint sorted_by (lt : Q -> Q -> bool) (a : list Q) : bool :=
  match a with
  | x :: ((y :: _) as t) => lt x y && sorted_by lt t
  | _ => true
  end.

(** Non-decreasing ([np.all(np.diff(a) >= 0)]) and strictly increasing
    ([np.all(np.diff(a) > 0)]). *)
Definition is_sorted (a : list Q) : bool := sorted_by Qle_bool a.
Definition is_increasing (a : list Q) : bool := sorted_by Qltb a.

Lemma sorted_by_Sorted (lt : Q -> Q -> bool) (R : Q -> Q -> Prop) (a : list Q) :
  (forall x y, lt x y = true -> R x y) -> sorted_by lt a = true -> Sorted R a.
Proof.
  intros HR; induction a as [|x [|y a] IH]; simpl; intros H; auto.
  apply andb_prop in H as [Hxy H].
  constructor; [apply IH, H | constructor; apply HR, Hxy].
Qed.

Lemma is_sorted_Sorted (a : list Q) : is_sorted a = true -> Sorted Qle a.
Proof. apply sorted_by_Sorted; intros x y; apply Qle_bool_iff. Qed.

Lemma is_increasing_Sorted (a : list Q) : is_increasing a = true -> Sorted Qlt a.
Proof. apply sorted_by_Sorted; intros x y; apply Qltb_iff. Qed.

(** Index form of the two predicates. *)
Lemma is_sorted_nth (a : list Q) (i j : nat) :
  is_sorted a = true -> (i <= j < length a)%nat -> a.[i] <= a.[j].
Proof.
  intros Ha Hij; destruct (Nat.eq_dec i j) as [->|Hne]; [apply Qle_refl|].
  apply Sorted_nth; [exact Qle_trans1 | apply is_sorted_Sorted, Ha | lia].
Qed.

Lemma is_increasing_nth (a : list Q) (i j : nat) :
  is_increasing a = true -> (i < j < length a)%nat -> a.[i] < a.[j].
Proof. intros Ha Hij; apply Sorted_nth; [exact Qlt_trans1 | apply is_increasing_Sorted, Ha | lia]. Qed.

Lemma sorted_by_impl (lt1 lt2 : Q -> Q -> bool) (a : list Q) :
  (forall x y, lt1 x y = true -> lt2 x y = true) ->
  sorted_by lt1 a = true -> sorted_by lt2 a = true.
Proof.
  intros H12; induction a as [|x [|y a] IH]; simpl; auto.
  rewrite !andb_true_iff; intros [H1 H2]; split; [apply H12, H1 | apply IH, H2].
Qed.

Lemma is_increasing_sorted (a : list Q) : is_increasing a = true -> is_sorted a = true.
Proof.
  apply sorted_by_impl; intros x y; rewrite Qltb_iff, Qle_bool_iff; apply Qlt_le_weak.
Qed.

Lemma sorted_by_map (lt1 lt2 : Q -> Q -> bool) (f : Q -> Q) (a : list Q) :
  (forall x y, lt1 x y = true -> lt2 (f x) (f y) = true) ->
  sorted_by lt1 a = true -> sorted_by lt2 (map f a) = true.
Proof.
  intros Hf; induction a as [|x [|y a] IH]; simpl; auto.
  rewrite !andb_true_iff; intros [H1 H2]; split; [apply Hf, H1 | apply IH, H2].
Qed.

Lemma sorted_by_nth (lt : Q -> Q -> bool) (a : list Q) :
  (forall i, (S i < length a)%nat -> lt a.[i] a.[S i] = true) -> sorted_by lt a = true.
Proof.
  induction a as [|x [|y a] IH]; intros H; simpl; auto.
  apply andb_true_intro; split; [apply (H 0%nat); simpl; lia|].
  apply IH; intros i Hi; apply (H (S i)); simpl in *; lia.
Qed.

Lemma sort_nth_le (a : list Q) (i j : nat) :
  (i <= j < length a)%nat -> (sort a).[i] <= (sort a).[j].
Proof.
  intros Hij; destruct (Nat.eq_dec i j) as [->|Hne]; [apply Qle_refl|].
  apply Sorted_nth; [exact Qle_trans1 | apply sort_sorted | rewrite sort_length; lia].
Qed.

Section SortByLemmas.
Context {A : Type} (key : A -> Q).

Lemma map_insert_by (x : A) (l : list A) :
  map key (insert_by key x l) = insert (key x) (map key l).
Proof.
  induction l as [|y l IH]; simpl; [reflexivity|].
  destruct (Qle_bool (key x) (key y)); simpl; [reflexivity | rewrite IH; reflexivity].
Qed.

(** On the keys, [sort_by] is [sort]. *)
Lemma map_sort_by (l : list A) : map key (sort_by key l) = sort (map key l).
Proof. induction l as [|x l IH]; simpl; [reflexivity | rewrite map_insert_by, IH; reflexivity]. Qed.

Lemma insert_by_perm (x : A) (l : list A) : Permutation (insert_by key x l) (x :: l).
Proof.
  induction l as [|y l IH]; simpl; [reflexivity|].
  destruct (Qle_bool (key x) (key y)); [reflexivity|].
  rewrite IH; apply perm_swap.
Qed.

Lemma sort_by_perm (l : list A) : Permutation (sort_by key l) l.
Proof.
  induction l as [|x l IH]; simpl; [reflexivity|].
  rewrite insert_by_perm, IH; reflexivity.
Qed.

Lemma sort_by_sorted (l : list A) : is_sorted (map key (sort_by key l)) = true.
Proof.
  rewrite map_sort_by. apply sorted_by_nth; intros i Hi.
  rewrite sort_length in Hi; apply Qle_bool_iff, sort_nth_le; lia.
Qed.

End SortByLemmas.
