(* ===== verification/NpArray.v ===== *)
(** * numpy array primitives used by [utils.py] and [bad.py]

    [np.mean] and [np.std] (the fallback of [utils.robust_mad]),
    [np.diff], [np.cumsum], elementwise product, [np.clip] on indices and
    [np.searchsorted(..., side="right")] (the segment lookup of
    [bad._piecewise_age_one_draw]).  [searchsorted_right] is the binary
    search numpy runs; it is proved equal to the count of entries [<= v]
    on sorted input, the meaning [bad.py] relies on. *)

From S2P Require Import Prelude NpSort.

(** ** Square roots: the interface [np.std] needs *)

(** What [np.std] needs of [sqrt]: non-negative, exact at [0], and a
    function of the value (not of its representation). *)
Class SqrtModel := {
  qsqrt : Q -> Q;
  qsqrt_nonneg : forall q, 0 <= qsqrt q;
  qsqrt_0 : qsqrt 0 == 0;
  qsqrt_proper :: Proper (Qeq ==> Qeq) qsqrt
}.

(** An executable instance: the floor of [sqrt q] on the grid [2^-30]. *)
Definition zsqrt_q (q : Q) : Q :=
  let r := Qred q in
  Z.sqrt (Qnum r * Zpos (Qden r) * 2 ^ 60) # (Qden r * 2 ^ 30).

#[export] Instance zsqrt_model : SqrtModel.
Proof.
  refine {| qsqrt := zsqrt_q |}.
  - intros q; unfold zsqrt_q, Qle; simpl.
    rewrite Z.mul_1_r; apply Z.sqrt_nonneg.
  - reflexivity.
  - intros x y H; unfold zsqrt_q; rewrite (Qred_complete x y H); reflexivity.
Qed.

(** ** Mean and standard deviation *)

(** [np.mean(x)]; [None] is the NaN of an empty array. *)
Definition mean (x : list Q) : option Q :=
  match length x with
  | O => None
  | n => Some (qsum x / inject_Z (Z.of_nat n))
  end.

(** [np.std(x)] (population, [ddof=0]): [sqrt(mean(abs(x - x.mean())**2))]. *)
Definition std `{SqrtModel} (x : list Q) : option Q :=
  match mean x with
  | None => None
  | Some m => option_map qsqrt (mean (map (fun v => (v - m) * (v - m)) x))
  end.

(** ** Differences, running sums, elementwise product, clip *)

(** [np.diff(d)] *)
Fixpoint diff (d : list Q) : list Q :=
  match d with
  | x :: ((y :: _) as t) => (y - x) :: diff t
  | _ => []
  end.

Fixpoint cumsum_from (acc : Q) (l : list Q) : list Q :=
  match l with
  | [] => []
  | x :: l' => (acc + x) :: cumsum_from (acc + x) l'
  end.

(** [np.cumsum(l)] *)
Definition cumsum (l : list Q) : list Q := cumsum_from 0 l.

(** [a * b] on two arrays of the same shape. *)
Definition vmul (a b : list Q) : list Q := map (fun p => fst p * snd p) (combine a b).

(** [np.clip(i, lo, hi)] on integers: [minimum(maximum(i, lo), hi)]. *)
Definition clip (i lo hi : Z) : Z := Z.min (Z.max i lo) hi.

(** ** [np.searchsorted(a, v, side="right")] *)

(** numpy's [binsearch] with side right: while [lo < hi], look at
    [mid = lo + (hi - lo) / 2]; if [a[mid] <= v] continue right of [mid],
    else left.  [fuel] bounds the iterations; [length a] is enough
    ([bsearch_right_spec]). *)
Fixpoint bsearch_right (fuel : nat) (a : list Q) (v : Q) (lo hi : nat) : nat :=
  match fuel with
  | O => lo
  | S fuel' =>
      if Nat.ltb lo hi then
        let mid := (lo + (hi - lo) / 2)%nat in
        if Qle_bool a.[mid] v then bsearch_right fuel' a v (S mid) hi
        else bsearch_right fuel' a v lo mid
      else lo
  end.

Definition searchsorted_right (a : list Q) (v : Q) : nat :=
  bsearch_right (length a) a v 0 (length a).

(** The reference meaning: how many entries of [a] are [<= v]. *)
Definition count_le (a : list Q) (v : Q) : nat :=
  length (filter (fun x => Qle_bool x v) a).

(** ** Lemmas *)

Lemma mean_None (x : list Q) : mean x = None <-> x = [].
Proof. unfold mean; destruct x; simpl; split; congruence. Qed.

(** [mean] only depends on the length and the sum of its argument. *)
Lemma mean_ext (a b : list Q) :
  length a = length b -> qsum a == qsum b -> mean a =o= mean b.
Proof.
  intros Hl Hs; unfold mean; rewrite Hl.
  destruct (length b); simpl; [exact I|]. rewrite Hs; reflexivity.
Qed.

#[export] Instance mean_proper : Proper (Forall2 Qeq ==> oQeq) mean.
Proof. intros a b H; apply mean_ext; [apply (Forall2_length H) | rewrite H; reflexivity]. Qed.

Lemma mean_permutation (a b : list Q) : Permutation a b -> mean a =o= mean b.
Proof. intros H; apply mean_ext; [apply (Permutation_length H) | apply qsum_permutation, H]. Qed.

Lemma qsum_nonneg (l : list Q) : Forall (fun x => 0 <= x) l -> 0 <= qsum l.
Proof. induction 1; simpl; lra. Qed.

Lemma qsum_lt (a b : list Q) : Forall2 Qlt a b -> a <> [] -> qsum a < qsum b.
Proof.
  induction 1 as [|x y a b Hxy H IH]; intros Hne; [congruence|].
  destruct a as [|x' a]; simpl.
  - inversion H; subst; simpl; lra.
  - assert (qsum (x' :: a) < qsum b) by (apply IH; discriminate). simpl in *; lra.
Qed.

(** Element-wise strictly larger data have a strictly larger mean. *)
Lemma mean_lt (a b : list Q) :
  Forall2 Qlt a b -> a <> [] ->
  exists x y, mean a = Some x /\ mean b = Some y /\ x < y.
Proof.
  intros H Hne; pose proof (Forall2_length H) as Hl; unfold mean; rewrite <- Hl.
  destruct (length a) as [|n] eqn:En; [destruct a; [congruence | discriminate]|].
  eexists _, _; split; [reflexivity|]; split; [reflexivity|].
  apply Qmult_lt_compat_r; [apply Qinv_lt_0_compat; unfold Qlt; simpl; lia|].
  apply qsum_lt; assumption.
Qed.

Lemma mean_nonneg (x : list Q) (m : Q) :
  Forall (fun v => 0 <= v) x -> mean x = Some m -> 0 <= m.
Proof.
  intros H; unfold mean; destruct (length x) as [|n]; [discriminate|]; intros E; injection E as <-.
  apply Qle_shift_div_l; [unfold Qlt; simpl; lia|].
  rewrite Qmult_0_l; apply qsum_nonneg, H.
Qed.

Section Std.
Context `{SqrtModel}.

Lemma std_None (x : list Q) : std x = None <-> x = [].
Proof. destruct x as [|v x]; unfold std, mean; simpl; split; congruence. Qed.

Lemma std_nonneg (x : list Q) (s : Q) : std x = Some s -> 0 <= s.
Proof.
  unfold std; destruct (mean x); [|discriminate].
  destruct (mean (map _ x)); simpl; [|discriminate].
  intros E; injection E as <-; apply qsqrt_nonneg.
Qed.

(** [np.std] is a function of the multiset of values. *)
Lemma std_permutation (a b : list Q) : Permutation a b -> std a =o= std b.
Proof.
  intros Hp; unfold std.
  pose proof (mean_permutation a b Hp) as Hm.
  destruct (mean a) as [ma|], (mean b) as [mb|]; simpl in Hm |- *; try tauto.
  assert (Hsq : mean (map (fun v => (v - ma) * (v - ma)) a)
                =o= mean (map (fun v => (v - mb) * (v - mb)) b)).
  { transitivity (mean (map (fun v => (v - ma) * (v - ma)) b)).
    - apply mean_permutation, Permutation_map, Hp.
    - apply mean_proper, Forall2_map_Qeq; [intros x y Hxy; rewrite Hxy, Hm; reflexivity|].
      reflexivity. }
  destruct (mean (map _ a)), (mean (map _ b)); simpl in Hsq |- *; try tauto.
  rewrite Hsq; reflexivity.
Qed.
End Std.

Lemma clip_bounds (i lo hi : Z) : (lo <= hi)%Z -> (lo <= clip i lo hi <= hi)%Z.
Proof. unfold clip; lia. Qed.

Lemma length_diff (d : list Q) : length (diff d) = Nat.pred (length d).
Proof.
  induction d as [|x [|y d] IH]; simpl in *; auto.
Qed.

Lemma nth_diff (d : list Q) (k : nat) :
  (S k < length d)%nat -> (diff d).[k] = d.[S k] - d.[k].
Proof.
  revert k; induction d as [|x [|y d] IH]; intros k Hk; simpl in Hk; try lia.
  destruct k as [|k]; [reflexivity|].
  change (diff (x :: y :: d)) with ((y - x) :: diff (y :: d)).
  exact (IH k ltac:(simpl in *; lia)).
Qed.

Lemma length_cumsum_from (acc : Q) (l : list Q) : length (cumsum_from acc l) = length l.
Proof. revert acc; induction l; simpl; auto. Qed.

(** Entry [k] of the running sum started at [acc]: [acc] plus the first
    [k + 1] entries. *)
Lemma nth_cumsum_from (acc : Q) (l : list Q) (k : nat) :
  (k < length l)%nat -> (cumsum_from acc l).[k] == acc + qsum (firstn (S k) l).
Proof.
  revert acc k; induction l as [|x l IH]; intros acc k Hk; simpl in Hk; [lia|].
  destruct k as [|k]; simpl; [destruct l; simpl; lra|].
  rewrite (IH (acc + x) k) by lia; simpl; lra.
Qed.

Lemma length_vmul (a b : list Q) : length (vmul a b) = Nat.min (length a) (length b).
Proof. unfold vmul; rewrite length_map, length_combine; reflexivity. Qed.

Lemma nth_vmul (a b : list Q) (k : nat) :
  (k < length a)%nat -> (k < length b)%nat -> (vmul a b).[k] = a.[k] * b.[k].
Proof.
  revert b k; induction a as [|x a IH]; intros [|y b] k Ha Hb; simpl in *; try lia.
  destruct k; [reflexivity|]. apply IH; lia.
Qed.

(** ** [searchsorted] computes the count of entries [<= v] *)

(** If every entry before [k] is [<= v] and every entry from [k] on is
    [> v], exactly [k] entries are [<= v]. *)
Lemma count_le_split (a : list Q) (v : Q) (k : nat) :
  (k <= length a)%nat ->
  (forall i, (i < k)%nat -> a.[i] <= v) ->
  (forall i, (k <= i < length a)%nat -> v < a.[i]) ->
  count_le a v = k.
Proof.
  unfold count_le; revert k; induction a as [|x a IH]; intros k Hk Hlo Hhi; simpl in *; [lia|].
  destruct k as [|k].
  - assert (Hx : v < x) by (apply (Hhi 0%nat); lia).
    qcase; [lra|]. apply IH; [lia | intros; lia | intros i Hi; apply (Hhi (S i)); lia].
  - assert (Hx : x <= v) by (apply (Hlo 0%nat); lia).
    qcase; [|lra]. simpl; f_equal.
    apply IH; [lia | intros i Hi; apply (Hlo (S i)); lia | intros i Hi; apply (Hhi (S i)); lia].
Qed.

(** The loop invariant of the binary search: entries left of [lo] are
    [<= v], entries from [hi] on are [> v]; enough fuel preserves it to the
    exit, where [lo = hi]. *)
Lemma bsearch_right_spec (fuel : nat) (a : list Q) (v : Q) (lo hi : nat) :
  is_sorted a = true -> (lo <= hi <= length a)%nat -> (hi - lo <= fuel)%nat ->
  (forall i, (i < lo)%nat -> a.[i] <= v) ->
  (forall i, (hi <= i < length a)%nat -> v < a.[i]) ->
  let k := bsearch_right fuel a v lo hi in
  (k <= length a)%nat /\ (forall i, (i < k)%nat -> a.[i] <= v) /\
  (forall i, (k <= i < length a)%nat -> v < a.[i]).
Proof.
  intros Hs; revert lo hi; induction fuel as [|fuel IH]; intros lo hi Hb Hf Hlo Hhi;
    cbn [bsearch_right].
  - assert (lo = hi) as <- by lia; cbv zeta; repeat split; auto; lia.
  - destruct (Nat.ltb_spec lo hi) as [Hlt|Hge];
      [|assert (lo = hi) as <- by lia; cbv zeta; repeat split; auto; lia].
    set (mid := (lo + (hi - lo) / 2)%nat).
    assert (Hmid : (lo <= mid < hi)%nat).
    { subst mid; split; [lia|].
      assert ((hi - lo) / 2 < hi - lo)%nat by (apply Nat.div_lt; lia). lia. }
    clearbody mid; qcase.
    + apply IH; [lia | lia | |exact Hhi].
      intros i Hi; destruct (Nat.lt_ge_cases i lo); [apply Hlo; lia|].
      apply Qle_trans with a.[mid]; [apply is_sorted_nth; [exact Hs | lia] | assumption].
    + apply IH; [lia | lia | exact Hlo |].
      intros i Hi; apply Qlt_le_trans with a.[mid]; [assumption|].
      apply is_sorted_nth; [exact Hs | lia].
Qed.

(** What the segment lookup of [bad.py] uses: on a sorted array, the
    result [k] splits [a] into the entries [<= v] (before [k]) and the
    entries [> v] (from [k] on). *)
Lemma searchsorted_right_spec (a : list Q) (v : Q) :
  is_sorted a = true ->
  (searchsorted_right a v <= length a)%nat /\
  (forall i, (i < searchsorted_right a v)%nat -> a.[i] <= v) /\
  (forall i, (searchsorted_right a v <= i < length a)%nat -> v < a.[i]).
Proof.
  intros Hs; apply bsearch_right_spec; try lia; auto.
Qed.

(** C4: numpy's binary search [np.searchsorted(a, v, side="right")]
    returns, on a sorted array, exactly the number of entries of [a] that
    are [<= v]: the optimised routine agrees with its reference meaning,
    and the fuel [length a] never runs out. *)
Theorem searchsorted_right_count (a : list Q) (v : Q) :
  is_sorted a = true -> searchsorted_right a v = count_le a v.
Proof.
  intros Hs; destruct (searchsorted_right_spec a v Hs) as (Hk & Hlo & Hhi).
  symmetry; apply count_le_split; assumption.
Qed.

Lemma searchsorted_right_count_witness :
  is_sorted [10; 20; 20; 30] = true /\
  searchsorted_right [10; 20; 20; 30] 20 = count_le [10; 20; 20; 30] 20 /\
  count_le [10; 20; 20; 30] 20 = 3%nat.
Proof.
  split; [reflexivity|]. split; [apply searchsorted_right_count; reflexivity | reflexivity].
Defined.

(** More depth, at least as many entries [<= v]. *)
Lemma count_le_mono (a : list Q) (v w : Q) : v <= w -> (count_le a v <= count_le a w)%nat.
Proof.
  intros Hvw; unfold count_le; induction a as [|x a IH]; simpl; [lia|].
  qcase; simpl; try lia. lra.
Qed.

(** ** [np.linspace(start, stop, num)] *)

(** numpy: [step = (stop - start) / (num - 1)],
    [y = arange(0, num) * step + start], then [y[-1] = stop] when
    [num > 1]; one point is [[start]], none is [[]]. *)
Definition linspace (start stop : Q) (num : nat) : list Q :=
  match num with
  | O => []
  | 1%nat => [start]
  | S k =>
      let step := (stop - start) / inject_Z (Z.of_nat k) in
      map (fun i => inject_Z (Z.of_nat i) * step + start) (seq 0 k) ++ [stop]
  end.

Lemma length_linspace (start stop : Q) (num : nat) : length (linspace start stop num) = num.
Proof.
  destruct num as [|[|k]]; simpl; auto.
  rewrite length_app, length_map, length_seq; simpl; lia.
Qed.

(** Entry [i] of the grid, [i < num - 1]: [start + i * (stop - start) / (num - 1)]. *)
Lemma nth_linspace (start stop : Q) (k i : nat) :
  (i <= k)%nat ->
  (linspace start stop (S (S k))).[i] ==
  inject_Z (Z.of_nat i) * ((stop - start) / inject_Z (Z.of_nat (S k))) + start.
Proof.
  intros Hi; unfold linspace; destruct (Nat.eq_dec i (S k)) as [->|]; [lia|].
  rewrite app_nth1 by (rewrite length_map, length_seq; lia).
  rewrite (nth_map_lt _ _ 0%nat) by (rewrite length_seq; lia).
  rewrite seq_nth by lia; reflexivity.
Qed.

Lemma linspace_last (start stop : Q) (k : nat) :
  (linspace start stop (S (S k))).[S k] = stop.
Proof.
  unfold linspace; rewrite app_nth2 by (rewrite length_map, length_seq; lia).
  rewrite length_map, length_seq, Nat.sub_diag; reflexivity.
Qed.

Lemma linspace_first (start stop : Q) (k : nat) :
  (linspace start stop (S (S k))).[0] == start.
Proof. rewrite nth_linspace by lia; simpl; ring. Qed.

Lemma last_linspace (start stop d : Q) (k : nat) :
  last (linspace start stop (S (S k))) d = stop.
Proof. unfold linspace; apply last_last. Qed.

Lemma inject_Z_S (n : nat) : inject_Z (Z.of_nat (S n)) == inject_Z (Z.of_nat n) + 1.
Proof. rewrite Nat2Z.inj_succ, <- Z.add_1_r, inject_Z_plus; reflexivity. Qed.

Lemma inject_Z_nat_nonneg (n : nat) : 0 <= inject_Z (Z.of_nat n).
Proof. unfold Qle; simpl; lia. Qed.

(** A grid from [start] to [stop > start] with at least two points is
    strictly increasing. *)
Lemma linspace_increasing (start stop : Q) (k : nat) :
  start < stop -> is_increasing (linspace start stop (S (S k))) = true.
Proof.
  intros Hlt; apply sorted_by_nth; intros i Hi; rewrite length_linspace in Hi.
  apply Qltb_iff.
  set (step := (stop - start) / inject_Z (Z.of_nat (S k))).
  assert (Hk : 0 < inject_Z (Z.of_nat (S k))) by (unfold Qlt; simpl; lia).
  assert (Hs : inject_Z (Z.of_nat (S k)) * step == stop - start)
    by (subst step; field; intros E; rewrite E in Hk; discriminate).
  assert (Hpos : 0 < step) by (apply Qlt_shift_div_l; lra).
  rewrite nth_linspace by lia.
  destruct (Nat.eq_dec i k) as [->|Hne].
  - rewrite linspace_last; fold step; rewrite inject_Z_S in Hs; nra.
  - rewrite nth_linspace by lia; fold step; rewrite (inject_Z_S i); nra.
Qed.

(** Every point of a grid from [start <= stop] lies in [start, stop]. *)
Lemma linspace_bounds (start stop : Q) (num : nat) :
  start <= stop -> Forall (fun x => start <= x <= stop) (linspace start stop num).
Proof.
  intros Hle; destruct num as [|[|k]]; [constructor | repeat constructor; lra|].
  apply Forall_nth_Q_iff; intros i Hi; rewrite length_linspace in Hi.
  destruct (Nat.eq_dec i (S k)) as [->|Hne]; [rewrite linspace_last; lra|].
  rewrite nth_linspace by lia.
  set (step := (stop - start) / inject_Z (Z.of_nat (S k))).
  assert (Hk : 0 < inject_Z (Z.of_nat (S k))) by (unfold Qlt; simpl; lia).
  assert (Hs : inject_Z (Z.of_nat (S k)) * step == stop - start)
    by (subst step; field; intros E; rewrite E in Hk; discriminate).
  assert (Hpos : 0 <= step) by (apply Qle_shift_div_l; lra).
  assert (Hi' : inject_Z (Z.of_nat i) + 1 <= inject_Z (Z.of_nat (S k))).
  { rewrite <- inject_Z_S; rewrite <- Zle_Qle; lia. }
  pose proof (inject_Z_nat_nonneg i). nra.
Qed.
