(* ===== verification/RobustStats.v ===== *)
(** * RobustStats: [utils.robust_mad] and [utils.filter_outliers_within_span]

    [robust_mad] is the dispersion estimate the BEA stage floors into
    [tau_scale] and the fallback prior width; [filter_outliers_within_span]
    is the outlier filter [bea.fit_bea_for_ash] applies first.  Both are
    pure.  NaN is [None]: the median of an empty array is NaN, every
    comparison with NaN is [False], so a NaN median keeps no point and a
    NaN MAD falls through to [np.std]. *)

From S2P Require Import Prelude NpSort NpArray.

Module RobustStats.

(** ** Definitions *)

(** [utils.robust_mad(x)]:
    [1.4826 * mad if mad > 0 else float(np.std(x))]. *)
Definition robust_mad `{SqrtModel} (x : list Q) : option Q :=
  match median x with
  | None => std x
  | Some med =>
      match median (map (fun v => Qabs (v - med)) x) with
      | Some mad => if Qltb 0 mad then Some ((14826 # 10000) * mad) else std x
      | None => std x
      end
  end.

(** The mask of [filter_outliers_within_span] for one age:
    [(ages >= med - half) & (ages <= med + half)] in IEEE arithmetic:
    false against a NaN median or half; an infinite [half] makes the band
    everything ([+inf]) or nothing ([-inf]: [med + half] is [-inf]). *)
Definition in_band (med : option Q) (half : PyFloat) (a : Q) : bool :=
  match med, half with
  | Some m, Fin h => Qle_bool (m - h) a && Qle_bool a (m + h)
  | Some _, Inf false => true
  | _, _ => false
  end.

(** Boolean-mask indexing [xs[mask]] for a mask of the same length. *)
Definition mask_select {A : Type} (xs : list A) (mask : list bool) : list A :=
  map fst (filter snd (combine xs mask)).

(** [utils.filter_outliers_within_span(ages, sigmas, max_span_ma)].
    [sigmas[mask]] raises [IndexError] when [sigmas] and the mask (of the
    length of [ages]) differ in length. *)
Definition filter_outliers_within_span (ages sigmas : list Q) (max_span_ma : PyFloat)
  : result (list Q * list Q) :=
  let med := median ages in
  let half := float_half max_span_ma in
  let mask := map (in_band med half) ages in
  if Nat.eqb (length sigmas) (length mask)
  then Ok (mask_select ages mask, mask_select sigmas mask)
  else Err (IndexError "boolean index did not match indexed array").

(** ** Lemmas *)

Lemma mask_select_map_band {A : Type} (p : Q -> bool) (ages : list Q) (xs : list A) :
  length xs = length ages ->
  mask_select xs (map p ages) = map snd (filter (fun q => p (fst q)) (combine ages xs)).
Proof.
  unfold mask_select; revert xs; induction ages as [|a ages IH]; intros [|x xs] Hl;
    simpl in *; try lia; auto.
  destruct (p a); simpl; rewrite IH by lia; reflexivity.
Qed.

Lemma map_fst_filter_combine (p : Q -> bool) (ages sigmas : list Q) :
  length ages = length sigmas ->
  map fst (filter (fun q => p (fst q)) (combine ages sigmas)) = filter p ages.
Proof.
  revert sigmas; induction ages as [|a ages IH]; intros [|s sigmas] Hl;
    simpl in *; try lia; auto.
  destruct (p a); simpl; rewrite IH by lia; reflexivity.
Qed.

Lemma mask_select_self (p : Q -> bool) (ages : list Q) :
  mask_select ages (map p ages) = filter p ages.
Proof. induction ages as [|a ages IH]; unfold mask_select in *; simpl; auto.
  destruct (p a); simpl; rewrite IH; reflexivity.
Qed.

(** Unfolding the filter on arrays of equal length. *)
Lemma filter_outliers_lengths (ages sigmas ages' sigmas' : list Q) (span : PyFloat) :
  filter_outliers_within_span ages sigmas span = Ok (ages', sigmas') ->
  length ages = length sigmas /\ (length ages' <= length ages)%nat /\
  length ages' = length sigmas'.
Proof.
  unfold filter_outliers_within_span; rewrite length_map.
  destruct (Nat.eqb_spec (length sigmas) (length ages)) as [Hl|]; [|discriminate].
  intros E; injection E as <- <-.
  rewrite mask_select_self, mask_select_map_band by lia.
  split; [lia|]. split; [apply filter_length_le|].
  rewrite length_map, <- (map_fst_filter_combine _ ages sigmas) by lia; apply length_map.
Qed.

Lemma filter_outliers_ok (ages sigmas : list Q) (span : PyFloat) :
  length ages = length sigmas ->
  filter_outliers_within_span ages sigmas span =
  Ok (filter (in_band (median ages) (float_half span)) ages,
      map snd (filter (fun q => in_band (median ages) (float_half span) (fst q))
                      (combine ages sigmas))).
Proof.
  intros Hl; unfold filter_outliers_within_span.
  rewrite length_map, Hl, Nat.eqb_refl, mask_select_self, mask_select_map_band by lia.
  reflexivity.
Qed.

Lemma in_band_spec (med : option Q) (half a : Q) :
  in_band med (Fin half) a = true <-> exists m, med = Some m /\ m - half <= a <= m + half.
Proof.
  destruct med as [m|]; simpl.
  - rewrite andb_true_iff, !Qle_bool_iff; split; [eauto | intros (m' & E & H); congruence].
  - split; [discriminate | intros (m' & E & _); discriminate].
Qed.

(** ** Theorems *)

(** C28: on arrays of equal length with median [m], a finite
    [max_span_ma] makes [filter_outliers_within_span] keep exactly the
    (age, sigma) pairs with [m - max_span_ma/2 <= age <= m + max_span_ma/2],
    in their original order, each sigma still beside its own age. *)
Theorem filter_outliers_pairs (ages sigmas : list Q) (span m : Q) :
  length ages = length sigmas -> median ages = Some m ->
  exists ages' sigmas',
    filter_outliers_within_span ages sigmas (Fin span) = Ok (ages', sigmas') /\
    combine ages' sigmas' =
      filter (fun q => Qle_bool (m - span / 2) (fst q) && Qle_bool (fst q) (m + span / 2))
             (combine ages sigmas) /\
    length ages' = length sigmas'.
Proof.
  intros Hl Hm; rewrite filter_outliers_ok by exact Hl.
  eexists _, _; split; [reflexivity|].
  rewrite <- (map_fst_filter_combine _ ages sigmas Hl), Hm.
  set (ps := filter _ _). split.
  - clear; induction ps as [|[a s] ps IH]; simpl; [reflexivity|]; rewrite IH; reflexivity.
  - rewrite !length_map; reflexivity.
Qed.

Lemma filter_outliers_pairs_witness :
  length [2; 3; 10] = length [1#10; 1#10; 1#10] /\ median [2; 3; 10] = Some 3 /\
  exists ages' sigmas',
    filter_outliers_within_span [2; 3; 10] [1#10; 1#10; 1#10] (Fin 2) = Ok (ages', sigmas') /\
    combine ages' sigmas' =
      filter (fun q => Qle_bool (3 - 2 / 2) (fst q) && Qle_bool (fst q) (3 + 2 / 2))
             (combine [2; 3; 10] [1#10; 1#10; 1#10]) /\
    length ages' = length sigmas'.
Proof. split; [reflexivity|]; split; [reflexivity|]. apply filter_outliers_pairs; reflexivity. Defined.

(** C8: every age [filter_outliers_within_span] returns lies within
    [max_span/2] of the median of the input ages, and it never returns
    more points than it was given. *)
Theorem filter_outliers_within_half_span (ages sigmas ages' sigmas' : list Q) (span : Q) :
  filter_outliers_within_span ages sigmas (Fin span) = Ok (ages', sigmas') ->
  (length ages' <= length ages)%nat /\
  Forall (fun a => exists m, median ages = Some m /\ Qabs (a - m) <= span / 2) ages'.
Proof.
  unfold filter_outliers_within_span.
  destruct (Nat.eqb _ _); [|discriminate]; intros E; injection E as <- _.
  rewrite mask_select_self; split; [apply filter_length_le|].
  apply Forall_forall; intros a Ha; apply filter_In in Ha as [_ Ha].
  apply in_band_spec in Ha as (m & Em & Hm); exists m; split; [exact Em|].
  apply Qabs_diff_Qle_condition; lra.
Qed.

Lemma filter_outliers_within_half_span_witness :
  filter_outliers_within_span [2; 3; 10] [1; 1; 1] (Fin 2) = Ok ([2; 3], [1; 1]) /\
  (length [2; 3] <= length [2; 3; 10])%nat /\
  Forall (fun a => exists m, median [2; 3; 10] = Some m /\ Qabs (a - m) <= 2 / 2) [2; 3].
Proof.
  assert (E : filter_outliers_within_span [2; 3; 10] [1; 1; 1] (Fin 2) = Ok ([2; 3], [1; 1]))
    by reflexivity.
  split; [exact E|]. exact (filter_outliers_within_half_span _ _ _ _ _ E).
Defined.

(** when [sigmas] and [ages] differ in length the boolean mask of
    [ages] does not fit [sigmas] and numpy raises [IndexError]; nothing is
    filtered. *)
Theorem filter_outliers_length_mismatch (ages sigmas : list Q) (span : PyFloat) :
  length ages <> length sigmas ->
  exists msg, filter_outliers_within_span ages sigmas span = Err (IndexError msg).
Proof.
  intros Hl; unfold filter_outliers_within_span; rewrite length_map.
  destruct (Nat.eqb_spec (length sigmas) (length ages)); [congruence|]. eauto.
Qed.

Lemma filter_outliers_length_mismatch_witness :
  length [1; 2] <> length [1#10] /\
  exists msg, filter_outliers_within_span [1; 2] [1#10] (Fin 1) = Err (IndexError msg).
Proof. split; [discriminate|]. apply filter_outliers_length_mismatch; discriminate. Defined.

(** C29: a negative [max_span_ma] is not rejected: the band
    [med - half, med + half] is empty and every point is dropped. *)
Theorem filter_outliers_negative_span (ages sigmas : list Q) (span : Q) :
  length ages = length sigmas -> span < 0 ->
  filter_outliers_within_span ages sigmas (Fin span) = Ok ([], []).
Proof.
  intros Hl Hs; rewrite filter_outliers_ok by exact Hl.
  assert (Hb : forall a, in_band (median ages) (Fin (span / 2)) a = false).
  { intros a; apply not_true_iff_false; rewrite in_band_spec; intros (m & _ & H).
    assert (span / 2 < 0) by (apply Qlt_shift_div_r; lra). lra. }
  rewrite !filter_all_false; [reflexivity | intros q; apply Hb | exact Hb].
Qed.

Lemma filter_outliers_negative_span_witness :
  length [2; 3] = length [1; 1] /\ -1 < 0 /\
  filter_outliers_within_span [2; 3] [1; 1] (Fin (-1)) = Ok ([], []).
Proof.
  split; [reflexivity|]. split; [reflexivity|].
  apply filter_outliers_negative_span; reflexivity.
Defined.

(** ** [robust_mad] *)

Lemma sort_repeat (c : Q) (n : nat) : sort (repeat c n) = repeat c n.
Proof.
  induction n as [|n IH]; simpl; [reflexivity|]. rewrite IH.
  destruct n; simpl; [reflexivity|]. rewrite (proj2 (Qle_bool_iff c c) (Qle_refl c)); reflexivity.
Qed.

Lemma median_repeat (c : Q) (n : nat) : median (repeat c (S n)) =o= Some c.
Proof.
  unfold median, middle; rewrite sort_repeat, repeat_length.
  assert (Hk : (Nat.div (S n) 2 < S n)%nat) by (apply Nat.div_lt; lia).
  rewrite !nth_repeat_lt by lia.
  destruct (Nat.odd (S n)); cbn -[Qeq Qdiv Qplus]; [reflexivity | field].
Qed.

Lemma qsum_repeat (c : Q) (n : nat) : qsum (repeat c n) == inject_Z (Z.of_nat n) * c.
Proof.
  induction n as [|n IH]; [symmetry; apply Qmult_0_l|].
  change (qsum (repeat c (S n))) with (c + qsum (repeat c n)).
  rewrite IH, Nat2Z.inj_succ, <- Z.add_1_r, inject_Z_plus; ring.
Qed.

Lemma mean_repeat (c : Q) (n : nat) : mean (repeat c (S n)) =o= Some c.
Proof.
  unfold mean; rewrite repeat_length; cbn [oQeq].
  rewrite qsum_repeat; field.
  unfold Qeq; simpl; lia.
Qed.

Section Mad.
Context `{SqrtModel}.

Lemma std_repeat (c : Q) (n : nat) : std (repeat c (S n)) =o= Some 0.
Proof.
  unfold std. pose proof (mean_repeat c n) as Hm.
  destruct (mean (repeat c (S n))) as [m|]; simpl in Hm; [|contradiction].
  rewrite map_repeat.
  pose proof (mean_repeat ((c - m) * (c - m)) n) as Hv.
  destruct (mean (repeat _ (S n))) as [w|]; simpl in Hv |- *; [|contradiction].
  rewrite <- qsqrt_0; apply qsqrt_proper. rewrite Hv, Hm; ring.
Qed.

(** [robust_mad] of a non-empty array is a number, not NaN. *)
Lemma robust_mad_not_nan (x : list Q) : x <> [] -> exists s, robust_mad x = Some s.
Proof.
  intros Hx; unfold robust_mad.
  destruct (median x) as [med|] eqn:Em; [|apply median_None in Em; contradiction].
  destruct (std x) as [sd|] eqn:Es; [|apply std_None in Es; contradiction].
  destruct (median (map _ x)); [destruct (Qltb 0 _)|]; eauto.
Qed.

(** for every non-empty array [robust_mad] returns a number (no NaN)
    and that number is non-negative. *)
Theorem robust_mad_nonneg (x : list Q) :
  x <> [] -> exists s, robust_mad x = Some s /\ 0 <= s.
Proof.
  intros Hx; unfold robust_mad.
  destruct (median x) as [med|] eqn:Em; [|apply median_None in Em; contradiction].
  destruct (std x) as [sd|] eqn:Es; [|apply std_None in Es; contradiction].
  assert (Hsd : 0 <= sd) by (eapply std_nonneg; eauto).
  destruct (median (map _ x)) as [mad|]; [|eauto].
  destruct (Qltb 0 mad) eqn:Ep; [|eauto].
  apply Qltb_iff in Ep; eexists; split; [reflexivity|].
  apply Qmult_le_0_compat; [unfold Qle; simpl; lia | lra].
Qed.


(** [robust_mad] does not depend on the order of the grain ages:
    permuting the input gives the same value (up to [==]). *)
Theorem robust_mad_permutation (x y : list Q) :
  Permutation x y -> robust_mad x =o= robust_mad y.
Proof.
  intros Hp; unfold robust_mad.
  pose proof (median_permutation x y Hp) as Hm.
  pose proof (std_permutation x y Hp) as Hs.
  destruct (median x) as [mx|], (median y) as [my|]; simpl in Hm; try tauto.
  assert (Hmad : median (map (fun v => Qabs (v - mx)) x)
                 =o= median (map (fun v => Qabs (v - my)) y)).
  { transitivity (median (map (fun v => Qabs (v - mx)) y)).
    - apply median_permutation, Permutation_map, Hp.
    - apply median_proper, Forall2_map_Qeq; [|reflexivity].
      intros a b Hab; rewrite Hab, Hm; reflexivity. }
  destruct (median (map _ x)) as [ax|], (median (map _ y)) as [ay|];
    simpl in Hmad; try tauto.
  assert (Qltb 0 ax = Qltb 0 ay) as -> by (rewrite Hmad; reflexivity).
  destruct (Qltb 0 ay); [simpl; rewrite Hmad; reflexivity | exact Hs].
Qed.


(** C27: on an array whose values are all equal, the MAD is [0] and the
    [np.std] fallback is [0] as well: [robust_mad] returns [0], not a
    positive scale. *)
Theorem robust_mad_constant (c : Q) (n : nat) :
  robust_mad (repeat c (S n)) =o= Some 0.
Proof.
  unfold robust_mad. pose proof (median_repeat c n) as Hm.
  destruct (median (repeat c (S n))) as [m|]; cbn [oQeq] in Hm; [|contradiction].
  rewrite map_repeat. pose proof (median_repeat (Qabs (c - m)) n) as Hmad.
  destruct (median (repeat _ (S n))) as [mad|]; cbn [oQeq] in Hmad; [|contradiction].
  assert (Hz : mad == 0) by (rewrite Hmad, Hm; unfold Qminus; rewrite Qplus_opp_r; reflexivity).
  assert (Qltb 0 mad = false) as -> by (rewrite Hz; reflexivity).
  apply std_repeat.
Qed.
End Mad.

Lemma robust_mad_nonneg_witness :
  [2; 2; 3] <> [] /\ exists s, robust_mad [2; 2; 3] = Some s /\ 0 <= s.
Proof. split; [discriminate|]. apply robust_mad_nonneg; discriminate. Defined.

Lemma robust_mad_permutation_witness :
  Permutation [1; 2; 4] [4; 1; 2] /\ robust_mad [1; 2; 4] =o= robust_mad [4; 1; 2].
Proof.
  assert (Hp : Permutation [1; 2; 4] [4; 1; 2])
    by (symmetry; exact (Permutation_cons_append [1; 2] 4)).
  split; [exact Hp | exact (robust_mad_permutation _ _ Hp)].
Defined.

End RobustStats.
