(* ===== verification/Piecewise.v ===== *)
(** * PiecewiseAgeInterpolator: [bad._piecewise_age_one_draw]

    One posterior draw of the BAD model gives tie depths [d_tie]
    (strictly increasing: PyMC's ordered transform), a base age [age0] and
    one sedimentation rate per segment.  The tie ages are
    [age0 + cumsum(rates * diff(d_tie))]; a query depth is placed in the
    segment [searchsorted(d_tie, q, side="right") - 1], clamped to
    [0 .. K-2], and its age is read off that segment's line.

    The model covers the shapes [fit_bad] produces ([K >= 2] tie depths,
    [K - 1] rates, the [well_shaped] test); numpy's broadcasting of other
    shapes is not modelled.  Indices are numpy's: [Z] for the [- 1] and
    the clamp, [nat] once clamped. *)

From S2P Require Import Prelude NpSort NpArray.

Module Piecewise.

(** ** Definitions ([bad.py], lines 17-26) *)

(** [age_tie[0] = age0; age_tie[1:] = age0 + np.cumsum(rates * seg_len)]
    with [seg_len = np.diff(d_tie)]. *)
Definition tie_ages (d_tie : list Q) (age0 : Q) (rates : list Q) : list Q :=
  let seg_len := diff d_tie in
  age0 :: map (fun c => age0 + c) (cumsum (vmul rates seg_len)).

(** [idx = np.clip(np.searchsorted(d_tie, q, side="right") - 1, 0, len(d_tie) - 2)] *)
Definition segment_index (d_tie : list Q) (q : Q) : nat :=
  Z.to_nat (clip (Z.of_nat (searchsorted_right d_tie q) - 1) 0
                 (Z.of_nat (length d_tie) - 2)).

(** [age_tie[idx] + rates[idx] * (q - d_tie[idx])] for one query depth. *)
Definition age_at (d_tie age_tie rates : list Q) (q : Q) : Q :=
  let i := segment_index d_tie q in
  age_tie.[i] + rates.[i] * (q - d_tie.[i]).

(** [_piecewise_age_one_draw(d_tie, age0, rates, d_query)] *)
Definition _piecewise_age_one_draw (d_tie : list Q) (age0 : Q) (rates d_query : list Q)
  : list Q :=
  let age_tie := tie_ages d_tie age0 rates in
  map (age_at d_tie age_tie rates) d_query.

(** The shapes [fit_bad] passes: at least two ties and one rate per segment. *)
Definition well_shaped (d_tie rates : list Q) : bool :=
  Nat.leb 2 (length d_tie) && Nat.eqb (length rates) (Nat.pred (length d_tie)).

(** All rates positive (LogNormal draws), or non-negative. *)
Definition all_pos (rates : list Q) : bool := forallb (Qltb 0) rates.
Definition all_nonneg (rates : list Q) : bool := forallb (Qle_bool 0) rates.

(** ** Tie ages *)

Lemma qsum_firstn_S (l : list Q) (k : nat) :
  (k < length l)%nat -> qsum (firstn (S k) l) == qsum (firstn k l) + l.[k].
Proof.
  revert k; induction l as [|x l IH]; intros [|k] Hk; simpl in Hk; try lia.
  - simpl; lra.
  - change (qsum (firstn (S (S k)) (x :: l))) with (x + qsum (firstn (S k) l)).
    change (qsum (firstn (S k) (x :: l))) with (x + qsum (firstn k l)).
    rewrite IH by lia; simpl; lra.
Qed.

Section Shapes.
Variables (d_tie rates : list Q) (age0 : Q).
Hypothesis Hshape : well_shaped d_tie rates = true.

Let K := length d_tie.

Lemma shape_facts : (2 <= K)%nat /\ length rates = Nat.pred K.
Proof.
  unfold well_shaped in Hshape; apply andb_prop in Hshape as [H1 H2].
  apply Nat.leb_le in H1; apply Nat.eqb_eq in H2; split; assumption.
Qed.

Lemma length_vmul_seg : length (vmul rates (diff d_tie)) = Nat.pred K.
Proof.
  destruct shape_facts as [_ Hr]; rewrite length_vmul, length_diff, Hr; apply Nat.min_id.
Qed.

Lemma tie_ages_length : length (tie_ages d_tie age0 rates) = K.
Proof.
  unfold tie_ages, cumsum; simpl; rewrite length_map, length_cumsum_from, length_vmul_seg.
  destruct shape_facts; lia.
Qed.

(** Closed form: the tie age [k] is [age0] plus the first [k] segment
    increments. *)
Lemma tie_ages_nth (k : nat) :
  (k < K)%nat ->
  (tie_ages d_tie age0 rates).[k] == age0 + qsum (firstn k (vmul rates (diff d_tie))).
Proof.
  intros Hk; destruct k as [|k]; [simpl; lra|].
  unfold tie_ages; cbn [nth].
  assert (Hk' : (k < length (cumsum (vmul rates (diff d_tie))))%nat)
    by (unfold cumsum; rewrite length_cumsum_from, length_vmul_seg; lia).
  rewrite (nth_indep _ _ (age0 + 0)) by (rewrite length_map; exact Hk').
  rewrite map_nth; unfold cumsum; rewrite nth_cumsum_from by (rewrite length_vmul_seg; lia).
  lra.
Qed.

(** One segment further down, the tie age grows by rate times length. *)
Lemma tie_ages_step (k : nat) :
  (S k < K)%nat ->
  (tie_ages d_tie age0 rates).[S k] ==
  (tie_ages d_tie age0 rates).[k] + rates.[k] * (d_tie.[S k] - d_tie.[k]).
Proof.
  intros Hk; destruct shape_facts as [_ Hr].
  rewrite !tie_ages_nth by lia.
  rewrite qsum_firstn_S by (rewrite length_vmul_seg; lia).
  rewrite nth_vmul, nth_diff by (try rewrite length_diff; lia). lra.
Qed.

Lemma tie_ages_mono (i j : nat) :
  all_nonneg rates = true -> is_sorted d_tie = true -> (i <= j < K)%nat ->
  (tie_ages d_tie age0 rates).[i] <= (tie_ages d_tie age0 rates).[j].
Proof.
  intros Hr Hd Hij; destruct shape_facts as [_ HlR].
  induction j as [|j IH]; [replace i with 0%nat by lia; lra|].
  destruct (Nat.eq_dec i (S j)) as [->|Hne]; [lra|].
  rewrite tie_ages_step by lia.
  assert (0 <= rates.[j]).
  { unfold all_nonneg in Hr; rewrite forallb_forall in Hr.
    apply Qle_bool_iff, Hr, nth_In; lia. }
  assert (d_tie.[j] <= d_tie.[S j]) by (apply is_sorted_nth; [exact Hd | lia]).
  assert (0 <= rates.[j] * (d_tie.[S j] - d_tie.[j])) by (apply Qmult_le_0_compat; lra).
  specialize (IH ltac:(lia)); lra.
Qed.
End Shapes.

(** ** Segment lookup *)

Section Segments.
Variables (d_tie rates : list Q) (age0 : Q).
Hypothesis Hshape : well_shaped d_tie rates = true.
Hypothesis Hinc : is_increasing d_tie = true.

Let K := length d_tie.
Let age_tie := tie_ages d_tie age0 rates.

(** The clamp in natural numbers: [min (s - 1) (K - 2)], and [0] when
    [s = 0]. *)
Lemma segment_index_eq (q : Q) :
  segment_index d_tie q = Nat.min (Nat.pred (searchsorted_right d_tie q)) (K - 2).
Proof.
  destruct (shape_facts d_tie rates Hshape) as [HK _].
  unfold segment_index, clip; fold K; lia.
Qed.

(** The segment [i] found for [q]: [i <= K - 2]; unless [i = 0], the
    segment starts at or above [q]; unless [i = K - 2], it ends below
    [q]. *)
Lemma segment_index_facts (q : Q) :
  (segment_index d_tie q <= K - 2)%nat /\
  ((0 < segment_index d_tie q)%nat -> d_tie.[segment_index d_tie q] <= q) /\
  ((segment_index d_tie q < K - 2)%nat -> q < d_tie.[S (segment_index d_tie q)]).
Proof.
  destruct (shape_facts d_tie rates Hshape) as [HK _].
  destruct (searchsorted_right_spec d_tie q (is_increasing_sorted _ Hinc)) as (Hs & Hlo & Hhi).
  rewrite segment_index_eq; fold K in Hs, Hhi |- *.
  split; [lia|]. split; intros Hi; [apply Hlo | apply Hhi]; lia.
Qed.

Lemma segment_index_mono (q1 q2 : Q) :
  q1 <= q2 -> (segment_index d_tie q1 <= segment_index d_tie q2)%nat.
Proof.
  intros Hq; rewrite !segment_index_eq.
  rewrite !searchsorted_right_count by apply (is_increasing_sorted _ Hinc).
  pose proof (count_le_mono d_tie q1 q2 Hq); lia.
Qed.

(** Evaluated at a tie depth, the lookup returns that tie's segment, or
    the segment before it for the deepest tie. *)
Lemma segment_index_at_tie (k : nat) :
  (k < K)%nat ->
  segment_index d_tie d_tie.[k] = k \/ S (segment_index d_tie d_tie.[k]) = k.
Proof.
  intros Hk; destruct (segment_index_facts d_tie.[k]) as (H1 & H2 & H3).
  set (i := segment_index d_tie d_tie.[k]) in *.
  assert (Hik : (i <= k)%nat).
  { destruct (Nat.le_gt_cases i k) as [|Hki]; [assumption|].
    assert (d_tie.[k] < d_tie.[i]) by (apply is_increasing_nth; [exact Hinc | lia]).
    specialize (H2 ltac:(lia)); lra. }
  assert (Hki : (k <= S i)%nat).
  { destruct (Nat.lt_ge_cases i (K - 2)) as [Hi|Hi]; [|lia].
    specialize (H3 Hi).
    destruct (Nat.le_gt_cases k (S i)) as [|Hgt]; [assumption|].
    assert (d_tie.[S i] < d_tie.[k]) by (apply is_increasing_nth; [exact Hinc | lia]).
    lra. }
  lia.
Qed.

Lemma rate_nonneg (j : nat) :
  all_nonneg rates = true -> (j < K - 1)%nat -> 0 <= rates.[j].
Proof.
  destruct (shape_facts d_tie rates Hshape) as [_ Hr].
  unfold all_nonneg; rewrite forallb_forall; intros H Hj.
  apply Qle_bool_iff, H, nth_In; lia.
Qed.

Lemma rate_pos (j : nat) :
  all_pos rates = true -> (j < K - 1)%nat -> 0 < rates.[j].
Proof.
  destruct (shape_facts d_tie rates Hshape) as [_ Hr].
  unfold all_pos; rewrite forallb_forall; intros H Hj.
  apply Qltb_iff, H, nth_In; lia.
Qed.

Lemma all_pos_nonneg : all_pos rates = true -> all_nonneg rates = true.
Proof.
  unfold all_pos, all_nonneg; rewrite !forallb_forall; intros H x Hx.
  apply Qle_bool_iff, Qlt_le_weak, Qltb_iff, H, Hx.
Qed.

(** The same age read from the end of the segment. *)
Lemma age_at_from_end (q : Q) :
  age_at d_tie age_tie rates q ==
  age_tie.[S (segment_index d_tie q)] +
  rates.[segment_index d_tie q] * (q - d_tie.[S (segment_index d_tie q)]).
Proof.
  destruct (segment_index_facts q) as (H1 & _).
  destruct (shape_facts d_tie rates Hshape) as [HK _].
  unfold age_at; subst age_tie; rewrite tie_ages_step by (auto; fold K; lia). ring.
Qed.
(** At a tie depth the interpolated age is that tie's age. *)
Lemma age_at_tie (k : nat) :
  (k < K)%nat -> age_at d_tie age_tie rates d_tie.[k] == age_tie.[k].
Proof.
  intros Hk; destruct (segment_index_at_tie k Hk) as [E|E].
  - unfold age_at; rewrite E; ring.
  - rewrite age_at_from_end, E; ring.
Qed.

Lemma age_at_mono (q1 q2 : Q) :
  all_nonneg rates = true -> q1 <= q2 ->
  age_at d_tie age_tie rates q1 <= age_at d_tie age_tie rates q2.
Proof.
  intros Hr Hq; pose proof (segment_index_mono q1 q2 Hq) as Hi.
  destruct (shape_facts d_tie rates Hshape) as [HK _]; fold K in HK.
  destruct (segment_index_facts q1) as (A1 & _ & C1).
  destruct (segment_index_facts q2) as (A2 & B2 & _).
  set (i1 := segment_index d_tie q1) in *; set (i2 := segment_index d_tie q2) in *.
  destruct (Nat.eq_dec i1 i2) as [E|Hne].
  - unfold age_at; fold i1 i2; rewrite <- E.
    pose proof (rate_nonneg i1 Hr ltac:(fold K; lia)). nra.
  - rewrite (age_at_from_end q1); fold i1.
    assert (Hstep : age_tie.[S i1] <= age_tie.[i2])
      by (apply tie_ages_mono; auto; [apply is_increasing_sorted, Hinc | fold K; lia]).
    specialize (C1 ltac:(lia)); specialize (B2 ltac:(lia)).
    pose proof (rate_nonneg i1 Hr ltac:(fold K; lia)).
    pose proof (rate_nonneg i2 Hr ltac:(fold K; lia)).
    unfold age_at; fold i2; nra.
Qed.

Lemma age_at_strict_mono (q1 q2 : Q) :
  all_pos rates = true -> q1 < q2 ->
  age_at d_tie age_tie rates q1 < age_at d_tie age_tie rates q2.
Proof.
  intros Hr Hq; pose proof (segment_index_mono q1 q2 (Qlt_le_weak _ _ Hq)) as Hi.
  destruct (shape_facts d_tie rates Hshape) as [HK _]; fold K in HK.
  destruct (segment_index_facts q1) as (A1 & _ & C1).
  destruct (segment_index_facts q2) as (A2 & B2 & _).
  set (i1 := segment_index d_tie q1) in *; set (i2 := segment_index d_tie q2) in *.
  destruct (Nat.eq_dec i1 i2) as [E|Hne].
  - unfold age_at; fold i1 i2; rewrite <- E.
    pose proof (rate_pos i1 Hr ltac:(fold K; lia)). nra.
  - rewrite (age_at_from_end q1); fold i1.
    assert (Hstep : age_tie.[S i1] <= age_tie.[i2])
      by (apply tie_ages_mono; auto using all_pos_nonneg;
          [apply is_increasing_sorted, Hinc | fold K; lia]).
    specialize (C1 ltac:(lia)); specialize (B2 ltac:(lia)).
    pose proof (rate_pos i1 Hr ltac:(fold K; lia)).
    pose proof (rate_pos i2 Hr ltac:(fold K; lia)).
    unfold age_at; fold i2; nra.
Qed.

(** With positive rates the tie ages strictly increase with depth. *)
Lemma tie_ages_strict_mono (i j : nat) :
  all_pos rates = true -> (i < j < K)%nat -> age_tie.[i] < age_tie.[j].
Proof.
  intros Hr Hij; rewrite <- (age_at_tie i), <- (age_at_tie j) by lia.
  apply age_at_strict_mono; [exact Hr|]. apply is_increasing_nth; [exact Hinc | fold K; lia].
Qed.
End Segments.

(** ** Theorems *)

(** C2: evaluated at its own tie depths, [_piecewise_age_one_draw]
    reproduces the tie ages [age0 + cumsum(rates * diff(d_tie))] of the
    same draw (the spec's "a query depth equal to a tie depth reproduces
    that tie point's derived age"), the deepest tie included although the
    lookup clamps it into the last segment. *)
Theorem piecewise_at_ties (d_tie rates : list Q) (age0 : Q) :
  well_shaped d_tie rates = true -> is_increasing d_tie = true ->
  _piecewise_age_one_draw d_tie age0 rates d_tie =l= tie_ages d_tie age0 rates.
Proof.
  intros Hs Hi; unfold _piecewise_age_one_draw.
  apply Forall2_Qeq_nth; [rewrite length_map, tie_ages_length; auto|].
  intros k Hk; rewrite length_map in Hk; rewrite nth_map_Q by exact Hk.
  apply age_at_tie; assumption.
Qed.

Lemma piecewise_at_ties_witness :
  well_shaped [10; 20; 40] [1#10; 1#20] = true /\ is_increasing [10; 20; 40] = true /\
  _piecewise_age_one_draw [10; 20; 40] 2 [1#10; 1#20] [10; 20; 40]
    =l= tie_ages [10; 20; 40] 2 [1#10; 1#20].
Proof.
  split; [reflexivity|]. split; [reflexivity|].
  apply piecewise_at_ties; reflexivity.
Defined.

(** C3: when every sedimentation rate is positive, the interpolated age
    is strictly increasing in depth: increasing query depths give
    increasing ages, across segment boundaries and in the extrapolated
    parts above the first and below the last tie. *)
Theorem piecewise_increasing (d_tie rates d_query : list Q) (age0 : Q) :
  well_shaped d_tie rates = true -> is_increasing d_tie = true ->
  all_pos rates = true -> is_increasing d_query = true ->
  is_increasing (_piecewise_age_one_draw d_tie age0 rates d_query) = true.
Proof.
  intros Hs Hi Hr; apply sorted_by_map; intros x y Hxy.
  apply Qltb_iff, age_at_strict_mono; auto. apply Qltb_iff, Hxy.
Qed.

Lemma piecewise_increasing_witness :
  well_shaped [10; 20] [1#10] = true /\ is_increasing [10; 20] = true /\
  all_pos [1#10] = true /\ is_increasing [0; 15; 25] = true /\
  is_increasing (_piecewise_age_one_draw [10; 20] 2 [1#10] [0; 15; 25]) = true.
Proof.
  do 4 (split; [reflexivity|]). apply piecewise_increasing; reflexivity.
Defined.

(** C23: a query depth above the shallowest tie is extrapolated with the
    first segment's rate from [age0]; a query depth at or below the
    deepest tie is extrapolated with the last segment's rate from the
    deepest tie's age.  No error is raised outside the tie range. *)
Theorem piecewise_extrapolates (d_tie rates : list Q) (age0 q : Q) :
  well_shaped d_tie rates = true -> is_increasing d_tie = true ->
  (q < d_tie.[0] ->
   _piecewise_age_one_draw d_tie age0 rates [q] =l= [age0 + rates.[0] * (q - d_tie.[0])]) /\
  (d_tie.[length d_tie - 1] <= q ->
   _piecewise_age_one_draw d_tie age0 rates [q] =l=
     [(tie_ages d_tie age0 rates).[length d_tie - 1] +
      rates.[length d_tie - 2] * (q - d_tie.[length d_tie - 1])]).
Proof.
  intros Hs Hi; destruct (shape_facts d_tie rates Hs) as [HK _].
  destruct (segment_index_facts d_tie rates Hs Hi q) as (A & B & C).
  split; intros Hq; unfold _piecewise_age_one_draw; simpl map; constructor; [|constructor| |constructor].
  - assert (E : segment_index d_tie q = 0%nat).
    { destruct (segment_index d_tie q) as [|i] eqn:Ei; [reflexivity|].
      assert (d_tie.[0] <= d_tie.[S i]) by (apply is_sorted_nth; [apply is_increasing_sorted, Hi | lia]).
      specialize (B ltac:(lia)); lra. }
    unfold age_at; rewrite E; reflexivity.
  - assert (E : segment_index d_tie q = (length d_tie - 2)%nat).
    { destruct (Nat.lt_ge_cases (segment_index d_tie q) (length d_tie - 2)) as [Hlt|]; [|lia].
      assert (d_tie.[S (segment_index d_tie q)] <= d_tie.[length d_tie - 1])
        by (apply is_sorted_nth; [apply is_increasing_sorted, Hi | lia]).
      specialize (C Hlt); lra. }
    rewrite age_at_from_end, E by assumption.
    replace (S (length d_tie - 2)) with (length d_tie - 1)%nat by lia; reflexivity.
Qed.

Lemma piecewise_extrapolates_witness :
  well_shaped [10; 20] [1#10] = true /\ is_increasing [10; 20] = true /\
  (5 < [10; 20].[0] ->
   _piecewise_age_one_draw [10; 20] 2 [1#10] [5] =l= [2 + [1#10].[0] * (5 - [10; 20].[0])]) /\
  ([10; 20].[length [10; 20] - 1] <= 5 ->
   _piecewise_age_one_draw [10; 20] 2 [1#10] [5] =l=
     [(tie_ages [10; 20] 2 [1#10]).[length [10; 20] - 1] +
      [1#10].[length [10; 20] - 2] * (5 - [10; 20].[length [10; 20] - 1])]).
Proof.
  split; [reflexivity|]. split; [reflexivity|].
  apply piecewise_extrapolates; reflexivity.
Defined.

(** with non-negative rates, a query depth between two neighbouring
    tie depths gets an age between their tie ages (the spec's scenario:
    a query at 15 m between ties at 10 m and 20 m). *)
Theorem piecewise_between_ties (d_tie rates : list Q) (age0 q : Q) (k : nat) :
  well_shaped d_tie rates = true -> is_increasing d_tie = true ->
  all_nonneg rates = true -> (S k < length d_tie)%nat ->
  d_tie.[k] <= q <= d_tie.[S k] ->
  exists a, _piecewise_age_one_draw d_tie age0 rates [q] = [a] /\
    (tie_ages d_tie age0 rates).[k] <= a <= (tie_ages d_tie age0 rates).[S k].
Proof.
  intros Hs Hi Hr Hk [Hlo Hhi]; eexists; split; [reflexivity|].
  rewrite <- (age_at_tie d_tie rates age0 Hs Hi k) by lia.
  rewrite <- (age_at_tie d_tie rates age0 Hs Hi (S k)) by lia.
  split; apply age_at_mono; auto.
Qed.

Lemma piecewise_between_ties_witness :
  well_shaped [10; 20] [1#10] = true /\ is_increasing [10; 20] = true /\
  all_nonneg [1#10] = true /\ (S 0 < length [10; 20])%nat /\
  [10; 20].[0] <= 15 <= [10; 20].[S 0] /\
  exists a, _piecewise_age_one_draw [10; 20] 2 [1#10] [15] = [a] /\
    (tie_ages [10; 20] 2 [1#10]).[0] <= a <= (tie_ages [10; 20] 2 [1#10]).[S 0].
Proof.
  do 4 (split; [concrete|]). split; [split; concrete|].
  apply piecewise_between_ties; try concrete. split; concrete.
Defined.

End Piecewise.
