(* ===== verification/Posterior.v ===== *)
(** * Posterior summaries: [az.hdi], [np.quantile], [np.min]

    What [bea.fit_bea_for_ash] and [bad.fit_bad] compute from the draws
    the sampler returns: the 95% highest-density interval of ArviZ
    ([az.hdi(post_E, hdi_prob=0.95)], the narrowest window holding
    [floor(0.95 n) + 1] sorted draws), numpy's linear-interpolation
    quantile ([np.quantile(x, 0.025)] and [0.975]) and the minimum of an
    array ([ages2.min()], which raises on an empty array). *)

From S2P Require Import Prelude NpSort NpArray.
From Stdlib Require Import Qround.

(** ** Definitions *)

(** [arr.min()]: [ValueError] on an empty array. *)
Definition amin (a : list Q) : result Q :=
  match a with
  | [] => Err (ValueError "zero-size array to reduction operation minimum which has no identity")
  | x :: a' => Ok (fold_left Qmin a' x)
  end.

Fixpoint argmin_acc (i best : nat) (bv : Q) (l : list Q) : nat :=
  match l with
  | [] => best
  | x :: l' => if Qltb x bv then argmin_acc (S i) i x l' else argmin_acc (S i) best bv l'
  end.

(** [np.argmin(w)]: the first index of a smallest entry. *)
Definition argmin (w : list Q) : nat :=
  match w with
  | [] => 0
  | x :: w' => argmin_acc 1 0 x w'
  end.

(** ArviZ's [_hdi] on a flat sample: sort, [interval_idx_inc =
    floor(hdi_prob * n)], widths [ary[i + inc] - ary[i]] for
    [i < n - inc], the first narrowest window. *)
Definition hdi (ary : list Q) (hdi_prob : Q) : result (Q * Q) :=
  let s := sort ary in
  let n := length s in
  let inc := Z.to_nat (Qfloor (hdi_prob * inject_Z (Z.of_nat n))) in
  let width := map (fun i => s.[i + inc] - s.[i]) (seq 0 (n - inc)) in
  match width with
  | [] => Err (ValueError "Too few elements for interval calculation")
  | _ => let k := argmin width in Ok (s.[k], s.[k + inc])
  end.

(** numpy's [_lerp(previous, next, gamma)] at virtual index [vi] of a
    sorted array whose last index is [m]. *)
Definition lerp_sorted (s : list Q) (m : nat) (vi : Q) : Q :=
  let prev := Z.to_nat (Qfloor vi) in
  let next := Nat.min (S prev) m in
  let gamma := vi - inject_Z (Qfloor vi) in
  s.[prev] + gamma * (s.[next] - s.[prev]).

(** [np.quantile(a, q)] with the default linear method: virtual index
    [q * (n - 1)], interpolation between its floor and the next entry
    (the last entry from [n - 1] on). *)
Definition quantile (a : list Q) (q : Q) : result Q :=
  if negb (Qle_bool 0 q && Qle_bool q 1)
  then Err (ValueError "Quantiles must be in the range [0, 1]")
  else
    let s := sort a in
    match length s with
    | O => Err (IndexError "index 0 is out of bounds for axis 0 with size 0")
    | S m => Ok (lerp_sorted s m (q * inject_Z (Z.of_nat m)))
    end.

(** ** [argmin] *)

Lemma argmin_acc_spec (w l : list Q) (i best : nat) :
  l = skipn i w -> (i <= length w)%nat -> (best < i)%nat ->
  (forall j, (j < i)%nat -> w.[best] <= w.[j]) ->
  (argmin_acc i best w.[best] l < length w)%nat /\
  (forall j, (j < length w)%nat -> w.[argmin_acc i best w.[best] l] <= w.[j]).
Proof.
  revert i best; induction l as [|x l IH]; intros i best El Hi Hb Hmin; simpl.
  - pose proof (f_equal (@length Q) El) as HL; rewrite length_skipn in HL; simpl in HL.
    split; [lia|]. intros j Hj; apply Hmin; lia.
  - pose proof (f_equal (@length Q) El) as HL; rewrite length_skipn in HL; simpl in HL.
    assert (Hlen : (i < length w)%nat) by lia.
    assert (Hx : w.[i] = x /\ l = skipn (S i) w).
    { clear -El Hlen. revert w El Hlen; induction i as [|i IHi]; intros [|y w] El Hlen;
        simpl in *; try lia; [injection El as -> ->; auto|].
      apply IHi; auto; lia. }
    destruct Hx as [Ex El']; subst x.
    destruct (Qltb w.[i] w.[best]) eqn:Ec.
    + apply Qltb_iff in Ec.
      apply IH; [exact El' | lia | lia |]. intros j Hj.
      destruct (Nat.eq_dec j i) as [->|]; [apply Qle_refl|].
      apply Qle_trans with w.[best]; [lra | apply Hmin; lia].
    + apply IH; [exact El' | lia | lia |]. intros j Hj.
      destruct (Nat.eq_dec j i) as [->|]; [|apply Hmin; lia].
      apply Qnot_lt_le; intros Hc; apply Qltb_iff in Hc; congruence.
Qed.

Lemma argmin_spec (w : list Q) :
  w <> [] ->
  (argmin w < length w)%nat /\ (forall j, (j < length w)%nat -> w.[argmin w] <= w.[j]).
Proof.
  destruct w as [|x w]; [congruence|]; intros _.
  apply (argmin_acc_spec (x :: w) w 1 0); simpl; auto; [lia|].
  intros j Hj; replace j with 0%nat by lia; apply Qle_refl.
Qed.

(** ** [hdi] *)

Lemma filter_length_permutation (f : Q -> bool) (l l' : list Q) :
  Permutation l l' -> length (filter f l) = length (filter f l').
Proof.
  induction 1 as [|x l l' H IH|x y l|l l' l'' H1 IH1 H2 IH2]; simpl; auto.
  - destruct (f x); simpl; auto.
  - destruct (f x), (f y); simpl; auto.
  - congruence.
Qed.

(** [m + 1] consecutive entries satisfying [f] are counted by [filter]. *)
Lemma filter_length_window (f : Q -> bool) (s : list Q) (k m : nat) :
  (k + m < length s)%nat -> (forall j, (k <= j <= k + m)%nat -> f s.[j] = true) ->
  (S m <= length (filter f s))%nat.
Proof.
  revert k m; induction s as [|x s IH]; intros k m Hk Hj; simpl in Hk; [lia|].
  destruct k as [|k]; simpl.
  - pose proof (Hj 0%nat ltac:(lia)) as H0; simpl in H0; rewrite H0; simpl.
    destruct m as [|m]; [lia|].
    apply le_n_S, (IH 0%nat m); [lia|]. intros j Hj'; apply (Hj (S j)); lia.
  - pose proof (IH k m ltac:(lia) ltac:(intros j Hj'; apply (Hj (S j)); lia)).
    destruct (f x); simpl; lia.
Qed.

(** What [hdi] returns: a window [s[k], s[k + inc]] of the sorted sample,
    no wider than any other window of [inc + 1] consecutive draws. *)
Lemma hdi_window (ary : list Q) (p lo hi : Q) :
  hdi ary p = Ok (lo, hi) ->
  let s := sort ary in
  let inc := Z.to_nat (Qfloor (p * inject_Z (Z.of_nat (length s)))) in
  exists k, (k + inc < length s)%nat /\ lo = s.[k] /\ hi = s.[k + inc] /\
    (forall j, (j + inc < length s)%nat -> hi - lo <= s.[j + inc] - s.[j]).
Proof.
  intros H s inc; unfold hdi in H; fold s in H; fold inc in H.
  set (width := map (fun i => s.[i + inc] - s.[i]) (seq 0 (length s - inc))) in H.
  assert (Hw : forall j, (j < length s - inc)%nat -> width.[j] = s.[j + inc] - s.[j]).
  { intros j Hj; subst width; rewrite (nth_map_lt _ _ 0%nat) by (rewrite length_seq; lia).
    rewrite seq_nth by lia; reflexivity. }
  assert (Hl : length width = (length s - inc)%nat) by (subst width; rewrite length_map, length_seq; reflexivity).
  destruct width as [|w0 ws] eqn:Ew; [discriminate|].
  rewrite <- Ew in H, Hw, Hl. injection H as <- <-.
  destruct (argmin_spec width ltac:(rewrite Ew; discriminate)) as [Hk Hmin].
  exists (argmin width); repeat split; [lia|].
  intros j Hj. rewrite <- Hw, <- Hw by lia. apply Hmin; lia.
Qed.

(** The two ends of the interval are draws of the sample, in order. *)
Lemma hdi_members (ary : list Q) (p lo hi : Q) :
  hdi ary p = Ok (lo, hi) -> lo <= hi /\ In lo ary /\ In hi ary.
Proof.
  intros H; destruct (hdi_window ary p lo hi H) as (k & Hk & -> & -> & _).
  rewrite !sort_length in *.
  assert (Hin : forall i, (i < length ary)%nat -> In (sort ary).[i] ary).
  { intros i Hi; apply (Permutation_in _ (sort_perm ary)), nth_In; rewrite sort_length; exact Hi. }
  split; [apply sort_nth_le; rewrite ?sort_length; lia|]. split; apply Hin; lia.
Qed.

(** the interval [az.hdi] reports for the eruption age is made of
    two posterior draws, [low <= high], and it is a narrowest window
    containing [floor(hdi_prob * n) + 1] consecutive sorted draws: no
    other such window is narrower. *)
Theorem hdi_narrowest (ary : list Q) (p lo hi : Q) :
  hdi ary p = Ok (lo, hi) ->
  lo <= hi /\ In lo ary /\ In hi ary /\
  (forall j, (j + Z.to_nat (Qfloor (p * inject_Z (Z.of_nat (length ary)))) < length ary)%nat ->
     hi - lo <= (sort ary).[j + Z.to_nat (Qfloor (p * inject_Z (Z.of_nat (length ary))))]
                - (sort ary).[j]).
Proof.
  intros H; destruct (hdi_members ary p lo hi H) as (Hle & Hlo & Hhi).
  destruct (hdi_window ary p lo hi H) as (k & _ & _ & _ & Hmin).
  rewrite !sort_length in *. repeat split; assumption.
Qed.

Lemma hdi_empty (p : Q) : exists msg, hdi [] p = Err (ValueError msg).
Proof. eexists; reflexivity. Qed.

(** [hdi] succeeds on every non-empty sample when [hdi_prob < 1]. *)
Lemma hdi_total (ary : list Q) (p : Q) :
  p < 1 -> ary <> [] -> exists lo hi, hdi ary p = Ok (lo, hi).
Proof.
  intros Hp Ha; unfold hdi.
  set (s := sort ary); set (n := length s).
  set (inc := Z.to_nat (Qfloor (p * inject_Z (Z.of_nat n)))).
  assert (Hn : (0 < n)%nat) by (subst n s; rewrite sort_length; destruct ary; [congruence | simpl; lia]).
  assert (Hinc : (inc < n)%nat).
  { subst inc.
    assert (HnQ : 0 < inject_Z (Z.of_nat n)) by (unfold Qlt; simpl; lia).
    pose proof (Qfloor_le (p * inject_Z (Z.of_nat n))) as Hf.
    assert (Hlt : (Qfloor (p * inject_Z (Z.of_nat n)) < Z.of_nat n)%Z) by (rewrite Zlt_Qlt; nra).
    lia. }
  destruct (n - inc)%nat as [|k] eqn:Ek; [lia|]. simpl. eexists _, _; reflexivity.
Qed.

(** the HDI window holds at least [floor(hdi_prob * n) + 1] of the
    [n] posterior draws, i.e. more than the fraction [hdi_prob] of them. *)
Theorem hdi_mass (ary : list Q) (p lo hi : Q) :
  hdi ary p = Ok (lo, hi) ->
  (S (Z.to_nat (Qfloor (p * inject_Z (Z.of_nat (length ary))))) <=
   length (filter (fun x => Qle_bool lo x && Qle_bool x hi) ary))%nat.
Proof.
  intros H; destruct (hdi_window ary p lo hi H) as (k & Hk & Elo & Ehi & _).
  rewrite !sort_length in *.
  rewrite (filter_length_permutation _ ary (sort ary)) by (symmetry; apply sort_perm).
  apply (filter_length_window _ _ k); [rewrite sort_length; exact Hk|].
  intros j Hj; rewrite Elo, Ehi, andb_true_iff, !Qle_bool_iff; split; apply sort_nth_le;
    rewrite ?sort_length; lia.
Qed.

(** ** [quantile] *)

Lemma floor_index (vi : Q) (m : nat) :
  0 <= vi <= inject_Z (Z.of_nat m) ->
  (Z.to_nat (Qfloor vi) <= m)%nat /\
  inject_Z (Z.of_nat (Z.to_nat (Qfloor vi))) == inject_Z (Qfloor vi) /\
  0 <= vi - inject_Z (Qfloor vi) < 1 /\
  (Z.to_nat (Qfloor vi) = m -> vi - inject_Z (Qfloor vi) == 0).
Proof.
  intros [H0 Hm].
  pose proof (Qfloor_resp_le _ _ H0) as F0; pose proof (Qfloor_resp_le _ _ Hm) as Fm.
  rewrite Qfloor_Z in Fm; change (Qfloor 0) with 0%Z in F0.
  pose proof (Qfloor_le vi) as L1; pose proof (Qlt_floor vi) as L2.
  rewrite inject_Z_plus in L2.
  rewrite Z2Nat.id by lia.
  split; [lia|]. split; [reflexivity|]. split; [change (inject_Z 1) with 1 in L2; lra|].
  intros E; assert (Qfloor vi = Z.of_nat m) as Ef by lia.
  rewrite Ef in L1 |- *; lra.
Qed.

Section Lerp.
Variables (a : list Q) (m : nat).
Hypothesis Hlen : length a = S m.

Lemma lerp_between (vi : Q) :
  0 <= vi <= inject_Z (Z.of_nat m) ->
  (sort a).[Z.to_nat (Qfloor vi)] <= lerp_sorted (sort a) m vi <=
  (sort a).[Nat.min (S (Z.to_nat (Qfloor vi))) m].
Proof.
  intros Hv; destruct (floor_index vi m Hv) as (Hp & _ & Hg & _).
  unfold lerp_sorted.
  assert ((sort a).[Z.to_nat (Qfloor vi)] <= (sort a).[Nat.min (S (Z.to_nat (Qfloor vi))) m])
    by (apply sort_nth_le; lia).
  split; nra.
Qed.

Lemma lerp_mono (v1 v2 : Q) :
  0 <= v1 -> v1 <= v2 -> v2 <= inject_Z (Z.of_nat m) ->
  lerp_sorted (sort a) m v1 <= lerp_sorted (sort a) m v2.
Proof.
  intros H1 H12 H2.
  destruct (floor_index v1 m ltac:(lra)) as (Hp1 & _ & Hg1 & _).
  destruct (floor_index v2 m ltac:(lra)) as (Hp2 & _ & Hg2 & _).
  pose proof (Qfloor_resp_le _ _ H12) as Hf.
  pose proof (Qfloor_resp_le 0 v1 H1) as F0; change (Qfloor 0) with 0%Z in F0.
  destruct (Z.eq_dec (Qfloor v1) (Qfloor v2)) as [E|Hne].
  - unfold lerp_sorted; rewrite E in *.
    assert ((sort a).[Z.to_nat (Qfloor v2)] <= (sort a).[Nat.min (S (Z.to_nat (Qfloor v2))) m])
      by (apply sort_nth_le; lia).
    nra.
  - pose proof (lerp_between v1 ltac:(lra)) as [_ B1].
    pose proof (lerp_between v2 ltac:(lra)) as [B2 _].
    assert ((sort a).[Nat.min (S (Z.to_nat (Qfloor v1))) m] <= (sort a).[Z.to_nat (Qfloor v2)])
      by (apply sort_nth_le; lia).
    lra.
Qed.
End Lerp.

Lemma quantile_ok (a : list Q) (q v : Q) :
  quantile a q = Ok v ->
  0 <= q <= 1 /\ exists m, length a = S m /\ v = lerp_sorted (sort a) m (q * inject_Z (Z.of_nat m)).
Proof.
  unfold quantile; destruct (Qle_bool 0 q) eqn:E0, (Qle_bool q 1) eqn:E1; simpl; try discriminate.
  apply Qle_bool_iff in E0; apply Qle_bool_iff in E1.
  destruct (length (sort a)) as [|m] eqn:El; [discriminate|].
  rewrite sort_length in El; intros H; injection H as <-; split; [lra | eauto].
Qed.

(** a quantile [np.quantile(x, q)] of values that all lie in
    [lo, hi] lies in [lo, hi]. *)
Theorem quantile_bounds (a : list Q) (q v lo hi : Q) :
  Forall (fun x => lo <= x <= hi) a -> quantile a q = Ok v -> lo <= v <= hi.
Proof.
  intros Hall H; apply quantile_ok in H as (Hq & m & Hm & ->).
  assert (HmQ : 0 <= inject_Z (Z.of_nat m)) by (unfold Qle; simpl; lia).
  assert (Hv : 0 <= q * inject_Z (Z.of_nat m) <= inject_Z (Z.of_nat m)) by nra.
  destruct (floor_index _ m Hv) as (Hp & _).
  pose proof (lerp_between a m Hm _ Hv) as [B1 B2].
  pose proof (sort_Forall _ _ Hall) as Hs.
  pose proof (Forall_nth_Q _ _ (Z.to_nat (Qfloor (q * inject_Z (Z.of_nat m)))) Hs
                ltac:(rewrite sort_length; lia)).
  pose proof (Forall_nth_Q _ _ (Nat.min (S (Z.to_nat (Qfloor (q * inject_Z (Z.of_nat m))))) m) Hs
                ltac:(rewrite sort_length; lia)).
  simpl in *; lra.
Qed.

(** [np.quantile] is monotone in the level: the 2.5% quantile
    [fit_bad] reports never exceeds the 97.5% one. *)
Theorem quantile_mono (a : list Q) (q1 q2 v1 v2 : Q) :
  q1 <= q2 -> quantile a q1 = Ok v1 -> quantile a q2 = Ok v2 -> v1 <= v2.
Proof.
  intros H12 H1 H2.
  apply quantile_ok in H1 as (Hq1 & m & Hm & ->).
  apply quantile_ok in H2 as (Hq2 & m' & Hm' & ->).
  rewrite Hm in Hm'; injection Hm' as <-.
  assert (HmQ : 0 <= inject_Z (Z.of_nat m)) by (unfold Qle; simpl; lia).
  apply lerp_mono; auto; nra.
Qed.

Lemma quantile_total (a : list Q) (q : Q) :
  0 <= q <= 1 -> a <> [] -> exists v, quantile a q = Ok v.
Proof.
  intros [H0 H1] Ha; unfold quantile.
  rewrite (proj2 (Qle_bool_iff 0 q) H0), (proj2 (Qle_bool_iff q 1) H1); simpl.
  rewrite sort_length; destruct a; [congruence|]; simpl; eauto.
Qed.

(** ** [amin] *)


Lemma amin_spec (l : list Q) (m : Q) :
  amin l = Ok m -> (exists x, In x l /\ x == m) /\ Forall (fun y => m <= y) l.
Proof.
  destruct l as [|x l]; simpl; [discriminate|]; intros E; injection E as <-.
  revert x; induction l as [|y l IH]; intros x; simpl.
  - split; [exists x; split; [left; reflexivity | reflexivity] | constructor; [apply Qle_refl | constructor]].
  - destruct (IH (Qmin x y)) as ((z & Hz & Ez) & Hall).
    inversion Hall as [|? ? Hmin Hrest]; subst.
    pose proof (Q.le_min_l x y); pose proof (Q.le_min_r x y).
    split.
    + destruct Hz as [<-|Hz]; [|exists z; split; [right; right; exact Hz | exact Ez]].
      destruct (Q.min_spec x y) as [[_ E]|[_ E]].
      * exists x; split; [left; reflexivity | rewrite <- Ez, E; reflexivity].
      * exists y; split; [right; left; reflexivity | rewrite <- Ez, E; reflexivity].
    + constructor; [lra|]. constructor; [lra | exact Hrest].
Qed.

Lemma amin_total (l : list Q) : l <> [] -> exists m, amin l = Ok m.
Proof. destruct l; [congruence | simpl; eauto]. Qed.

(** The minimum depends on the values only up to [==]. *)
Lemma amin_proper (l1 l2 : list Q) (x y : Q) :
  l1 =l= l2 -> amin l1 = Ok x -> amin l2 = Ok y -> x == y.
Proof.
  intros H12 Hx Hy.
  destruct (amin_spec _ _ Hx) as ((a & Ha & Ea) & Hx1).
  destruct (amin_spec _ _ Hy) as ((b & Hb & Eb) & Hy2).
  destruct (In_nth _ _ 0 Ha) as (i & Hi & Ei); destruct (In_nth _ _ 0 Hb) as (j & Hj & Ej).
  pose proof (Forall2_length H12) as Hl.
  pose proof (Forall2_nth_Qeq _ _ i H12) as Hi12; pose proof (Forall2_nth_Qeq _ _ j H12) as Hj12.
  rewrite Forall_forall in Hx1, Hy2.
  assert (y <= l2.[i]) by (apply Hy2, nth_In; lia).
  assert (x <= l1.[j]) by (apply Hx1, nth_In; lia).
  rewrite Ei in Hi12; rewrite Ej in Hj12. lra.
Qed.

(** ** Witnesses *)

Lemma hdi_narrowest_witness :
  hdi [3; 1; 2; 10] (1 # 2) = Ok (1, 3) /\ 1 <= 3 /\ In (1 : Q) [3; 1; 2; 10] /\ In (3 : Q) [3; 1; 2; 10].
Proof.
  assert (H : hdi [3; 1; 2; 10] (1 # 2) = Ok (1, 3)) by (vm_compute; reflexivity).
  destruct (hdi_narrowest _ _ _ _ H) as (A & B & C & _). auto.
Defined.

Lemma hdi_mass_witness :
  hdi [3; 1; 2; 10] (1 # 2) = Ok (1, 3) /\
  Nat.le 3 (length (filter (fun x => Qle_bool 1 x && Qle_bool x 3) [3; 1; 2; 10])).
Proof.
  assert (H : hdi [3; 1; 2; 10] (1 # 2) = Ok (1, 3)) by (vm_compute; reflexivity).
  split; [exact H | exact (hdi_mass _ _ _ _ H)].
Defined.

Lemma quantile_bounds_witness :
  quantile [3; 1; 2] (1 # 4) = Ok (6 # 4) /\ 0 <= 6 # 4 <= 5.
Proof.
  assert (H : quantile [3; 1; 2] (1 # 4) = Ok (6 # 4)) by (vm_compute; reflexivity).
  split; [exact H|]. apply (quantile_bounds [3; 1; 2] (1 # 4)); [|exact H].
  repeat constructor; vm_compute; discriminate.
Defined.

Lemma quantile_mono_witness :
  quantile [3; 1; 2] (1 # 40) = Ok (42 # 40) /\ quantile [3; 1; 2] (39 # 40) = Ok (118 # 40) /\
  42 # 40 <= 118 # 40.
Proof.
  assert (H1 : quantile [3; 1; 2] (1 # 40) = Ok (42 # 40)) by (vm_compute; reflexivity).
  assert (H2 : quantile [3; 1; 2] (39 # 40) = Ok (118 # 40)) by (vm_compute; reflexivity).
  split; [exact H1|]; split; [exact H2|].
  apply (quantile_mono [3; 1; 2] (1 # 40) (39 # 40)); [vm_compute; discriminate | exact H1 | exact H2].
Defined.
