(* ===== verification/FileSys.v ===== *)
(** * The file-system effects of [fit_bad]: [utils.ensure_dir] and
    [idata.to_netcdf]

    [bad.fit_bad] creates its output directory first ([ensure_dir(outdir)],
    [utils.py] lines 56-58: [os.makedirs(path, exist_ok=True)]) and
    writes the posterior to [os.path.join(outdir, "bad_posterior.nc")]
    after sampling.  The file system is the set of directories and files
    that exist; a computation [IO A] threads it and may raise, keeping the
    effects done before the exception (as Python does).  Parent
    directories [os.makedirs] creates on the way are not tracked; only the
    directory asked for is. *)

From S2P Require Import Prelude.
From Stdlib Require Import Ascii.

Record FS := {
  fs_dirs : list string;
  fs_files : list string
}.

(** ** The state-and-exception monad *)

Definition IO (A : Type) := FS -> result A * FS.

Definition io_ret {A : Type} (x : A) : IO A := fun fs => (Ok x, fs).

Definition io_lift {A : Type} (r : result A) : IO A := fun fs => (r, fs).

Definition io_bind {A B : Type} (c : IO A) (k : A -> IO B) : IO B :=
  fun fs =>
    match c fs with
    | (Ok x, fs1) => k x fs1
    | (Err e, fs1) => (Err e, fs1)
    end.

Declare Scope io_scope.
Delimit Scope io_scope with io.
Notation "x <- c ;; k" := (io_bind c (fun x => k))
  (at level 61, c at next level, right associativity) : io_scope.

Definition mem (p : string) (l : list string) : bool := existsb (String.eqb p) l.

(** ** Operations *)

(** [os.makedirs(path, exist_ok=True)]: [FileNotFoundError] on the empty
    path, [FileExistsError] when a file has that name, nothing when the
    directory exists. *)
Definition ensure_dir (path : string) : IO unit := fun fs =>
  if String.eqb path EmptyString
  then (Err (OSError "[Errno 2] No such file or directory"), fs)
  else if mem path (fs_files fs) then (Err (OSError "[Errno 17] File exists"), fs)
  else if mem path (fs_dirs fs) then (Ok tt, fs)
  else (Ok tt, {| fs_dirs := path :: fs_dirs fs; fs_files := fs_files fs |}).

(** [posixpath.join(a, b)] for a relative [b]. *)
Definition ends_with_sep (a : string) : bool :=
  match String.get (String.length a - 1) a with
  | Some c => Ascii.eqb c "/"%char
  | None => false
  end.

Definition path_join (a b : string) : string :=
  if String.eqb a EmptyString then b
  else if ends_with_sep a then a ++ b
  else a ++ "/" ++ b.

(** Writing a file ([idata.to_netcdf(path)]): [IsADirectoryError] on a
    directory's name, else the file exists afterwards (overwritten if it
    did). *)
Definition write_file (path : string) : IO unit := fun fs =>
  if mem path (fs_dirs fs) then (Err (OSError "[Errno 21] Is a directory"), fs)
  else (Ok tt, {| fs_dirs := fs_dirs fs;
                  fs_files := if mem path (fs_files fs) then fs_files fs else path :: fs_files fs |}).

(** ** Lemmas *)

Lemma mem_In (p : string) (l : list string) : mem p l = true <-> In p l.
Proof.
  unfold mem; rewrite existsb_exists; split.
  - intros (x & Hx & E); apply String.eqb_eq in E; subst; exact Hx.
  - intros H; exists p; split; [exact H | apply String.eqb_refl].
Qed.

Lemma io_bind_ok {A B : Type} (c : IO A) (k : A -> IO B) (fs fs1 : FS) (x : A) :
  c fs = (Ok x, fs1) -> io_bind c k fs = k x fs1.
Proof. unfold io_bind; intros ->; reflexivity. Qed.

Lemma io_bind_err {A B : Type} (c : IO A) (k : A -> IO B) (fs fs1 : FS) (e : PyExc) :
  c fs = (Err e, fs1) -> io_bind c k fs = (Err e, fs1).
Proof. unfold io_bind; intros ->; reflexivity. Qed.

(** [ensure_dir] on a valid name succeeds, and afterwards the directory
    exists and the files are unchanged. *)
Lemma ensure_dir_ok (path : string) (fs : FS) :
  path <> EmptyString -> ~ In path (fs_files fs) ->
  exists fs1, ensure_dir path fs = (Ok tt, fs1) /\ In path (fs_dirs fs1) /\
    fs_files fs1 = fs_files fs /\ incl (fs_dirs fs) (fs_dirs fs1).
Proof.
  intros Hp Hf; unfold ensure_dir.
  destruct (String.eqb_spec path EmptyString) as [|_]; [contradiction|].
  destruct (mem path (fs_files fs)) eqn:Em; [apply mem_In in Em; contradiction|].
  destruct (mem path (fs_dirs fs)) eqn:Ed.
  - exists fs; apply mem_In in Ed; repeat split; auto using incl_refl.
  - eexists; split; [reflexivity|]; simpl; repeat split; [left; reflexivity | apply incl_tl, incl_refl].
Qed.

(** Whatever it returns, [ensure_dir] never removes anything. *)
Lemma ensure_dir_mono (path : string) (fs fs1 : FS) (r : result unit) :
  ensure_dir path fs = (r, fs1) ->
  incl (fs_dirs fs) (fs_dirs fs1) /\ fs_files fs1 = fs_files fs.
Proof.
  unfold ensure_dir.
  destruct (String.eqb path EmptyString), (mem path (fs_files fs)), (mem path (fs_dirs fs));
    intros E; injection E as _ <-; simpl; split; auto using incl_refl, incl_tl.
Qed.

Lemma write_file_ok (path : string) (fs fs1 : FS) :
  write_file path fs = (Ok tt, fs1) ->
  In path (fs_files fs1) /\ fs_dirs fs1 = fs_dirs fs /\ incl (fs_files fs) (fs_files fs1).
Proof.
  unfold write_file; destruct (mem path (fs_dirs fs)); [discriminate|].
  intros E; injection E as <-; simpl.
  destruct (mem path (fs_files fs)) eqn:Em; [apply mem_In in Em|];
    repeat split; auto using incl_refl, incl_tl; left; reflexivity.
Qed.

Lemma ensure_dir_ok_inv (path : string) (fs fs1 : FS) :
  ensure_dir path fs = (Ok tt, fs1) -> In path (fs_dirs fs1) /\ fs_files fs1 = fs_files fs.
Proof.
  unfold ensure_dir.
  destruct (String.eqb path EmptyString); [discriminate|].
  destruct (mem path (fs_files fs)); [discriminate|].
  destruct (mem path (fs_dirs fs)) eqn:Ed; intros E; injection E as <-; simpl.
  - apply mem_In in Ed; auto.
  - split; [left|]; reflexivity.
Qed.

(** [ensure_dir] adds at most the directory asked for. *)
Lemma ensure_dir_dirs (path : string) (fs fs1 : FS) (r : result unit) :
  ensure_dir path fs = (r, fs1) -> incl (fs_dirs fs1) (path :: fs_dirs fs).
Proof.
  unfold ensure_dir.
  destruct (String.eqb path EmptyString), (mem path (fs_files fs)), (mem path (fs_dirs fs));
    intros E; injection E as _ <-; simpl; auto using incl_refl, incl_tl.
Qed.

(** Writing a file whose name is not a directory succeeds. *)
Lemma write_file_fresh (path : string) (fs : FS) :
  ~ In path (fs_dirs fs) ->
  exists fs1, write_file path fs = (Ok tt, fs1) /\ In path (fs_files fs1) /\
    fs_dirs fs1 = fs_dirs fs /\ incl (fs_files fs) (fs_files fs1) /\
    incl (fs_files fs1) (path :: fs_files fs).
Proof.
  intros Hd; unfold write_file.
  destruct (mem path (fs_dirs fs)) eqn:Em; [apply mem_In in Em; contradiction|].
  eexists; split; [reflexivity|]; cbn [fs_files fs_dirs].
  destruct (mem path (fs_files fs)) eqn:Ef.
  - apply mem_In in Ef; repeat split; auto using incl_refl, incl_tl.
  - repeat split; [left; reflexivity | apply incl_tl, incl_refl | apply incl_refl].
Qed.

Lemma string_length_app (s1 s2 : string) :
  String.length (s1 ++ s2) = (String.length s1 + String.length s2)%nat.
Proof. induction s1 as [|c s1 IH]; cbn; [reflexivity | rewrite IH; reflexivity]. Qed.

(** A file inside a directory is not the directory. *)
Lemma path_join_neq (a b : string) : b <> EmptyString -> path_join a b <> a.
Proof.
  intros Hb E; unfold path_join in E.
  destruct (String.eqb_spec a EmptyString) as [->|Ha]; [exact (Hb E)|].
  apply (f_equal String.length) in E.
  destruct (ends_with_sep a); rewrite ?string_length_app in E;
    [destruct b; [exact (Hb eq_refl) | cbn in E; lia] | cbn in E; lia].
Qed.

(** ** Programs that write into one directory *)

(** From [fs] to [fs1], the directory [o] was made, no other directory,
    and the only new files are among [outs]. *)
Definition confined (o : string) (outs : list string) (fs fs1 : FS) : Prop :=
  In o (fs_dirs fs1) /\ incl (fs_dirs fs1) (o :: fs_dirs fs) /\ incl (fs_files fs1) (outs ++ fs_files fs).

Lemma ensure_dir_confined (o : string) (outs : list string) (fs : FS) :
  o <> EmptyString -> ~ In o (fs_files fs) ->
  exists fs1, ensure_dir o fs = (Ok tt, fs1) /\ confined o outs fs fs1.
Proof.
  intros Hp Hf; destruct (ensure_dir_ok o fs Hp Hf) as (fs1 & E & Hin & Hfiles & _).
  exists fs1; split; [exact E|]; split; [exact Hin|]; split; [exact (ensure_dir_dirs _ _ _ _ E)|].
  rewrite Hfiles; apply incl_appr, incl_refl.
Qed.

Lemma confined_not_dir (o p : string) (outs : list string) (fs fs1 : FS) :
  confined o outs fs fs1 -> ~ In p (o :: fs_dirs fs) -> ~ In p (fs_dirs fs1).
Proof. intros (_ & Hd & _) Hp Hc; exact (Hp (Hd _ Hc)). Qed.

Lemma confined_not_file (o : string) (outs : list string) (fs fs1 : FS) :
  confined o outs fs fs1 -> ~ In o outs -> ~ In o (fs_files fs) -> ~ In o (fs_files fs1).
Proof. intros (_ & _ & Hf) H1 H2 Hc; apply Hf, in_app_or in Hc as [Hc|Hc]; auto. Qed.

(** Making [o] again, as [ensure_dir] does when it exists, keeps a run
    confined. *)
Lemma ensure_dir_again (o : string) (outs : list string) (fs fs1 : FS) :
  confined o outs fs fs1 -> o <> EmptyString -> ~ In o outs -> ~ In o (fs_files fs) ->
  exists fs2, ensure_dir o fs1 = (Ok tt, fs2) /\ confined o outs fs fs2 /\ fs_files fs2 = fs_files fs1.
Proof.
  intros Hc Hp Ho Hf; pose proof (confined_not_file _ _ _ _ Hc Ho Hf) as Hf1.
  destruct Hc as (Hin & Hd & Hfl).
  destruct (ensure_dir_ok o fs1 Hp Hf1) as (fs2 & E & Hin2 & Hfiles & _).
  exists fs2; split; [exact E|]; split; [|exact Hfiles]; split; [exact Hin2|].
  split; [|rewrite Hfiles; exact Hfl].
  intros x Hx; apply (ensure_dir_dirs _ _ _ _ E) in Hx as [<-|Hx]; [left; reflexivity | exact (Hd _ Hx)].
Qed.

(** Writing one of the expected files, which is not a directory. *)
Lemma write_file_confined (o p : string) (outs : list string) (fs fs1 : FS) :
  confined o outs fs fs1 -> In p outs -> ~ In p (o :: fs_dirs fs) ->
  exists fs2, write_file p fs1 = (Ok tt, fs2) /\ confined o outs fs fs2 /\
    In p (fs_files fs2) /\ incl (fs_files fs1) (fs_files fs2).
Proof.
  intros Hc Hp Hnd; pose proof (confined_not_dir _ _ _ _ _ Hc Hnd) as Hnd1.
  destruct Hc as (Hin & Hd & Hf).
  destruct (write_file_fresh _ _ Hnd1) as (fs2 & E & Hin2 & Hd2 & Hi & Hf2).
  exists fs2; split; [exact E|]; split; [|split; [exact Hin2 | exact Hi]].
  unfold confined; rewrite Hd2; split; [exact Hin|]; split; [exact Hd|].
  intros x Hx; apply Hf2 in Hx as [<-|Hx]; [apply in_or_app; left; exact Hp | exact (Hf _ Hx)].
Qed.
