(* ===== verification/PyNum.v ===== *)
(** * Python's [int(s)] and [float(s)] on strings, and [str(n)] on ints

    The GUI ([app_gui._parse_int], [app_gui._parse_float]) and argparse's
    [type=int] / [type=float] convert text with these builtins.  The
    accepted grammar (after stripping ASCII whitespace, which includes
    [\x1c-\x1f]): an optional sign, then for [int] decimal digits with
    single underscores between them; for [float] additionally a fraction,
    an exponent, and [inf], [infinity], [nan] in any case.  A [float] is
    modelled exactly ([Fin q] with [q : Q]): rounding to binary64 is not
    modelled, so comparisons are exact (they differ from Python only for
    inputs closer to a bound than a float's precision).  [str(float)]
    (Python's shortest repr) is not modelled; it enters [Gui] through an
    interface. *)

From S2P Require Import Prelude.
From Stdlib Require Import Ascii DecimalString DecimalZ DecimalPos.

(** ** Characters *)

Definition is_space (c : ascii) : bool :=
  let n := nat_of_ascii c in
  ((Nat.leb 9 n) && (Nat.leb n 13)) || ((Nat.leb 28 n) && (Nat.leb n 32)).

Definition digit_val (c : ascii) : option nat :=
  let n := nat_of_ascii c in
  if (Nat.leb 48 n) && (Nat.leb n 57) then Some (n - 48)%nat else None.

Definition lower (c : ascii) : ascii :=
  let n := nat_of_ascii c in
  if (Nat.leb 65 n) && (Nat.leb n 90) then ascii_of_nat (n + 32)%nat else c.

Fixpoint drop_spaces (l : list ascii) : list ascii :=
  match l with
  | c :: l' => if is_space c then drop_spaces l' else l
  | [] => []
  end.

(** [s.strip()] *)
Definition strip (l : list ascii) : list ascii := rev (drop_spaces (rev (drop_spaces l))).

(** ** Digit groups [digit (["_"] digit)*] *)

Fixpoint digitpart_rest (l : list ascii) : list nat * list ascii :=
  match l with
  | c :: l' =>
      match digit_val c with
      | Some d => let (ds, r) := digitpart_rest l' in (d :: ds, r)
      | None =>
          if Ascii.eqb c "_" then
            match l' with
            | c2 :: l'' =>
                match digit_val c2 with
                | Some d => let (ds, r) := digitpart_rest l'' in (d :: ds, r)
                | None => ([], l)
                end
            | [] => ([], l)
            end
          else ([], l)
      end
  | [] => ([], [])
  end.

Definition digitpart (l : list ascii) : option (list nat * list ascii) :=
  match l with
  | c :: l' =>
      match digit_val c with
      | Some d => let (ds, r) := digitpart_rest l' in Some (d :: ds, r)
      | None => None
      end
  | [] => None
  end.

Definition digits_value (ds : list nat) : Z :=
  fold_left (fun acc d => acc * 10 + Z.of_nat d)%Z ds 0%Z.

(** An optional sign: [true] for [-]. *)
Definition sign (l : list ascii) : bool * list ascii :=
  match l with
  | c :: l' => if Ascii.eqb c "-" then (true, l') else if Ascii.eqb c "+" then (false, l') else (false, l)
  | [] => (false, [])
  end.

(** ** [int(s)] *)

Definition py_int (s : string) : option Z :=
  let (neg, l) := sign (strip (list_ascii_of_string s)) in
  match digitpart l with
  | Some (ds, []) => Some (if neg then - digits_value ds else digits_value ds)%Z
  | _ => None
  end.

(** ** [float(s)] *)

(** The optional exponent [("e" | "E") [sign] digitpart]. *)
Definition exponent (l : list ascii) : option (Z * list ascii) :=
  match l with
  | c :: l' =>
      if Ascii.eqb (lower c) "e" then
        let (neg, l2) := sign l' in
        match digitpart l2 with
        | Some (ds, r) => Some ((if neg then - digits_value ds else digits_value ds)%Z, r)
        | None => None
        end
      else Some (0%Z, l)
  | [] => Some (0%Z, [])
  end.

(** [digitpart ["." [digitpart]] | "." digitpart], as integer and
    fraction digits. *)
Definition mantissa (l : list ascii) : option (list nat * list nat * list ascii) :=
  let (ip, r1) := match digitpart l with Some (ds, r) => (ds, r) | None => ([], l) end in
  match r1 with
  | c :: r2 =>
      if Ascii.eqb c "." then
        let (fp, r3) := match digitpart r2 with Some (ds, r) => (ds, r) | None => ([], r2) end in
        match ip, fp with
        | [], [] => None
        | _, _ => Some (ip, fp, r3)
        end
      else match ip with [] => None | _ => Some (ip, [], r1) end
  | [] => match ip with [] => None | _ => Some (ip, [], []) end
  end.

Definition special (l : list ascii) : option PyFloat :=
  let w := string_of_list_ascii (map lower l) in
  if String.eqb w "inf" || String.eqb w "infinity" then Some (Inf false)
  else if String.eqb w "nan" then Some NaN
  else None.

Definition negate (neg : bool) (x : PyFloat) : PyFloat :=
  match x with
  | Fin q => if neg then Fin (- q) else Fin q
  | Inf b => if neg then Inf (negb b) else Inf b
  | NaN => NaN
  end.

Definition py_float (s : string) : option PyFloat :=
  let (neg, l) := sign (strip (list_ascii_of_string s)) in
  match special l with
  | Some x => Some (negate neg x)
  | None =>
      match mantissa l with
      | Some (ip, fp, r) =>
          match exponent r with
          | Some (e, []) =>
              let q := inject_Z (digits_value (ip ++ fp)) *
                       Qpower (10 # 1) (e - Z.of_nat (length fp)) in
              Some (negate neg (Fin q))
          | _ => None
          end
      | None => None
      end
  end.

(** ** [str(n)] for an int *)

(** Python prints an int in decimal, with a [-] when negative and no
    leading zeros: Stdlib's decimal printing of [Z]. *)
Definition py_str_int (z : Z) : string := NilZero.string_of_int (Z.to_int z).

(** ** Lemmas *)

Lemma drop_spaces_id (l : list ascii) :
  forallb (fun c => negb (is_space c)) l = true -> drop_spaces l = l.
Proof.
  destruct l as [|c l]; simpl; [reflexivity|].
  rewrite andb_true_iff, negb_true_iff; intros [-> _]; reflexivity.
Qed.

(** [strip] leaves a string without whitespace alone. *)
Lemma strip_id (l : list ascii) :
  forallb (fun c => negb (is_space c)) l = true -> strip l = l.
Proof.
  intros H; unfold strip; rewrite (drop_spaces_id l H), drop_spaces_id, rev_involutive;
    [reflexivity|].
  apply forallb_forall; intros c Hc; apply in_rev in Hc.
  rewrite forallb_forall in H; apply H, Hc.
Qed.

Fixpoint uint_digits (u : Decimal.uint) : list nat :=
  match u with
  | Decimal.Nil => []
  | Decimal.D0 u => 0 :: uint_digits u
  | Decimal.D1 u => 1 :: uint_digits u
  | Decimal.D2 u => 2 :: uint_digits u
  | Decimal.D3 u => 3 :: uint_digits u
  | Decimal.D4 u => 4 :: uint_digits u
  | Decimal.D5 u => 5 :: uint_digits u
  | Decimal.D6 u => 6 :: uint_digits u
  | Decimal.D7 u => 7 :: uint_digits u
  | Decimal.D8 u => 8 :: uint_digits u
  | Decimal.D9 u => 9 :: uint_digits u
  end%nat.

Lemma digits_no_space (u : Decimal.uint) :
  forallb (fun c => negb (is_space c)) (list_ascii_of_string (NilEmpty.string_of_uint u)) = true.
Proof. induction u; simpl; auto. Qed.

Lemma digitpart_rest_uint (u : Decimal.uint) :
  digitpart_rest (list_ascii_of_string (NilEmpty.string_of_uint u)) = (uint_digits u, []).
Proof. induction u; simpl; try rewrite IHu; reflexivity. Qed.

Definition digit_step (acc : Z) (d : nat) : Z := (acc * 10 + Z.of_nat d)%Z.

Lemma fold_uint_digits (u : Decimal.uint) (acc : positive) :
  fold_left digit_step (uint_digits u) (Zpos acc) = Zpos (Pos.of_uint_acc u acc).
Proof.
  revert acc; induction u; intros acc; cbn [fold_left uint_digits Pos.of_uint_acc];
    try reflexivity; rewrite <- IHu; f_equal; unfold digit_step;
    rewrite ?Pos2Z.inj_add, ?Pos2Z.inj_mul; simpl Z.of_nat; lia.
Qed.

(** The digits Stdlib prints are read back by [digitpart] to their value. *)
Lemma digits_value_uint (u : Decimal.uint) :
  digits_value (uint_digits u) = Z.of_uint u.
Proof.
  unfold digits_value, Z.of_uint; fold digit_step.
  induction u; simpl; try reflexivity; try exact IHu;
    unfold digit_step at 2; simpl; apply fold_uint_digits.
Qed.

Lemma digitpart_uint (u : Decimal.uint) :
  u <> Decimal.Nil ->
  digitpart (list_ascii_of_string (NilEmpty.string_of_uint u)) = Some (uint_digits u, []).
Proof.
  intros Hu; destruct u; [congruence| ..]; simpl; rewrite digitpart_rest_uint; reflexivity.
Qed.

Lemma sign_uint (u : Decimal.uint) :
  u <> Decimal.Nil ->
  sign (list_ascii_of_string (NilEmpty.string_of_uint u)) =
  (false, list_ascii_of_string (NilEmpty.string_of_uint u)).
Proof. intros Hu; destruct u; [congruence| ..]; reflexivity. Qed.

(** [int(s)] on the decimal digits of [u], with or without a minus. *)
Lemma py_int_uint (u : Decimal.uint) (neg : bool) :
  u <> Decimal.Nil ->
  py_int (if neg then String "-" (NilEmpty.string_of_uint u) else NilEmpty.string_of_uint u) =
  Some (if neg then (- Z.of_uint u)%Z else Z.of_uint u).
Proof.
  intros Hu; unfold py_int; destruct neg.
  - change (list_ascii_of_string (String "-" (NilEmpty.string_of_uint u))) with
      ("-"%char :: list_ascii_of_string (NilEmpty.string_of_uint u)).
    rewrite strip_id by (cbn [forallb]; rewrite digits_no_space; reflexivity).
    change (sign ("-"%char :: ?l)) with (true, l); cbv iota beta.
    rewrite digitpart_uint, digits_value_uint by exact Hu; reflexivity.
  - rewrite strip_id by apply digits_no_space.
    rewrite sign_uint, digitpart_uint, digits_value_uint by exact Hu; reflexivity.
Qed.

Lemma nilzero_nonnil (u : Decimal.uint) :
  u <> Decimal.Nil -> NilZero.string_of_uint u = NilEmpty.string_of_uint u.
Proof. intros Hu; destruct u; [congruence| ..]; reflexivity. Qed.

(** Python's [int(str(n)) == n]: the decimal text [str] prints for
    an int (the GUI builds [--bea_draws] and the other counts this way)
    is read back by [int] (argparse's [type=int]) to the same number,
    negative numbers and [0] included. *)
Theorem py_int_str_roundtrip (z : Z) : py_int (py_str_int z) = Some z.
Proof.
  unfold py_str_int; destruct z as [|p|p]; [reflexivity| |];
    pose proof (DecimalPos.Unsigned.to_uint_nonnil p) as Hn; simpl Z.to_int;
    unfold NilZero.string_of_int; rewrite nilzero_nonnil by exact Hn.
  - rewrite (py_int_uint _ false Hn); unfold Z.of_uint; rewrite DecimalPos.Unsigned.of_to; reflexivity.
  - rewrite (py_int_uint _ true Hn); unfold Z.of_uint; rewrite DecimalPos.Unsigned.of_to; reflexivity.
Qed.

(** A non-negative int prints with a leading digit. *)
Lemma py_str_int_digit (z : Z) :
  (0 <= z)%Z -> exists c s, py_str_int z = String c s /\ digit_val c <> None.
Proof.
  intros Hz; unfold py_str_int; destruct z as [|p|p]; [|simpl Z.to_int | lia].
  - exists "0"%char, EmptyString; split; [reflexivity | discriminate].
  - pose proof (DecimalPos.Unsigned.to_uint_nonnil p) as Hn.
    unfold NilZero.string_of_int; rewrite nilzero_nonnil by exact Hn.
    destruct (Pos.to_uint p); [congruence| ..]; cbn; eexists; eexists; (split; [reflexivity | discriminate]).
Qed.
