(* ===== verification/Argparse.v ===== *)
(** * [argparse.ArgumentParser.parse_args] (CPython 3.11) for parsers
    whose arguments are all options

    [cli.main] declares only options ([--zircon], [--seed], ...), so the
    positional machinery of argparse is idle: every token it does not
    consume as an option or an option's value is an "extra".  The model
    follows [Lib/argparse.py]: [_parse_optional] and [_get_option_tuples]
    classify each token ([O], [A], or the [--] marker after which every
    token is [A]; an ambiguous abbreviation exits at once), then
    [consume_optional] walks the options in order (an option with one
    value takes the next token only if it is [A]; [--opt=v] gives an
    explicit value; [-xyz] splits single-dash flags), [take_action]
    converts values with [type] ([PyNum]) and stores them, [-h] exits
    with status 0, and at the end missing required options, then extras,
    exit with status 2.  [parser.error] and [parser.exit] are
    [SystemExit]; printing is not modelled. *)

From S2P Require Import Prelude PyNum.
From Stdlib Require Import Ascii.
Local Open Scope string_scope.

Module Argparse.

Inductive ValType := TStr | TFloat | TInt.

Inductive ActKind :=
| Store (t : ValType)
| StoreTrue
| Help.

Inductive ArgVal :=
| VNone
| VStr (s : string)
| VFloat (x : PyFloat)
| VInt (z : Z)
| VBool (b : bool)
| VEmptyList.

Record Action := {
  act_opts : list string;
  act_dest : string;
  act_kind : ActKind;
  act_required : bool;
  act_default : ArgVal
}.

(** [add_help=True] puts [-h/--help] first. *)
Definition help_action : Action :=
  {| act_opts := ["-h"; "--help"]; act_dest := "help"; act_kind := Help;
     act_required := false; act_default := VNone |}.

Definition all_actions (acts : list Action) : list Action := help_action :: acts.

(** [parser._option_string_actions], in insertion order. *)
Definition option_actions (acts : list Action) : list (string * Action) :=
  flat_map (fun a => map (fun o => (o, a)) (act_opts a)) (all_actions acts).

Definition lookup (acts : list Action) (s : string) : option Action :=
  option_map snd (find (fun p => String.eqb (fst p) s) (option_actions acts)).

(** How a token was classified. *)
Inductive Slot :=
| SArg
| SDash
| SOpt (a : option Action) (opt : string) (explicit : option string).

Record PState := {
  ps_ns : list (string * ArgVal);
  ps_seen : list string;
  ps_extras : list string
}.

Definition usage_error {A : Type} : result A := Err (SystemExit 2).

(** ** Strings *)

(** [s.split("=", 1)] when [s] contains ["="]. *)
Fixpoint split_eq (s : string) : option (string * string) :=
  match s with
  | EmptyString => None
  | String c s' =>
      if Ascii.eqb c "=" then Some (EmptyString, s')
      else match split_eq s' with Some (a, b) => Some (String c a, b) | None => None end
  end.

Definition all_digits (l : list ascii) : bool := forallb (fun c => match digit_val c with Some _ => true | None => false end) l.

Fixpoint split_dot (l : list ascii) : option (list ascii * list ascii) :=
  match l with
  | [] => None
  | c :: l' =>
      if Ascii.eqb c "." then Some ([], l')
      else match split_dot l' with Some (a, b) => Some (c :: a, b) | None => None end
  end.

(** [_negative_number_matcher]: [^-\d+$|^-\d*\.\d+$]. *)
Definition is_negative_number (s : string) : bool :=
  match list_ascii_of_string s with
  | c :: t =>
      Ascii.eqb c "-" &&
      ((negb (Nat.eqb (length t) 0) && all_digits t) ||
       match split_dot t with
       | Some (a, b) => all_digits a && all_digits b && negb (Nat.eqb (length b) 0)
       | None => false
       end)
  | [] => false
  end.

Definition has_space (s : string) : bool := existsb (Ascii.eqb " ") (list_ascii_of_string s).

Definition second_is_dash (s : string) : bool :=
  match String.get 1 s with Some c => Ascii.eqb c "-" | None => false end.

(** ** Classification ([_parse_optional], [_get_option_tuples]) *)

Definition option_tuples (acts : list Action) (s : string)
  : list (option Action * string * option string) :=
  if second_is_dash s then
    let '(pre, expl) := match split_eq s with Some (a, b) => (a, Some b) | None => (s, None) end in
    map (fun p => (Some (snd p), fst p, expl))
        (filter (fun p => String.prefix pre (fst p)) (option_actions acts))
  else
    let short := substring 0 2 s in
    let short_expl := substring 2 (String.length s - 2) s in
    flat_map (fun p => if String.eqb (fst p) short then [(Some (snd p), fst p, Some short_expl)]
                       else if String.prefix s (fst p) then [(Some (snd p), fst p, None)]
                       else [])
             (option_actions acts).

Definition has_negative_number_optionals (acts : list Action) : bool :=
  existsb (fun p => is_negative_number (fst p)) (option_actions acts).

Definition parse_optional (acts : list Action) (s : string)
  : result (option (option Action * string * option string)) :=
  match s with
  | EmptyString => Ok None
  | String c _ =>
      if negb (Ascii.eqb c "-") then Ok None
      else match lookup acts s with
      | Some a => Ok (Some (Some a, s, None))
      | None =>
          if Nat.eqb (String.length s) 1 then Ok None
          else match match split_eq s with
                     | Some (o, e) => match lookup acts o with Some a => Some (Some a, o, Some e) | None => None end
                     | None => None
                     end with
          | Some t => Ok (Some t)
          | None =>
              match option_tuples acts s with
              | _ :: _ :: _ => usage_error
              | [t] => Ok (Some t)
              | [] =>
                  if is_negative_number s && negb (has_negative_number_optionals acts) then Ok None
                  else if has_space s then Ok None
                  else Ok (Some (None, s, None))
              end
          end
      end
  end.

Fixpoint classify (acts : list Action) (args : list string) : result (list (string * Slot)) :=
  match args with
  | [] => Ok []
  | s :: rest =>
      if String.eqb s "--" then Ok ((s, SDash) :: map (fun t => (t, SArg)) rest)
      else
        (c <- parse_optional acts s ;;
         r <- classify acts rest ;;
         Ok ((s, match c with None => SArg | Some (a, o, e) => SOpt a o e end) :: r))%result
  end.

(** ** Actions ([_get_values], [_get_value], [take_action]) *)

Definition convert (t : ValType) (s : string) : result ArgVal :=
  match t with
  | TStr => Ok (VStr s)
  | TFloat => match py_float s with Some x => Ok (VFloat x) | None => usage_error end
  | TInt => match py_int s with Some z => Ok (VInt z) | None => usage_error end
  end.

Fixpoint remove_first (x : string) (l : list string) : list string :=
  match l with
  | [] => []
  | y :: l' => if String.eqb x y then l' else y :: remove_first x l'
  end.

(** [_get_values]: the first ["--"] is dropped; one string is converted,
    no string gives an empty list. *)
Definition get_values (a : Action) (args : list string) : result ArgVal :=
  match act_kind a, remove_first "--" args with
  | Store t, [s] => convert t s
  | _, _ => Ok VEmptyList
  end.

Definition nargs (a : Action) : nat :=
  match act_kind a with Store _ => 1 | _ => 0 end.

Definition set_dest (d : string) (v : ArgVal) (ns : list (string * ArgVal)) : list (string * ArgVal) :=
  (d, v) :: filter (fun p => negb (String.eqb (fst p) d)) ns.

Definition take_action (a : Action) (args : list string) (st : PState) : result PState :=
  (v <- get_values a args ;;
   let seen := act_dest a :: ps_seen st in
   match act_kind a with
   | Store _ => Ok {| ps_ns := set_dest (act_dest a) v (ps_ns st); ps_seen := seen; ps_extras := ps_extras st |}
   | StoreTrue => Ok {| ps_ns := set_dest (act_dest a) (VBool true) (ps_ns st); ps_seen := seen;
                        ps_extras := ps_extras st |}
   | Help => Err (SystemExit 0)
   end)%result.

Fixpoint take_actions (l : list (Action * list string)) (st : PState) : result PState :=
  match l with
  | [] => Ok st
  | (a, args) :: l' => (st' <- take_action a args st ;; take_actions l' st')%result
  end.

(** ** [consume_optional] *)

(** The [while True] loop: an explicit value, or the single-dash flags
    packed in [-xyz], or the following [A] token. *)
Fixpoint consume (fuel : nat) (acts : list Action) (a : Action) (o : string) (expl : option string)
  (rest : list (string * Slot)) (acc : list (Action * list string))
  : result (list (Action * list string) * list (string * Slot)) :=
  match expl with
  | Some e =>
      match nargs a with
      | O =>
          if negb (second_is_dash o) && negb (String.eqb e EmptyString) then
            match e, fuel with
            | String c e', S fuel' =>
                let o' := String "-" (String c EmptyString) in
                match lookup acts o' with
                | Some a' => consume fuel' acts a' o' (if String.eqb e' EmptyString then None else Some e')
                               rest (app acc [(a, [])])
                | None => usage_error
                end
            | _, _ => usage_error
            end
          else usage_error
      | _ => Ok (app acc [(a, [e])], rest)
      end
  | None =>
      match nargs a, rest with
      | O, _ => Ok (app acc [(a, [])], rest)
      | _, (v, SArg) :: rest' => Ok (app acc [(a, [v])], rest')
      | _, _ => usage_error
      end
  end.

(** The main loop: tokens not consumed by an option are extras. *)
Fixpoint walk (fuel : nat) (acts : list Action) (toks : list (string * Slot)) (st : PState)
  : result PState :=
  match fuel with
  | O => Ok st
  | S fuel' =>
      match toks with
      | [] => Ok st
      | (s, SOpt (Some a) o e) :: rest =>
          (r <- consume (String.length s) acts a o e rest [] ;;
           st' <- take_actions (fst r) st ;;
           walk fuel' acts (snd r) st')%result
      | (s, _) :: rest =>
          walk fuel' acts rest {| ps_ns := ps_ns st; ps_seen := ps_seen st; ps_extras := app (ps_extras st) [s] |}
      end
  end.

Definition defaults (acts : list Action) : list (string * ArgVal) :=
  map (fun a => (act_dest a, act_default a)) acts.

(** After the loop: missing required options, then extras, exit. *)
Definition finish (acts : list Action) (st : PState) : result (list (string * ArgVal)) :=
  if existsb (fun a => act_required a && negb (existsb (String.eqb (act_dest a)) (ps_seen st))) acts
  then usage_error
  else match ps_extras st with
       | [] => Ok (ps_ns st)
       | _ => usage_error
       end.

(** [_parse_known_args] from a state, then [parse_args]' extras check. *)
Definition parse_from (acts : list Action) (args : list string) (st : PState)
  : result (list (string * ArgVal)) :=
  (toks <- classify acts args ;;
   st' <- walk (length toks) acts toks st ;;
   finish acts st')%result.

Definition init_state (acts : list Action) : PState :=
  {| ps_ns := defaults acts; ps_seen := []; ps_extras := [] |}.

(** [parser.parse_args(args)]: the namespace, or [SystemExit]. *)
Definition parse_args (acts : list Action) (args : list string) : result (list (string * ArgVal)) :=
  parse_from acts args (init_state acts).

Definition get (ns : list (string * ArgVal)) (d : string) : ArgVal :=
  match find (fun p => String.eqb (fst p) d) ns with Some (_, v) => v | None => VNone end.

(** An option, given in full, that stores one value. *)
Definition is_store_opt (acts : list Action) (o : string) : bool :=
  negb (String.eqb o "--") &&
  match parse_optional acts o with
  | Ok (Some (Some a, o', None)) =>
      String.eqb o o' && match act_kind a with Store _ => true | _ => false end
  | _ => false
  end.

(** The tokens [o1 v1 o2 v2 ...] of option/value pairs. *)
Definition pair_tokens (ps : list (string * string)) : list string :=
  flat_map (fun p => [fst p; snd p]) ps.

(** ** The namespace's types and an abstract specification *)

(** A value of the option's type ([type=], [store_true]), its default,
    or the empty list an explicit [--opt=--] stores. *)
Definition typed (a : Action) (v : ArgVal) : Prop :=
  v = act_default a \/
  match act_kind a, v with
  | Store TStr, VStr _ | Store TFloat, VFloat _ | Store TInt, VInt _ | Store _, VEmptyList => True
  | StoreTrue, VBool true => True
  | _, _ => False
  end.

Definition ns_typed (acts : list Action) (ns : list (string * ArgVal)) : Prop :=
  Forall (fun a => typed a (get ns (act_dest a))) acts.

(** The actions in the classified tokens are the parser's. *)
Definition from_parser (acts : list Action) (toks : list (string * Slot)) : Prop :=
  forall s a o e, In (s, SOpt (Some a) o e) toks -> In a (all_actions acts).

(** What one [--opt value] pair stores: the destination and the
    converted value, or nothing when the conversion fails. *)
Definition store_value (acts : list Action) (o v : string) : option (string * ArgVal) :=
  match parse_optional acts o with
  | Ok (Some (Some a, _, None)) =>
      match act_kind a with
      | Store t => match convert t v with Ok x => Some (act_dest a, x) | Err _ => None end
      | _ => None
      end
  | _ => None
  end.

Fixpoint spec_updates (acts : list Action) (ps : list (string * string)) : option (list (string * ArgVal)) :=
  match ps with
  | [] => Some []
  | (o, v) :: ps' =>
      match store_value acts o v, spec_updates acts ps' with
      | Some u, Some us => Some (u :: us)
      | _, _ => None
      end
  end.

(** The specification: the defaults updated pair by pair (a later pair
    wins), provided every value converts and every required option is
    given; otherwise exit status 2. *)
Definition spec_parse (acts : list Action) (ps : list (string * string)) : result (list (string * ArgVal)) :=
  match spec_updates acts ps with
  | None => usage_error
  | Some us =>
      if existsb (fun a => act_required a && negb (existsb (String.eqb (act_dest a)) (map fst us))) acts
      then usage_error
      else Ok (fold_left (fun ns u => set_dest (fst u) (snd u) ns) us (defaults acts))
  end.

Definition apply_update (st : PState) (u : string * ArgVal) : PState :=
  {| ps_ns := set_dest (fst u) (snd u) (ps_ns st); ps_seen := fst u :: ps_seen st; ps_extras := ps_extras st |}.

(** A value token that argparse cannot take for an option. *)
Definition plain (v : string) : Prop := exists c s, v = String c s /\ Ascii.eqb c "-" = false.

(** ** Lemmas *)

(** Case analysis on the [match]es of a hypothesis, discarding errors. *)
Ltac crush_matches :=
  repeat match goal with
  | H : context [match ?x with _ => _ end] |- _ => destruct x eqn:?; try discriminate
  | H : Ok _ = Ok _ |- _ => injection H as ?
  end.

(** [consume_optional] never gives back tokens. *)
Lemma consume_rest (fuel : nat) (acts : list Action) (a : Action) (o : string) (e : option string)
  (rest : list (string * Slot)) (acc : list (Action * list string)) (l : list (Action * list string))
  (rest' : list (string * Slot)) :
  consume fuel acts a o e rest acc = Ok (l, rest') -> (length rest' <= length rest)%nat.
Proof.
  revert a o e acc; induction fuel as [|fuel IH]; intros a o e acc H; destruct e as [e|];
    simpl in H; crush_matches; subst; simpl; try lia; eauto.
Qed.

Lemma walk_fuel_gen (acts : list Action) (f1 f2 : nat) (toks : list (string * Slot)) (st : PState) :
  (length toks <= f1)%nat -> (length toks <= f2)%nat ->
  walk f1 acts toks st = walk f2 acts toks st.
Proof.
  revert f2 toks st; induction f1 as [|f1 IH]; intros f2 toks st H1 H2.
  - destruct toks; [destruct f2; reflexivity | simpl in H1; lia].
  - destruct f2 as [|f2]; [destruct toks; [reflexivity | simpl in H2; lia]|].
    destruct toks as [|[s sl] rest]; [reflexivity|]; simpl in H1, H2; simpl.
    destruct sl as [| |[a|] o e]; try (apply IH; lia).
    destruct (consume _ _ _ _ _ _ _) as [[l rest']|err] eqn:Hc; [|reflexivity]; simpl.
    apply consume_rest in Hc.
    destruct (take_actions l st) as [st'|err]; [apply IH; lia | reflexivity].
Qed.

(** the token walk of [_parse_known_args] terminates within its
    fuel: every step consumes at least one token, so any fuel at least the
    number of tokens gives the same result as exactly that many. *)
Theorem walk_fuel (acts : list Action) (f : nat) (toks : list (string * Slot)) (st : PState) :
  (length toks <= f)%nat -> walk f acts toks st = walk (length toks) acts toks st.
Proof. intros H; apply walk_fuel_gen; lia. Qed.

Lemma parse_optional_err (acts : list Action) (s : string) (e : PyExc) :
  parse_optional acts s = Err e -> e = SystemExit 2.
Proof.
  unfold parse_optional, usage_error; intros H; crush_matches; congruence.
Qed.

Lemma classify_err (acts : list Action) (args : list string) (e : PyExc) :
  classify acts args = Err e -> e = SystemExit 2.
Proof.
  revert e; induction args as [|s args IH]; intros e; simpl; [discriminate|].
  destruct (String.eqb s "--"); [discriminate|].
  destruct (parse_optional acts s) as [c|e'] eqn:Hp; simpl; [|intros H; injection H as <-; eapply parse_optional_err; eauto].
  destruct (classify acts args) as [r|e'] eqn:Hr; simpl; [discriminate|].
  intros H; injection H as <-; apply IH; reflexivity.
Qed.

Lemma convert_err (t : ValType) (s : string) (e : PyExc) : convert t s = Err e -> e = SystemExit 2.
Proof. unfold convert, usage_error; intros H; crush_matches; congruence. Qed.

(** Storing one value: an exit with status 2, or the new state, with the
    extras unchanged and the destination seen. *)
Lemma take_action_store (a : Action) (t : ValType) (v : string) (st : PState) :
  act_kind a = Store t ->
  take_action a [v] st = usage_error \/
  exists st', take_action a [v] st = Ok st' /\ ps_extras st' = ps_extras st /\
              In (act_dest a) (ps_seen st').
Proof.
  intros Hk; unfold take_action, get_values; rewrite Hk; cbn [remove_first].
  destruct (String.eqb "--" v) eqn:Ev.
  - simpl; right; eexists; repeat split; left; reflexivity.
  - destruct (convert t v) as [x|e] eqn:Hc; simpl; rewrite ?Hk.
    + right; eexists; repeat split; left; reflexivity.
    + left; apply convert_err in Hc; subst; reflexivity.
Qed.

Lemma consume_store_none (fuel : nat) (acts : list Action) (a : Action) (t : ValType) (o : string)
  (rest : list (string * Slot)) (acc : list (Action * list string)) :
  act_kind a = Store t ->
  consume fuel acts a o None rest acc =
  match rest with
  | (v, SArg) :: rest' => Ok (app acc [(a, [v])], rest')
  | _ => usage_error
  end.
Proof.
  intros Hk; destruct fuel; cbn [consume]; unfold nargs; rewrite Hk;
    destruct rest as [|[v [| |]] rest]; reflexivity.
Qed.

Lemma walk_store_nonarg (f : nat) (acts : list Action) (a : Action) (t : ValType) (o v : string)
  (sl : Slot) (rest : list (string * Slot)) (st : PState) :
  act_kind a = Store t -> sl <> SArg ->
  walk (S f) acts ((o, SOpt (Some a) o None) :: (v, sl) :: rest) st = usage_error.
Proof.
  intros Hk Hsl; cbn [walk]; rewrite (consume_store_none _ _ _ t) by exact Hk.
  destruct sl; [congruence | reflexivity | reflexivity].
Qed.

(** One option that takes a value, followed by any token: an exit with
    status 2, or the value is stored and parsing goes on after the pair
    ([consume_optional] needs an [A] token next; an option-like token or
    the [--] marker there is "expected one argument"). *)
Lemma pair_step (acts : list Action) (a : Action) (t : ValType) (o v : string) (rest : list string)
  (st : PState) :
  act_kind a = Store t -> String.eqb o "--" = false ->
  parse_optional acts o = Ok (Some (Some a, o, None)) ->
  parse_from acts (o :: v :: rest) st = usage_error \/
  exists st', parse_from acts (o :: v :: rest) st = parse_from acts rest st' /\
              ps_extras st' = ps_extras st /\ In (act_dest a) (ps_seen st').
Proof.
  intros Hk Ho Hpo; unfold parse_from; cbn [classify]; rewrite Ho, Hpo; cbn [bind].
  destruct (String.eqb v "--") eqn:Ev; cbn [bind].
  - left; cbn [length map]; rewrite (walk_store_nonarg _ _ _ t) by (auto; discriminate); reflexivity.
  - destruct (parse_optional acts v) as [c|e] eqn:Hv; cbn [bind];
      [|left; apply parse_optional_err in Hv; subst; reflexivity].
    destruct (classify acts rest) as [r|e] eqn:Hr; cbn [bind];
      [|left; apply classify_err in Hr; subst; reflexivity].
    destruct c as [[[oa o'] e']|]; cbn [length].
    + left; rewrite (walk_store_nonarg _ _ _ t) by (auto; discriminate); reflexivity.
    + cbn [walk]; rewrite (consume_store_none _ _ _ t) by exact Hk; cbn [bind fst snd app take_actions].
      destruct (take_action_store a t v st Hk) as [E|(st' & E & Hx & Hs)]; rewrite E; cbn [bind].
      * left; reflexivity.
      * right; exists st'; split; [|split; assumption].
        rewrite <- (walk_fuel_gen acts (S (length r)) (length r)) by lia; reflexivity.
Qed.

(** Left-over tokens make [parse_args] exit with status 2, whatever
    options were seen. *)
Lemma finish_extras (acts : list Action) (st : PState) :
  ps_extras st <> [] -> finish acts st = usage_error.
Proof.
  intros H; unfold finish; destruct existsb; [reflexivity|].
  destruct (ps_extras st); [congruence | reflexivity].
Qed.

Lemma classify_cons (acts : list Action) (s : string) (rest : list string) :
  String.eqb s "--" = false ->
  classify acts (s :: rest) =
  (c <- parse_optional acts s ;;
   r <- classify acts rest ;;
   Ok ((s, match c with None => SArg | Some (a, o, e) => SOpt a o e end) :: r))%result.
Proof. intros H; cbn [classify]; rewrite H; reflexivity. Qed.

(** A token that does not start with [-] is an argument. *)
Lemma parse_optional_plain (acts : list Action) (c : ascii) (s : string) :
  Ascii.eqb c "-" = false -> parse_optional acts (String c s) = Ok None.
Proof. intros H; cbn [parse_optional]; rewrite H; reflexivity. Qed.

Lemma eqb_dashdash_plain (c : ascii) (s : string) :
  Ascii.eqb c "-" = false -> String.eqb (String c s) "--" = false.
Proof. intros H; cbn [String.eqb]; rewrite H; reflexivity. Qed.

Lemma is_store_opt_spec (acts : list Action) (o : string) :
  is_store_opt acts o = true ->
  exists a t, act_kind a = Store t /\ String.eqb o "--" = false /\
              parse_optional acts o = Ok (Some (Some a, o, None)).
Proof.
  unfold is_store_opt; intros H; apply andb_prop in H as [Hd H]; apply negb_true_iff in Hd.
  destruct (parse_optional acts o) as [[[[[a|] o'] [e|]]|]|]; try discriminate.
  apply andb_prop in H as [Ho Hk]; apply String.eqb_eq in Ho; subst o'.
  destruct (act_kind a) as [t| |] eqn:Ek; try discriminate; eauto.
Qed.

(** Option/value pairs in front of tokens that always fail leave the
    failure: each pair either fails itself or only moves the state on. *)
Lemma pairs_then_error (acts : list Action) (ps : list (string * string)) (rest : list string) :
  forallb (fun p => is_store_opt acts (fst p)) ps = true ->
  (forall st, parse_from acts rest st = usage_error) ->
  forall st, parse_from acts (app (pair_tokens ps) rest) st = usage_error.
Proof.
  intros Hps Hrest; induction ps as [|[o v] ps IH]; intros st; [apply Hrest|].
  cbn [forallb fst] in Hps; apply andb_prop in Hps as [Ho Hps].
  destruct (is_store_opt_spec acts o Ho) as (a & t & Hk & Hd & Hpo).
  change (app (pair_tokens ((o, v) :: ps)) rest) with (o :: v :: app (pair_tokens ps) rest).
  destruct (pair_step acts a t o v (app (pair_tokens ps) rest) st Hk Hd Hpo) as [E|(st' & E & _)];
    rewrite E; [reflexivity | apply IH, Hps].
Qed.

Lemma option_actions_in (acts : list Action) (o : string) (a : Action) :
  In (o, a) (option_actions acts) -> In a (all_actions acts).
Proof.
  unfold option_actions; rewrite in_flat_map; intros (b & Hb & Hin).
  apply in_map_iff in Hin as (o' & [= _ <-] & _); exact Hb.
Qed.

Lemma lookup_in (acts : list Action) (s : string) (a : Action) :
  lookup acts s = Some a -> In a (all_actions acts).
Proof.
  unfold lookup; destruct (find _ _) as [[o b]|] eqn:E; cbn; [intros [= <-] | discriminate].
  apply find_some in E as [E _]; eapply option_actions_in, E.
Qed.

Lemma option_tuples_in (acts : list Action) (s o : string) (e : option string) (a : Action) :
  In (Some a, o, e) (option_tuples acts s) -> In a (all_actions acts).
Proof.
  unfold option_tuples; destruct (second_is_dash s).
  - destruct (match split_eq s with Some _ => _ | None => _ end) as [pre expl].
    rewrite in_map_iff; intros ([o' b] & [= <- _ _] & Hp); apply filter_In in Hp as [Hp _].
    eapply option_actions_in, Hp.
  - rewrite in_flat_map; intros ([o' b] & Hp & Hin); cbn in Hin.
    destruct (String.eqb o' _); [|destruct (String.prefix s o')]; cbn in Hin;
      [destruct Hin as [[= <- _ _]|[]] .. | contradiction]; eapply option_actions_in, Hp.
Qed.

Lemma parse_optional_in (acts : list Action) (s o : string) (e : option string) (a : Action) :
  parse_optional acts s = Ok (Some (Some a, o, e)) -> In a (all_actions acts).
Proof.
  unfold parse_optional; destruct s as [|c s']; [discriminate|].
  destruct (negb _); [discriminate|].
  destruct (lookup acts _) as [b|] eqn:L; [intros [= <- _ _]; eapply lookup_in, L|].
  destruct (Nat.eqb _ 1); [discriminate|].
  destruct (split_eq _) as [[o' e']|]; [destruct (lookup acts o') as [b|] eqn:L'|].
  - intros [= <- _ _]; eapply lookup_in, L'.
  - destruct (option_tuples acts _) as [|t [|t' l]] eqn:T; try discriminate.
    + destruct (_ && _); [discriminate|]; destruct (has_space _); discriminate.
    + intros [= ->]; eapply option_tuples_in; rewrite T; left; reflexivity.
  - destruct (option_tuples acts _) as [|t [|t' l]] eqn:T; try discriminate.
    + destruct (_ && _); [discriminate|]; destruct (has_space _); discriminate.
    + intros [= ->]; eapply option_tuples_in; rewrite T; left; reflexivity.
Qed.

(** The option string [parse_optional] reports is one of the action's
    own option strings. *)
Lemma lookup_pair (acts : list Action) (s : string) (a : Action) :
  lookup acts s = Some a -> In (s, a) (option_actions acts).
Proof.
  unfold lookup; destruct (find _ _) as [[o b]|] eqn:E; cbn; [intros [= <-] | discriminate].
  apply find_some in E as [E Eo]; apply String.eqb_eq in Eo; cbn in Eo; subst o; exact E.
Qed.

Lemma option_tuples_pair (acts : list Action) (s o : string) (e : option string) (a : Action) :
  In (Some a, o, e) (option_tuples acts s) -> In (o, a) (option_actions acts).
Proof.
  unfold option_tuples; destruct (second_is_dash s).
  - destruct (match split_eq s with Some _ => _ | None => _ end) as [pre expl].
    rewrite in_map_iff; intros ([o' b] & [= <- <- _] & Hp); apply filter_In in Hp as [Hp _]; exact Hp.
  - rewrite in_flat_map; intros ([o' b] & Hp & Hin); cbn in Hin.
    destruct (String.eqb o' _); [|destruct (String.prefix s o')]; cbn in Hin;
      [destruct Hin as [[= <- <- _]|[]] .. | contradiction]; exact Hp.
Qed.

Lemma parse_optional_pair (acts : list Action) (s o : string) (e : option string) (a : Action) :
  parse_optional acts s = Ok (Some (Some a, o, e)) -> In (o, a) (option_actions acts).
Proof.
  unfold parse_optional; destruct s as [|c s']; [discriminate|].
  destruct (negb _); [discriminate|].
  destruct (lookup acts _) as [b|] eqn:L; [intros [= <- <- _]; apply lookup_pair, L|].
  destruct (Nat.eqb _ 1); [discriminate|].
  destruct (split_eq _) as [[o' e']|]; [destruct (lookup acts o') as [b|] eqn:L'|].
  - intros [= <- <- _]; apply lookup_pair, L'.
  - destruct (option_tuples acts _) as [|t [|t' l]] eqn:T; try discriminate.
    + destruct (_ && _); [discriminate|]; destruct (has_space _); discriminate.
    + intros [= ->]; eapply option_tuples_pair; rewrite T; left; reflexivity.
  - destruct (option_tuples acts _) as [|t [|t' l]] eqn:T; try discriminate.
    + destruct (_ && _); [discriminate|]; destruct (has_space _); discriminate.
    + intros [= ->]; eapply option_tuples_pair; rewrite T; left; reflexivity.
Qed.

(** Every update of [spec_updates] comes from a pair whose option
    string names the action of the updated destination. *)
Lemma spec_updates_dests (acts : list Action) (ps : list (string * string)) (us : list (string * ArgVal)) :
  forallb (fun p => is_store_opt acts (fst p)) ps = true ->
  spec_updates acts ps = Some us ->
  forall d, In d (map fst us) -> exists p a, In p ps /\ In (fst p, a) (option_actions acts) /\ act_dest a = d.
Proof.
  revert us; induction ps as [|[o v] ps IH]; intros us Ho Hu d Hd.
  - cbn in Hu; injection Hu as <-; destruct Hd.
  - cbn [forallb fst] in Ho; apply andb_prop in Ho as [Ho1 Ho]; cbn [spec_updates] in Hu.
    destruct (store_value acts o v) as [[d0 x]|] eqn:Es; [|discriminate].
    destruct (spec_updates acts ps) as [us'|] eqn:Eu; [|discriminate]; injection Hu as <-.
    destruct Hd as [<-|Hd].
    + destruct (is_store_opt_spec _ _ Ho1) as (a & t & Hk & _ & Hpo).
      unfold store_value in Es; rewrite Hpo, Hk in Es; destruct (convert t v); [|discriminate].
      injection Es as <- _; exists (o, v), a; split; [left; reflexivity|].
      split; [exact (parse_optional_pair _ _ _ _ _ Hpo) | reflexivity].
    + destruct (IH us' Ho eq_refl d Hd) as (p & a & Hp & Hin & Ha).
      exists p, a; split; [right; exact Hp | auto].
Qed.

Lemma classify_in (acts : list Action) (args : list string) (toks : list (string * Slot)) :
  classify acts args = Ok toks -> from_parser acts toks.
Proof.
  revert toks; induction args as [|s args IH]; intros toks H s' a o e Hin; cbn [classify] in H.
  - injection H as <-; destruct Hin.
  - destruct (String.eqb s "--").
    + injection H as <-; destruct Hin as [[=]|Hin]; apply in_map_iff in Hin as (t & [=] & _).
    + apply bind_ok in H as (c & Hc & H); apply bind_ok in H as (r & Hr & H); injection H as <-.
      destruct Hin as [E|Hin]; [|eapply IH; eauto].
      destruct c as [[[b o'] e']|]; [|discriminate]; injection E as -> -> ->.
      eapply parse_optional_in, Hc.
Qed.

(** [consume_optional] takes actions of the parser, and leaves the
    tokens it was given or drops the first one. *)
Lemma consume_in (fuel : nat) (acts : list Action) (a : Action) (o : string) (e : option string)
  (rest : list (string * Slot)) (acc l : list (Action * list string)) (rest' : list (string * Slot)) :
  consume fuel acts a o e rest acc = Ok (l, rest') ->
  In a (all_actions acts) -> Forall (fun p => In (fst p) (all_actions acts)) acc ->
  Forall (fun p => In (fst p) (all_actions acts)) l /\ (rest' = rest \/ exists x, rest = x :: rest').
Proof.
  revert a o e acc; induction fuel as [|fuel IH]; intros a o e acc H Ha Hacc;
    destruct e as [e|]; cbn [consume] in H.
  - destruct (nargs a); [|injection H as <- <-; split; [apply Forall_app; auto | auto]].
    destruct (_ && _); [destruct e; discriminate | discriminate].
  - destruct (nargs a) as [|n]; [injection H as <- <-; split; [apply Forall_app; auto | auto]|].
    destruct rest as [|[v [| |]] r]; try discriminate.
    injection H as <- <-; split; [apply Forall_app; auto | eauto].
  - destruct (nargs a); [|injection H as <- <-; split; [apply Forall_app; auto | auto]].
    destruct (_ && _); [|discriminate].
    destruct e as [|c e']; [discriminate|].
    destruct (lookup acts _) as [b|] eqn:L; [|discriminate].
    eapply IH; [exact H | eapply lookup_in, L | apply Forall_app; auto].
  - destruct (nargs a) as [|n]; [injection H as <- <-; split; [apply Forall_app; auto | auto]|].
    destruct rest as [|[v [| |]] r]; try discriminate.
    injection H as <- <-; split; [apply Forall_app; auto | eauto].
Qed.

Lemma find_filter_irrelevant {A : Type} (p q : A -> bool) (l : list A) :
  (forall x, p x = true -> q x = true) -> find p (filter q l) = find p l.
Proof.
  intros H; induction l as [|x l IH]; [reflexivity|]; cbn [filter find].
  destruct (p x) eqn:Ep; [rewrite (H x Ep); cbn [find]; rewrite Ep; reflexivity|].
  destruct (q x); cbn [find]; [rewrite Ep|]; exact IH.
Qed.

Lemma get_set_dest (d d' : string) (v : ArgVal) (ns : list (string * ArgVal)) :
  get (set_dest d v ns) d' = if String.eqb d d' then v else get ns d'.
Proof.
  unfold get, set_dest; cbn [find fst].
  destruct (String.eqb d d') eqn:E; [reflexivity|].
  rewrite find_filter_irrelevant; [reflexivity|].
  intros [k w] Hk; cbn in *; apply String.eqb_eq in Hk; subst k; rewrite String.eqb_sym, E; reflexivity.
Qed.

Lemma NoDup_map_eq {A B : Type} (f : A -> B) (l : list A) (a b : A) :
  NoDup (map f l) -> In a l -> In b l -> f a = f b -> a = b.
Proof.
  induction l as [|x l IH]; intros Hnd Ha Hb E; [destruct Ha|].
  inversion Hnd as [|? ? Hx Hnd']; subst.
  destruct Ha as [<-|Ha], Hb as [<-|Hb]; auto;
    exfalso; apply Hx; [rewrite E | rewrite <- E]; apply in_map; assumption.
Qed.

Lemma get_values_typed (a : Action) (args : list string) (v : ArgVal) :
  get_values a args = Ok v ->
  match act_kind a with Store t => typed a v | _ => v = VEmptyList end.
Proof.
  unfold get_values; destruct (act_kind a) as [t| |] eqn:K;
    [|destruct (remove_first "--" args); congruence ..].
  destruct (remove_first "--" args) as [|s [|]]; try (intros [= <-]; right; rewrite K; destruct t; exact I).
  unfold typed; rewrite K; destruct t; cbn [convert];
    [intros [= <-]; right; exact I | destruct (py_float s) | destruct (py_int s)];
    try discriminate; intros [= <-]; right; exact I.
Qed.

Lemma take_action_typed (acts : list Action) (a : Action) (args : list string) (st st' : PState) :
  NoDup (map act_dest acts) -> In a (all_actions acts) ->
  ns_typed acts (ps_ns st) -> take_action a args st = Ok st' -> ns_typed acts (ps_ns st').
Proof.
  intros Hnd Ha Hns H; unfold take_action in H; apply bind_ok in H as (v & Hv & H).
  apply get_values_typed in Hv.
  destruct (act_kind a) as [t| |] eqn:K; [| |discriminate]; injection H as <-; cbn [ps_ns];
    unfold ns_typed in *; rewrite Forall_forall in Hns |- *; intros b Hb; rewrite get_set_dest;
    (destruct (String.eqb (act_dest a) (act_dest b)) eqn:E; [|apply Hns, Hb]);
    apply String.eqb_eq in E;
    (destruct Ha as [<-|Ha]; [discriminate K|]);
    assert (a = b) as <- by (eapply NoDup_map_eq; eauto).
  - exact Hv.
  - right; rewrite K; exact I.
Qed.

Lemma take_actions_typed (acts : list Action) (l : list (Action * list string)) (st st' : PState) :
  NoDup (map act_dest acts) -> Forall (fun p => In (fst p) (all_actions acts)) l ->
  ns_typed acts (ps_ns st) -> take_actions l st = Ok st' -> ns_typed acts (ps_ns st').
Proof.
  intros Hnd; revert st; induction l as [|[a args] l IH]; intros st Hl Hns H; cbn [take_actions] in H.
  - injection H as <-; exact Hns.
  - inversion Hl as [|? ? Ha Hl']; subst; apply bind_ok in H as (st1 & H1 & H).
    eapply IH; [exact Hl' | eapply take_action_typed; eauto | exact H].
Qed.

Lemma from_parser_tail (acts : list Action) (x : string * Slot) (toks : list (string * Slot)) :
  from_parser acts (x :: toks) -> from_parser acts toks.
Proof. intros H s a o e Hin; eapply H; right; exact Hin. Qed.

(** Every state the token walk reaches keeps the namespace typed. *)
Lemma walk_typed (acts : list Action) (f : nat) (toks : list (string * Slot)) (st st' : PState) :
  NoDup (map act_dest acts) -> from_parser acts toks ->
  ns_typed acts (ps_ns st) -> walk f acts toks st = Ok st' -> ns_typed acts (ps_ns st').
Proof.
  intros Hnd; revert toks st; induction f as [|f IH]; intros toks st Hp Hns H; cbn [walk] in H.
  - injection H as <-; exact Hns.
  - destruct toks as [|[s sl] rest]; [injection H as <-; exact Hns|].
    destruct sl as [| |[a|] o e];
      try (eapply IH; [ | | exact H]; [eapply from_parser_tail, Hp | exact Hns]).
    apply bind_ok in H as ([l rest'] & Hc & H); apply bind_ok in H as (st1 & H1 & H); cbn [fst snd] in *.
    apply consume_in in Hc as [Hl Hr]; [|eapply Hp; left; reflexivity | constructor].
    refine (IH rest' st1 _ _ H); [| eapply take_actions_typed; eauto].
    destruct Hr as [->|(x & ->)];
      [exact (from_parser_tail _ _ _ Hp) | exact (from_parser_tail _ _ _ (from_parser_tail _ _ _ Hp))].
Qed.

Lemma get_defaults (acts : list Action) (a : Action) :
  NoDup (map act_dest acts) -> In a acts -> get (defaults acts) (act_dest a) = act_default a.
Proof.
  intros Hnd Ha; unfold get, defaults.
  induction acts as [|b acts IH]; [destruct Ha|]; cbn [map find fst].
  inversion Hnd as [|? ? Hb Hnd']; subst.
  destruct (String.eqb (act_dest b) (act_dest a)) eqn:E.
  - apply String.eqb_eq in E; f_equal; symmetry; f_equal.
    eapply NoDup_map_eq; [exact Hnd | exact Ha | left; reflexivity | symmetry; exact E].
  - destruct Ha as [<-|Ha]; [rewrite String.eqb_refl in E; discriminate | apply IH; assumption].
Qed.

Lemma defaults_typed (acts : list Action) : NoDup (map act_dest acts) -> ns_typed acts (defaults acts).
Proof.
  intros Hnd; apply Forall_forall; intros a Ha; left; apply get_defaults; assumption.
Qed.

(** The namespace [parse_args] returns holds, for every option, its
    default or a value of the option's type. *)
Lemma parse_args_typed (acts : list Action) (args : list string) (ns : list (string * ArgVal)) :
  NoDup (map act_dest acts) -> parse_args acts args = Ok ns -> ns_typed acts ns.
Proof.
  intros Hnd H; unfold parse_args, parse_from in H.
  apply bind_ok in H as (toks & Ht & H); apply bind_ok in H as (st & Hw & H).
  unfold finish in H; destruct existsb; [discriminate|]; destruct (ps_extras st); [|discriminate].
  injection H as <-; eapply walk_typed; [exact Hnd | eapply classify_in, Ht | | exact Hw].
  apply defaults_typed, Hnd.
Qed.

Lemma take_action_value (a : Action) (t : ValType) (v : string) (st : PState) :
  act_kind a = Store t -> String.eqb "--" v = false ->
  take_action a [v] st =
  match convert t v with Ok x => Ok (apply_update st (act_dest a, x)) | Err _ => usage_error end.
Proof.
  intros Hk Hv; unfold take_action, get_values; rewrite Hk; cbn [remove_first]; rewrite Hv.
  destruct (convert t v) as [x|e] eqn:Hc; cbn [bind]; rewrite ?Hk; [reflexivity|].
  apply convert_err in Hc; subst; reflexivity.
Qed.

Lemma pair_step_plain (acts : list Action) (o v : string) (rest : list string) (st : PState) :
  is_store_opt acts o = true -> plain v ->
  parse_from acts (o :: v :: rest) st =
  match store_value acts o v with
  | Some u => parse_from acts rest (apply_update st u)
  | None => usage_error
  end.
Proof.
  intros Ho (c & s & -> & Hc); destruct (is_store_opt_spec acts o Ho) as (a & t & Hk & Hd & Hpo).
  unfold store_value; rewrite Hpo, Hk.
  unfold parse_from; rewrite (classify_cons _ o), Hpo by exact Hd; cbn [bind].
  rewrite (classify_cons _ (String c s)), (parse_optional_plain _ c s Hc)
    by (apply eqb_dashdash_plain, Hc); cbn [bind].
  assert (Hv : String.eqb "--" (String c s) = false)
    by (rewrite String.eqb_sym; apply eqb_dashdash_plain, Hc).
  destruct (classify acts rest) as [r|e] eqn:Hr; cbn [bind].
  - cbn [length walk]; rewrite (consume_store_none _ _ _ t) by exact Hk; cbn [bind fst snd app take_actions].
    rewrite (take_action_value a t _ st Hk Hv).
    destruct (convert t (String c s)) as [x|e]; cbn [bind]; [|reflexivity].
    rewrite <- (walk_fuel_gen acts (S (length r)) (length r)) by lia; reflexivity.
  - apply classify_err in Hr; subst; destruct (convert t _); reflexivity.
Qed.

Lemma pairs_plain (acts : list Action) (ps : list (string * string)) (st : PState) :
  forallb (fun p => is_store_opt acts (fst p)) ps = true -> Forall (fun p => plain (snd p)) ps ->
  parse_from acts (pair_tokens ps) st =
  match spec_updates acts ps with
  | Some us => finish acts (fold_left apply_update us st)
  | None => usage_error
  end.
Proof.
  revert st; induction ps as [|[o v] ps IH]; intros st Ho Hp; [reflexivity|].
  cbn [forallb fst] in Ho; apply andb_prop in Ho as [Ho Hos]; inversion Hp as [|? ? Hv Hps]; subst; cbn [snd] in Hv.
  change (pair_tokens ((o, v) :: ps)) with (o :: v :: pair_tokens ps).
  rewrite (pair_step_plain _ _ _ _ _ Ho Hv); cbn [spec_updates].
  destruct (store_value acts o v) as [u|]; [|reflexivity].
  rewrite (IH _ Hos Hps); destruct (spec_updates acts ps); reflexivity.
Qed.

Lemma existsb_ext' {A : Type} (f g : A -> bool) (l : list A) :
  (forall x, f x = g x) -> existsb f l = existsb g l.
Proof. intros H; induction l as [|x l IH]; cbn; [reflexivity | rewrite H, IH; reflexivity]. Qed.

Lemma fold_apply_update (us : list (string * ArgVal)) (st : PState) :
  ps_ns (fold_left apply_update us st) = fold_left (fun ns u => set_dest (fst u) (snd u) ns) us (ps_ns st) /\
  ps_extras (fold_left apply_update us st) = ps_extras st /\
  forall d, existsb (String.eqb d) (ps_seen (fold_left apply_update us st)) =
            existsb (String.eqb d) (map fst us) || existsb (String.eqb d) (ps_seen st).
Proof.
  revert st; induction us as [|u us IH]; intros st; cbn [fold_left map existsb]; [auto|].
  destruct (IH (apply_update st u)) as (E1 & E2 & E3); split; [exact E1|]; split; [exact E2|].
  intros d; rewrite E3; cbn [apply_update ps_seen existsb].
  destruct (String.eqb d (fst u)), (existsb _ (map fst us)), (existsb _ (ps_seen st)); reflexivity.
Qed.

(** on a command line of [--opt value] pairs (each option given in
    full and storing one value, each value a token not starting with
    [-]) argparse's token machine computes the specification
    [spec_parse]: the defaults updated pair by pair, later pairs winning,
    or exit status 2 when a value does not convert or a required option
    is missing. *)
Theorem parse_args_refines (acts : list Action) (ps : list (string * string)) :
  forallb (fun p => is_store_opt acts (fst p)) ps = true -> Forall (fun p => plain (snd p)) ps ->
  parse_args acts (pair_tokens ps) = spec_parse acts ps.
Proof.
  intros Ho Hp; unfold parse_args; rewrite (pairs_plain _ _ _ Ho Hp); unfold spec_parse.
  destruct (spec_updates acts ps) as [us|]; [|reflexivity].
  destruct (fold_apply_update us (init_state acts)) as (E1 & E2 & E3); unfold finish.
  rewrite (existsb_ext' _ (fun a => act_required a && negb (existsb (String.eqb (act_dest a)) (map fst us))))
    by (intros a; rewrite E3; cbn [init_state ps_seen existsb]; rewrite orb_false_r; reflexivity).
  destruct existsb; [reflexivity|]; rewrite E2, E1; reflexivity.
Qed.

(** ** Examples *)

Definition example_tokens : list (string * Slot) :=
  [("--seed", SOpt (Some help_action) "-h" None); ("7", SArg); ("x", SArg)].

Lemma walk_fuel_witness :
  (length example_tokens <= 10)%nat /\
  walk 10 [] example_tokens (init_state []) = walk (length example_tokens) [] example_tokens (init_state []).
Proof. split; [cbn; lia | apply walk_fuel; cbn; lia]. Defined.

(** A parser with a required string option and an int option. *)
Definition example_actions : list Action :=
  [{| act_opts := ["--name"]; act_dest := "name"; act_kind := Store TStr; act_required := true;
      act_default := VNone |};
   {| act_opts := ["--count"]; act_dest := "count"; act_kind := Store TInt; act_required := false;
      act_default := VInt 1 |}].

Lemma parse_args_refines_witness :
  forallb (fun p => is_store_opt example_actions (fst p)) [("--count", "7"); ("--name", "x"); ("--count", "8")] = true /\
  Forall (fun p => plain (snd p)) [("--count", "7"); ("--name", "x"); ("--count", "8")] /\
  parse_args example_actions (pair_tokens [("--count", "7"); ("--name", "x"); ("--count", "8")]) =
  spec_parse example_actions [("--count", "7"); ("--name", "x"); ("--count", "8")].
Proof.
  assert (Hp : Forall (fun p => plain (snd p)) [("--count", "7"); ("--name", "x"); ("--count", "8")])
    by (repeat constructor; eexists; eexists; split; reflexivity).
  split; [reflexivity | split; [exact Hp | apply parse_args_refines; [reflexivity | exact Hp]]].
Defined.

End Argparse.
