(* ===== verification/DataIO.v ===== *)
(** * DataIO: [dataio.read_inputs] and [dataio.read_query_depths]

    A CSV file read by [pd.read_csv] is a table: its column names and its
    rows.  Reading is the [CsvSource] interface (I/O, [pd.read_csv]'s
    parser is not modelled: its exceptions are [Err]); what the code does
    with the tables is modelled: the required-column checks (a
    [ValueError]), the discordance filter
    [z["is_discordant"].fillna(0).astype(int) == 0] (a missing cell is
    [None]; [astype(int)] truncates toward zero), the inner merge with
    the tie points' ash ids (one copy of a grain per tie-point row of its
    ash, in the order of the grain table: pandas >= 2.2 keeps the left
    order), and the default query grid [np.linspace(dmin, dmax, 300)].
    Ash ids are strings; numeric cells are rationals (NaN ages or depths
    are not modelled). *)

From S2P Require Import Prelude NpSort NpArray Posterior.
Local Open Scope string_scope.

Module DataIO.

Record ZRow := {
  z_ash_id : string;
  z_age_ma : Q;
  z_sigma_ma : Q;
  z_is_discordant : option Q
}.

Record TRow := {
  t_ash_id : string;
  t_depth_m : Q
}.

Record ZTable := { zt_columns : list string; zt_rows : list ZRow }.
Record TTable := { tt_columns : list string; tt_rows : list TRow }.
Record QTable := { qt_columns : list string; qt_depth_m : list Q }.

(** [InputData] (lines 9-12). *)
Record InputData := { zircon : list ZRow; tiepoints : list TRow }.

(** [pd.read_csv] on the three kinds of files. *)
Class CsvSource := {
  read_zircon_csv : string -> result ZTable;
  read_tiepoints_csv : string -> result TTable;
  read_query_csv : string -> result QTable
}.

Definition has_column (cols : list string) (c : string) : bool := existsb (String.eqb c) cols.

(** [required.issubset(df.columns)] *)
Definition has_columns (cols req : list string) : bool := forallb (has_column cols) req.

(** [int(x)] of a float: truncation toward zero. *)
Definition trunc (q : Q) : Z := Z.quot (Qnum q) (Zpos (Qden q)).

(** [fillna(0).astype(int) == 0] for one cell. *)
Definition concordant (r : ZRow) : bool :=
  match z_is_discordant r with
  | None => true
  | Some x => Z.eqb (trunc x) 0
  end.

(** [z.merge(t[["ash_id"]], on="ash_id", how="inner")] *)
Definition merge_inner (z : list ZRow) (t : list TRow) : list ZRow :=
  flat_map (fun r => map (fun _ => r) (filter (fun u => String.eqb (t_ash_id u) (z_ash_id r)) t)) z.

(** [Series.min()] and [Series.max()]: NaN ([None]) when empty. *)
Definition series_min (l : list Q) : option Q :=
  match l with [] => None | x :: l' => Some (fold_left Qmin l' x) end.

Definition series_max (l : list Q) : option Q :=
  match l with [] => None | x :: l' => Some (fold_left Qmax l' x) end.

(** Lines 43-45: [np.linspace(dmin, dmax, n_grid)] over the tie depths. *)
Definition default_grid (t : list TRow) (n_grid : nat) : option (list Q) :=
  let ds := map t_depth_m t in
  match series_min ds, series_max ds with
  | Some dmin, Some dmax => Some (linspace dmin dmax n_grid)
  | _, _ => None
  end.

Section Reading.
Context {CSV : CsvSource}.

(** Lines 15-33. *)
Definition read_inputs (zircon_csv tiepoints_csv : string) : result InputData :=
  (z <- read_zircon_csv zircon_csv ;;
   t <- read_tiepoints_csv tiepoints_csv ;;
   if negb (has_columns (zt_columns z) ["ash_id"; "age_ma"; "sigma_ma"])
   then Err (ValueError "zircon.csv 必须包含列：['age_ma', 'ash_id', 'sigma_ma']")
   else if negb (has_columns (tt_columns t) ["ash_id"; "depth_m"])
   then Err (ValueError "tiepoints.csv 必须包含列：['ash_id', 'depth_m']")
   else
     let zrows := if has_column (zt_columns z) "is_discordant"
                  then filter concordant (zt_rows z) else zt_rows z in
     Ok {| zircon := merge_inner zrows (tt_rows t); tiepoints := tt_rows t |})%result.

(** Lines 36-45.  [None] is the NaN grid of an empty tie-point table
    ([Series.min()] of nothing is NaN, and so are the 300 points). *)
Definition read_query_depths (query_csv : option string) (t : list TRow) (n_grid : nat)
  : result (option (list Q)) :=
  match query_csv with
  | Some path =>
      if String.eqb path EmptyString then Ok (default_grid t n_grid)
      else
        (qdf <- read_query_csv path ;;
         if negb (has_column (qt_columns qdf) "depth_m")
         then Err (ValueError "query_depths.csv 必须包含列：depth_m")
         else Ok (Some (qt_depth_m qdf)))%result
  | None => Ok (default_grid t n_grid)
  end.

End Reading.

(** A tie point for the grain's ash. *)
Definition has_tie (t : list TRow) (r : ZRow) : bool :=
  existsb (fun u => String.eqb (t_ash_id u) (z_ash_id r)) t.

(** ** Lemmas *)

Lemma trunc_zero (q : Q) : trunc q = 0%Z <-> -1 < q /\ q < 1.
Proof. destruct q as [n d]; unfold trunc, Qlt; simpl; rewrite Z.quot_small_iff by lia; lia. Qed.

Lemma in_merge_inner (z : list ZRow) (t : list TRow) (r : ZRow) :
  In r (merge_inner z t) <-> In r z /\ exists u, In u t /\ t_ash_id u = z_ash_id r.
Proof.
  unfold merge_inner; rewrite in_flat_map; split.
  - intros (r' & Hr' & Hin); apply in_map_iff in Hin as (u & <- & Hu).
    apply filter_In in Hu as [Hu Ha]; apply String.eqb_eq in Ha; eauto.
  - intros (Hr & u & Hu & Ha); exists r; split; [exact Hr|].
    apply in_map_iff; exists u; split; [reflexivity|].
    apply filter_In; split; [exact Hu | apply String.eqb_eq, Ha].
Qed.

(** With unique ash ids, a grain's ash matches one tie-point row or none. *)
Lemma filter_unique_key (t : list TRow) (a : string) :
  NoDup (map t_ash_id t) ->
  length (filter (fun u => String.eqb (t_ash_id u) a) t) =
  if existsb (fun u => String.eqb (t_ash_id u) a) t then 1%nat else 0%nat.
Proof.
  induction t as [|u t IH]; intros Hnd; [reflexivity|].
  inversion Hnd as [|? ? Hnotin Hnd']; subst; cbn [filter existsb].
  destruct (String.eqb (t_ash_id u) a) eqn:E; cbn [length orb]; [|apply IH, Hnd'].
  apply String.eqb_eq in E; subst a; f_equal.
  rewrite filter_none; [reflexivity|]; intros v Hv.
  apply Bool.not_true_iff_false; intros Ev; apply String.eqb_eq in Ev.
  apply Hnotin; rewrite <- Ev; apply in_map, Hv.
Qed.

Lemma map_const_length {A B : Type} (x : A) (l : list B) :
  length l = 1%nat -> map (fun _ => x) l = [x].
Proof. destruct l as [|? [|]]; cbn; congruence. Qed.

Lemma map_const_nil {A B : Type} (x : A) (l : list B) :
  length l = 0%nat -> map (fun _ => x) l = [].
Proof. destruct l; cbn; congruence. Qed.

Lemma Qmin_cases (x y : Q) : Qmin x y = x \/ Qmin x y = y.
Proof. unfold Qmin, GenericMinMax.gmin; destruct (Qcompare x y); auto. Qed.

Lemma Qmax_cases (x y : Q) : Qmax x y = x \/ Qmax x y = y.
Proof. unfold Qmax, GenericMinMax.gmax; destruct (Qcompare x y); auto. Qed.

(** [Series.min()] is one of the values and below all of them. *)
Lemma fold_Qmin_spec (l : list Q) (x : Q) :
  In (fold_left Qmin l x) (x :: l) /\ Forall (fun y => fold_left Qmin l x <= y) (x :: l).
Proof.
  revert x; induction l as [|y l IH]; intros x; cbn [fold_left].
  - split; [left; reflexivity | repeat constructor; apply Qle_refl].
  - destruct (IH (Qmin x y)) as [Hin Hle]; inversion Hle as [|? ? Hm Hl]; subst.
    split.
    + destruct (Qmin_cases x y) as [E|E]; rewrite E in Hin |- *; cbn in Hin |- *; tauto.
    + constructor; [|constructor]; [| |exact Hl];
        eapply Qle_trans; [exact Hm | apply Q.le_min_l | exact Hm | apply Q.le_min_r].
Qed.

Lemma fold_Qmax_spec (l : list Q) (x : Q) :
  In (fold_left Qmax l x) (x :: l) /\ Forall (fun y => y <= fold_left Qmax l x) (x :: l).
Proof.
  revert x; induction l as [|y l IH]; intros x; cbn [fold_left].
  - split; [left; reflexivity | repeat constructor; apply Qle_refl].
  - destruct (IH (Qmax x y)) as [Hin Hle]; inversion Hle as [|? ? Hm Hl]; subst.
    split.
    + destruct (Qmax_cases x y) as [E|E]; rewrite E in Hin |- *; cbn in Hin |- *; tauto.
    + constructor; [|constructor]; [| |exact Hl];
        eapply Qle_trans; [apply Q.le_max_l | exact Hm | apply Q.le_max_r | exact Hm].
Qed.

(** The default grid of [k + 2] points: [linspace] between the smallest
    and the largest tie depth. *)
Lemma default_grid_some (t : list TRow) (k : nat) :
  t <> [] ->
  exists dmin dmax, default_grid t (S (S k)) = Some (linspace dmin dmax (S (S k))) /\
    In dmin (map t_depth_m t) /\ In dmax (map t_depth_m t) /\
    Forall (fun d => dmin <= d <= dmax) (map t_depth_m t).
Proof.
  intros Ht; unfold default_grid; destruct t as [|u t]; [congruence|]; cbn [map series_min series_max].
  destruct (fold_Qmin_spec (map t_depth_m t) (t_depth_m u)) as [Hmin Lmin].
  destruct (fold_Qmax_spec (map t_depth_m t) (t_depth_m u)) as [Hmax Lmax].
  do 2 eexists; split; [reflexivity|]; split; [exact Hmin|]; split; [exact Hmax|].
  rewrite Forall_forall in Lmin, Lmax |- *; intros d Hd; split; auto.
Qed.

Section Theorems.
Context {CSV : CsvSource}.

(** What [read_inputs] returns: the tie table read, and grains each with
    a tie point of its ash. *)
Lemma read_inputs_tied (zircon_csv tiepoints_csv : string) (d : InputData) :
  read_inputs zircon_csv tiepoints_csv = Ok d ->
  exists t, read_tiepoints_csv tiepoints_csv = Ok t /\ tiepoints d = tt_rows t /\
    Forall (fun r => exists u, In u (tiepoints d) /\ t_ash_id u = z_ash_id r) (zircon d).
Proof.
  unfold read_inputs; intros H; apply bind_ok in H as (z & _ & H); apply bind_ok in H as (t & Ht & H).
  destruct (negb (has_columns (zt_columns z) _)); [discriminate|].
  destruct (negb (has_columns (tt_columns t) _)); [discriminate|].
  injection H as <-; exists t; split; [exact Ht|]; split; [reflexivity|]; cbn [zircon tiepoints].
  apply Forall_forall; intros r Hr; apply in_merge_inner in Hr as (_ & Hu); exact Hu.
Qed.

(** C34: [fillna(0).astype(int) == 0] (line 29) keeps a grain exactly
    when its flag is missing or strictly between [-1] and [1]: [int()]
    truncates, so a flag of [0.5] (or [-0.9]) counts as concordant. *)
Theorem concordant_flags (r : ZRow) :
  concordant r = true <->
  z_is_discordant r = None \/ exists x, z_is_discordant r = Some x /\ -1 < x /\ x < 1.
Proof.
  unfold concordant; destruct (z_is_discordant r) as [x|].
  - rewrite Z.eqb_eq, trunc_zero; split; [eauto | intros [[=] | (y & [= <-] & H)]; exact H].
  - split; auto.
Qed.

(** C13: every grain [read_inputs] (lines 15-33) returns is a row of the
    zircon file whose ash has a tie point, and is concordant when the
    file has an [is_discordant] column. *)
Theorem read_inputs_grains (zircon_csv tiepoints_csv : string) (d : InputData) :
  read_inputs zircon_csv tiepoints_csv = Ok d ->
  exists z, read_zircon_csv zircon_csv = Ok z /\
    Forall (fun r => In r (zt_rows z) /\ In (z_ash_id r) (map t_ash_id (tiepoints d)) /\
                     (has_column (zt_columns z) "is_discordant" = true -> concordant r = true))
           (zircon d).
Proof.
  unfold read_inputs; intros H; apply bind_ok in H as (z & Hz & H); apply bind_ok in H as (t & _ & H).
  destruct (negb (has_columns (zt_columns z) _)); [discriminate|].
  destruct (negb (has_columns (tt_columns t) _)); [discriminate|].
  injection H as <-; exists z; split; [exact Hz|]; cbn [zircon tiepoints].
  apply Forall_forall; intros r Hr; apply in_merge_inner in Hr as (Hr & u & Hu & Ha).
  assert (Hin : In (z_ash_id r) (map t_ash_id (tt_rows t))) by (rewrite <- Ha; apply in_map, Hu).
  destruct (has_column (zt_columns z) "is_discordant");
    [apply filter_In in Hr as [Hr Hc] | ]; repeat split; auto; discriminate.
Qed.

(** the missing-column checks (lines 22-25), in order, after both
    files are read. *)
Theorem read_inputs_missing_columns (zircon_csv tiepoints_csv : string) (z : ZTable) (t : TTable) :
  read_zircon_csv zircon_csv = Ok z -> read_tiepoints_csv tiepoints_csv = Ok t ->
  (has_columns (zt_columns z) ["ash_id"; "age_ma"; "sigma_ma"] = false ->
   read_inputs zircon_csv tiepoints_csv =
   Err (ValueError "zircon.csv 必须包含列：['age_ma', 'ash_id', 'sigma_ma']")) /\
  (has_columns (zt_columns z) ["ash_id"; "age_ma"; "sigma_ma"] = true ->
   has_columns (tt_columns t) ["ash_id"; "depth_m"] = false ->
   read_inputs zircon_csv tiepoints_csv = Err (ValueError "tiepoints.csv 必须包含列：['ash_id', 'depth_m']")).
Proof.
  intros Hz Ht; unfold read_inputs; rewrite Hz, Ht; cbn [bind].
  split; [intros -> | intros -> ->]; reflexivity.
Qed.

(** C35: with unique tie-point ash ids the inner merge (line 32) keeps
    each grain once, in order, exactly when its ash has a tie point. *)
Theorem merge_inner_unique (z : list ZRow) (t : list TRow) :
  NoDup (map t_ash_id t) -> merge_inner z t = filter (has_tie t) z.
Proof.
  intros Hnd; unfold merge_inner, has_tie; induction z as [|r z IH]; [reflexivity|].
  cbn [flat_map filter]; pose proof (filter_unique_key t (z_ash_id r) Hnd) as L.
  destruct existsb; [rewrite map_const_length by exact L | rewrite map_const_nil by exact L];
    cbn [app]; rewrite IH; reflexivity.
Qed.

(** C36: without a query file, the query depths (lines 43-45) are 300
    points from the shallowest to the deepest tie point, covering all
    tie depths. *)
Theorem query_default_grid (t : list TRow) :
  t <> [] ->
  exists dmin dmax, read_query_depths None t 300 = Ok (Some (linspace dmin dmax 300)) /\
    (exists u, In u t /\ t_depth_m u = dmin) /\ (exists u, In u t /\ t_depth_m u = dmax) /\
    Forall (fun u => dmin <= t_depth_m u <= dmax) t /\
    length (linspace dmin dmax 300) = 300%nat /\
    Forall (fun x => dmin <= x <= dmax) (linspace dmin dmax 300).
Proof.
  intros Ht; destruct (default_grid_some t 298 Ht) as (dmin & dmax & E & Hmin & Hmax & Hall).
  exists dmin, dmax; cbn [read_query_depths]; rewrite E.
  apply in_map_iff in Hmin as (u1 & E1 & H1); apply in_map_iff in Hmax as (u2 & E2 & H2).
  assert (Hle : dmin <= dmax) by (rewrite Forall_forall in Hall; apply (Hall dmin); rewrite <- E1; apply in_map, H1).
  repeat split; [eauto | eauto | apply Forall_map in Hall; exact Hall | apply linspace_bounds, Hle].
Qed.

End Theorems.

(** ** Examples *)

Definition grain (a : string) (age : Q) (flag : option Q) : ZRow :=
  {| z_ash_id := a; z_age_ma := age; z_sigma_ma := 1 # 100; z_is_discordant := flag |}.

Definition tie (a : string) (depth : Q) : TRow := {| t_ash_id := a; t_depth_m := depth |}.

Definition example_zircon : ZTable :=
  {| zt_columns := ["ash_id"; "age_ma"; "sigma_ma"; "is_discordant"];
     zt_rows := [grain "A" 10 None; grain "A" 11 (Some 1); grain "A" (21 # 2) (Some (1 # 2));
                 grain "B" 12 (Some 0)] |}.

Definition example_ties : TTable :=
  {| tt_columns := ["ash_id"; "depth_m"]; tt_rows := [tie "A" (3 # 2); tie "C" 4] |}.

(** Files read by [pd.read_csv] as the tables above. *)
Definition example_source : CsvSource :=
  {| read_zircon_csv := fun _ => Ok example_zircon;
     read_tiepoints_csv := fun _ => Ok example_ties;
     read_query_csv := fun _ => Ok {| qt_columns := ["depth_m"]; qt_depth_m := [1; 2] |} |}.

(** A tie-point file that lists an ash twice doubles its grains. *)
Example merge_inner_duplicates :
  merge_inner [grain "A" 10 None] [tie "A" 1; tie "A" 1] = [grain "A" 10 None; grain "A" 10 None].
Proof. reflexivity. Qed.

Lemma read_inputs_grains_witness :
  exists d, read_inputs (CSV := example_source) "zircon.csv" "tiepoints.csv" = Ok d /\
    exists z, read_zircon_csv (CsvSource := example_source) "zircon.csv" = Ok z /\
      Forall (fun r => In r (zt_rows z) /\ In (z_ash_id r) (map t_ash_id (tiepoints d)) /\
                       (has_column (zt_columns z) "is_discordant" = true -> concordant r = true))
             (zircon d).
Proof.
  exists (match read_inputs (CSV := example_source) "zircon.csv" "tiepoints.csv" with
          | Ok d => d | Err _ => {| zircon := []; tiepoints := [] |} end).
  split; [reflexivity | apply (read_inputs_grains (CSV := example_source) "zircon.csv" "tiepoints.csv"); reflexivity].
Defined.

Lemma read_inputs_missing_columns_witness :
  read_inputs (CSV := example_source) "zircon.csv" "tiepoints.csv" <>
  Err (ValueError "zircon.csv 必须包含列：['age_ma', 'ash_id', 'sigma_ma']") /\
  ((has_columns (zt_columns example_zircon) ["ash_id"; "age_ma"; "sigma_ma"] = false ->
    read_inputs (CSV := example_source) "zircon.csv" "tiepoints.csv" =
    Err (ValueError "zircon.csv 必须包含列：['age_ma', 'ash_id', 'sigma_ma']")) /\
   (has_columns (zt_columns example_zircon) ["ash_id"; "age_ma"; "sigma_ma"] = true ->
    has_columns (tt_columns example_ties) ["ash_id"; "depth_m"] = false ->
    read_inputs (CSV := example_source) "zircon.csv" "tiepoints.csv" =
    Err (ValueError "tiepoints.csv 必须包含列：['ash_id', 'depth_m']"))).
Proof.
  split; [discriminate|].
  apply (read_inputs_missing_columns (CSV := example_source)); reflexivity.
Defined.

Lemma merge_inner_unique_witness :
  NoDup (map t_ash_id (tt_rows example_ties)) /\
  merge_inner (zt_rows example_zircon) (tt_rows example_ties) =
  filter (has_tie (tt_rows example_ties)) (zt_rows example_zircon).
Proof.
  assert (H : NoDup (map t_ash_id (tt_rows example_ties))).
  { repeat constructor; cbn; intuition discriminate. }
  split; [exact H | apply merge_inner_unique, H].
Defined.

Lemma query_default_grid_witness :
  tt_rows example_ties <> [] /\
  exists dmin dmax, read_query_depths (CSV := example_source) None (tt_rows example_ties) 300 =
                    Ok (Some (linspace dmin dmax 300)) /\
    (exists u, In u (tt_rows example_ties) /\ t_depth_m u = dmin) /\
    (exists u, In u (tt_rows example_ties) /\ t_depth_m u = dmax) /\
    Forall (fun u => dmin <= t_depth_m u <= dmax) (tt_rows example_ties) /\
    length (linspace dmin dmax 300) = 300%nat /\
    Forall (fun x => dmin <= x <= dmax) (linspace dmin dmax 300).
Proof. split; [discriminate | apply (query_default_grid (CSV := example_source)); discriminate]. Defined.

End DataIO.
