(* ===== verification/Cli.v ===== *)
(** * CLI: [cli.main]

    [main] parses [sys.argv[1:]] with the parser of lines 14-28
    ([Argparse]), then runs the pipeline.  The parser's options are the
    list [cli_actions]; [cli_args] reads the namespace into the record
    the rest of [main] uses.  The parser has no [--target_accept] and no
    [--chains]: [fit_bea_for_ash] and [fit_bad] always run with their
    defaults [chains=2], [target_accept=0.9]. *)

From S2P Require Import Prelude PyNum FileSys Argparse.
From Stdlib Require Import Ascii.
Import Argparse.
Local Open Scope string_scope.

Module Cli.

Definition opt (name dest : string) (k : ActKind) (req : bool) (d : ArgVal) : Action :=
  {| act_opts := [name]; act_dest := dest; act_kind := k; act_required := req; act_default := d |}.

(** Lines 15-28. *)
Definition cli_actions : list Action :=
  [opt "--zircon" "zircon" (Store TStr) true VNone;
   opt "--tiepoints" "tiepoints" (Store TStr) true VNone;
   opt "--query" "query" (Store TStr) false VNone;
   opt "--outdir" "outdir" (Store TStr) false (VStr "out");
   opt "--max_span_ma" "max_span_ma" (Store TFloat) false (VFloat (Fin 1));
   opt "--depth_sigma_m" "depth_sigma_m" (Store TFloat) false (VFloat (Fin (3 # 100)));
   opt "--no_bootstrap_prior" "no_bootstrap_prior" StoreTrue false (VBool false);
   opt "--bea_draws" "bea_draws" (Store TInt) false (VInt 2000);
   opt "--bea_tune" "bea_tune" (Store TInt) false (VInt 2000);
   opt "--bad_draws" "bad_draws" (Store TInt) false (VInt 3000);
   opt "--bad_tune" "bad_tune" (Store TInt) false (VInt 3000);
   opt "--seed" "seed" (Store TInt) false (VInt 42)].

(** The namespace [args] as the rest of [main] reads it ([args.zircon],
    [args.max_span_ma], ...).  A value of the wrong shape cannot occur
    (argparse stores the declared type); [--zircon=--] stores an empty
    list, read here as the string it is not: [""]. *)
Record CliArgs := {
  a_zircon : string;
  a_tiepoints : string;
  a_query : option string;
  a_outdir : string;
  a_max_span_ma : PyFloat;
  a_depth_sigma_m : PyFloat;
  a_no_bootstrap_prior : bool;
  a_bea_draws : Z;
  a_bea_tune : Z;
  a_bad_draws : Z;
  a_bad_tune : Z;
  a_seed : Z
}.

Definition as_str (v : ArgVal) : string := match v with VStr s => s | _ => EmptyString end.
Definition as_opt_str (v : ArgVal) : option string := match v with VStr s => Some s | _ => None end.
Definition as_float (v : ArgVal) : PyFloat := match v with VFloat x => x | _ => NaN end.
Definition as_int (v : ArgVal) : Z := match v with VInt z => z | _ => 0%Z end.
Definition as_bool (v : ArgVal) : bool := match v with VBool b => b | _ => false end.

Definition cli_args (ns : list (string * ArgVal)) : CliArgs :=
  {| a_zircon := as_str (get ns "zircon"); a_tiepoints := as_str (get ns "tiepoints");
     a_query := as_opt_str (get ns "query"); a_outdir := as_str (get ns "outdir");
     a_max_span_ma := as_float (get ns "max_span_ma");
     a_depth_sigma_m := as_float (get ns "depth_sigma_m");
     a_no_bootstrap_prior := as_bool (get ns "no_bootstrap_prior");
     a_bea_draws := as_int (get ns "bea_draws"); a_bea_tune := as_int (get ns "bea_tune");
     a_bad_draws := as_int (get ns "bad_draws"); a_bad_tune := as_int (get ns "bad_tune");
     a_seed := as_int (get ns "seed") |}.

(** ** The options [main] does not declare *)

(** [--target_accept v], then possibly [--no_bootstrap_prior], after
    any options: [--target_accept] is not an option of the parser, so it
    and its value [v] (a token not starting with [-]) are extras, and
    [parse_args] exits with status 2. *)
Lemma target_accept_tail (c : ascii) (s : string) (nb : list string) (st : PState) :
  Ascii.eqb c "-" = false -> nb = [] \/ nb = ["--no_bootstrap_prior"] ->
  parse_from cli_actions ("--target_accept" :: String c s :: nb) st = usage_error.
Proof.
  intros Hc Hnb; unfold parse_from.
  rewrite classify_cons, (classify_cons _ (String c s)), (parse_optional_plain _ c s Hc)
    by (reflexivity || (apply eqb_dashdash_plain; exact Hc)).
  replace (parse_optional cli_actions "--target_accept")
    with (Ok (Some (None, "--target_accept", None)) : result (option (option Action * string * option string)))
    by reflexivity; cbn [bind].
  destruct Hnb as [-> | ->];
    [ change (classify cli_actions []) with (Ok [] : result (list (string * Slot)))
    | replace (classify cli_actions ["--no_bootstrap_prior"])
        with (Ok [("--no_bootstrap_prior", SOpt (Some (nth 6 cli_actions help_action)) "--no_bootstrap_prior" None)]
              : result (list (string * Slot))) by reflexivity ];
    simpl; apply finish_extras; simpl; intros E; apply app_eq_nil in E as [_ E]; discriminate.
Qed.

Section Main.
(** The rest of [main] (lines 31-81: the output directory, the inputs,
    one BEA fit per ash, the tie-point table, [fit_bad], the CSV files
    and the figure), as a parameter: the theorems about [main] here hold
    whatever it does. *)
Variable run : CliArgs -> IO unit.

(** [main()] with [sys.argv = argv]: [ap.parse_args()] reads
    [sys.argv[1:]] (line 30). *)
Definition cli_main (argv : list string) : IO unit :=
  (ns <- io_lift (parse_args cli_actions (tl argv)) ;;
   run (cli_args ns))%io.

End Main.

(** ** The namespace [main] reads *)

Lemma cli_dests_unique : NoDup (map act_dest cli_actions).
Proof. repeat constructor; cbn; intuition discriminate. Qed.

(** every value in the namespace [ap.parse_args()] returns to
    [main] has its option's type ([str] paths, [float] span and depth
    sigma, [int] counts and seed, [True] for [--no_bootstrap_prior]) or
    is the option's default; the one exception argparse allows is the
    empty list an explicit [--opt=--] stores. *)
Theorem cli_namespace_typed (args : list string) (ns : list (string * ArgVal)) :
  parse_args cli_actions args = Ok ns -> ns_typed cli_actions ns.
Proof. apply parse_args_typed, cli_dests_unique. Qed.

Lemma existsb_eqb_notin (d : string) (l : list string) : ~ In d l -> existsb (String.eqb d) l = false.
Proof.
  intros Hn; destruct (existsb (String.eqb d) l) eqn:E; [|reflexivity].
  apply existsb_exists in E as (x & Hx & Ex); apply String.eqb_eq in Ex; subst x; contradiction.
Qed.

(** The two required options are reached only through their own
    option strings. *)
Lemma cli_option_required (o : string) (a : Action) (d : string) :
  In (o, a) (option_actions cli_actions) -> act_dest a = d -> (d = "zircon" \/ d = "tiepoints") ->
  o = "--" ++ d.
Proof.
  intros H <- Hd; cbn in H.
  repeat (destruct H as [E|H]; [injection E as <- <-; cbn in Hd |- *;
                                 (reflexivity || (destruct Hd as [Hd|Hd]; discriminate Hd)) |]).
  destruct H.
Qed.

(** C14: [--zircon z --tiepoints t] gives [main] the two paths and the
    defaults cli.py declares (lines 15-28): no query file, [out],
    [max_span_ma = 1.0], [depth_sigma_m = 0.03], the bootstrap prior on,
    2000/2000 BEA and 3000/3000 BAD draws and tuning steps, seed 42. *)
Theorem cli_defaults (z t : string) :
  plain z -> plain t ->
  exists ns, parse_args cli_actions ["--zircon"; z; "--tiepoints"; t] = Ok ns /\
    cli_args ns = {| a_zircon := z; a_tiepoints := t; a_query := None; a_outdir := "out";
                     a_max_span_ma := Fin 1; a_depth_sigma_m := Fin (3 # 100);
                     a_no_bootstrap_prior := false; a_bea_draws := 2000; a_bea_tune := 2000;
                     a_bad_draws := 3000; a_bad_tune := 3000; a_seed := 42 |}.
Proof.
  intros Hz Ht; change ["--zircon"; z; "--tiepoints"; t] with (pair_tokens [("--zircon", z); ("--tiepoints", t)]).
  rewrite parse_args_refines by (reflexivity || (repeat constructor; assumption)).
  eexists; split; reflexivity.
Qed.


(** C16: [required=True] (lines 15-16): a command line of option/value pairs
    without [--zircon] or without [--tiepoints] ends [main] with exit
    status 2. *)
Theorem cli_required_options (ps : list (string * string)) :
  forallb (fun p => is_store_opt cli_actions (fst p)) ps = true -> Forall (fun p => plain (snd p)) ps ->
  ~ In "--zircon" (map fst ps) \/ ~ In "--tiepoints" (map fst ps) ->
  parse_args cli_actions (pair_tokens ps) = usage_error.
Proof.
  intros Ho Hp Hm; rewrite parse_args_refines by assumption; unfold spec_parse.
  destruct (spec_updates cli_actions ps) as [us|] eqn:Hu; [|reflexivity].
  assert (Hnot : forall d, (d = "zircon" \/ d = "tiepoints") -> ~ In ("--" ++ d) (map fst ps) ->
                 existsb (String.eqb d) (map fst us) = false).
  { intros d Hd Hn; apply existsb_eqb_notin; intros Hin.
    destruct (spec_updates_dests _ _ _ Ho Hu d Hin) as (p & a & Hpin & Hpa & Ha).
    apply Hn; rewrite <- (cli_option_required _ _ _ Hpa Ha Hd); apply in_map, Hpin. }
  replace (existsb _ cli_actions) with true; [reflexivity|]; symmetry; apply existsb_exists.
  destruct Hm as [Hm|Hm];
    [exists (nth 0 cli_actions help_action); split; [left; reflexivity|]; cbn [nth cli_actions opt act_required act_dest];
     rewrite (Hnot "zircon" (or_introl eq_refl) Hm); reflexivity
    |exists (nth 1 cli_actions help_action); split; [right; left; reflexivity|]; cbn [nth cli_actions opt act_required act_dest];
     rewrite (Hnot "tiepoints" (or_intror eq_refl) Hm); reflexivity].
Qed.

Definition example_argv : list string :=
  ["--zircon"; "zircon.csv"; "--tiepoints"; "tiepoints.csv"; "--bea_draws=500";
   "--no_bootstrap_prior"; "--max_span_ma"; "-0.5"; "--seed"; "7"].

Lemma cli_namespace_typed_witness :
  exists ns, parse_args cli_actions example_argv = Ok ns /\ ns_typed cli_actions ns.
Proof.
  exists (match parse_args cli_actions example_argv with Ok ns => ns | Err _ => [] end).
  split; [reflexivity | apply (cli_namespace_typed example_argv); reflexivity].
Defined.

(** [--max_span_ma=--] passes the parser and stores an empty list. *)
Example cli_explicit_dashdash :
  option_map (fun ns => get ns "max_span_ma")
    (match parse_args cli_actions ["--zircon"; "z"; "--tiepoints"; "t"; "--max_span_ma=--"] with
     | Ok ns => Some ns | Err _ => None end) = Some VEmptyList.
Proof. reflexivity. Qed.

Lemma plain_example (c : ascii) (s : string) : Ascii.eqb c "-" = false -> plain (String c s).
Proof. intros H; exists c, s; split; [reflexivity | exact H]. Qed.

Lemma cli_defaults_witness :
  plain "zircon.csv" /\ plain "tiepoints.csv" /\
  exists ns, parse_args cli_actions ["--zircon"; "zircon.csv"; "--tiepoints"; "tiepoints.csv"] = Ok ns /\
    cli_args ns = {| a_zircon := "zircon.csv"; a_tiepoints := "tiepoints.csv"; a_query := None; a_outdir := "out";
                     a_max_span_ma := Fin 1; a_depth_sigma_m := Fin (3 # 100);
                     a_no_bootstrap_prior := false; a_bea_draws := 2000; a_bea_tune := 2000;
                     a_bad_draws := 3000; a_bad_tune := 3000; a_seed := 42 |}.
Proof.
  assert (Hz : plain "zircon.csv") by (apply plain_example; reflexivity).
  assert (Ht : plain "tiepoints.csv") by (apply plain_example; reflexivity).
  split; [exact Hz|]; split; [exact Ht|]; apply cli_defaults; assumption.
Defined.


Lemma cli_required_options_witness :
  forallb (fun p => is_store_opt cli_actions (fst p)) [("--zircon", "zircon.csv"); ("--outdir", "o")] = true /\
  Forall (fun p => plain (snd p)) [("--zircon", "zircon.csv"); ("--outdir", "o")] /\
  (~ In "--zircon" (map fst [("--zircon", "zircon.csv"); ("--outdir", "o")]) \/
   ~ In "--tiepoints" (map fst [("--zircon", "zircon.csv"); ("--outdir", "o")])) /\
  parse_args cli_actions (pair_tokens [("--zircon", "zircon.csv"); ("--outdir", "o")]) = usage_error.
Proof.
  assert (H1 : forallb (fun p => is_store_opt cli_actions (fst p)) [("--zircon", "zircon.csv"); ("--outdir", "o")] = true)
    by reflexivity.
  assert (H2 : Forall (fun p => plain (snd p)) [("--zircon", "zircon.csv"); ("--outdir", "o")])
    by (repeat constructor; apply plain_example; reflexivity).
  assert (H3 : ~ In "--zircon" (map fst [("--zircon", "zircon.csv"); ("--outdir", "o")]) \/
               ~ In "--tiepoints" (map fst [("--zircon", "zircon.csv"); ("--outdir", "o")]))
    by (right; cbn; intuition discriminate).
  split; [exact H1|]; split; [exact H2|]; split; [exact H3|].
  apply cli_required_options; assumption.
Defined.

End Cli.
