(* ===== verification/Gui.v ===== *)
(** * The Tk launcher [app_gui.py]

    The window holds string variables for the inputs and the sampling
    settings (lines 110-124); the Run button calls [run_pipeline]
    (lines 45-102), which checks the two input paths, validates the
    settings with [_parse_int] and [_parse_float] (lines 23-42), builds an
    argument vector, sets [sys.argv] and calls [bea_bad.cli.main]; any
    [Exception] becomes an error dialog.  [SystemExit] is not an
    [Exception]: it leaves [run_pipeline], and Tkinter's callback wrapper
    re-raises it, so it ends [mainloop].

    Here the fields are a record of the strings the variables hold and
    the dialogs a list of events; the widgets, the Browse dialogs and the
    main loop are in [GuiApp.v].  [str(float)] is the interface [FloatRepr]: a
    positive float prints with a leading digit and a NaN as [nan], which
    is all the theorems need of [repr]'s shortest round-trip output.
    [Path(outdir).resolve()] depends on the working directory and is a
    parameter. *)

From S2P Require Import Prelude PyNum FileSys Argparse Cli.
From Stdlib Require Import Ascii Qround.
Import Argparse Cli.
Local Open Scope string_scope.

Module Gui.

(** [str(x)] for a float. *)
Class FloatRepr := {
  py_repr : PyFloat -> string;
  py_repr_pos : forall q, (0 < q)%Q -> exists c s, py_repr (Fin q) = String c s /\ digit_val c <> None;
  py_repr_nan : py_repr NaN = "nan"
}.

(** [str.strip()] *)
Definition py_strip (s : string) : string := string_of_list_ascii (strip (list_ascii_of_string s)).

(** IEEE comparisons with a finite bound: false on a NaN. *)
Definition float_lt (x : PyFloat) (b : Q) : bool :=
  match x with Fin q => Qltb q b | Inf neg => neg | NaN => false end.

Definition float_gt (x : PyFloat) (b : Q) : bool :=
  match x with Fin q => Qltb b q | Inf neg => negb neg | NaN => false end.

(** The text of the exception [except Exception as e] shows. *)
Definition exc_str (e : PyExc) : string :=
  match e with
  | ValueError m | IndexError m | OSError m | LinAlgError m | KeyError m => m
  | SystemExit n => py_str_int (Z.of_nat n)
  end.

(** Lines 23-30. *)
Definition _parse_int (name value : string) (min_v : Z) : result Z :=
  match py_int value with
  | None => Err (ValueError (name ++ " must be an integer."))
  | Some v =>
      if Z.ltb v min_v then Err (ValueError (name ++ " must be ≥ " ++ py_str_int min_v ++ "."))
      else Ok v
  end.

Inductive UiEvent :=
| ShowError (title msg : string)
| ShowInfo (title msg : string).

(** The variables of lines 110-124 ([no_bootstrap_var] is an [IntVar]). *)
Record GuiFields := {
  zircon_var : string;
  tiepoints_var : string;
  outdir_var : string;
  bea_draws_var : string;
  bea_tune_var : string;
  bad_draws_var : string;
  bad_tune_var : string;
  max_span_var : string;
  depth_sigma_var : string;
  target_accept_var : string;
  no_bootstrap_var : Z
}.

(** The window as it opens: the defaults of lines 110-124. *)
Definition gui_defaults : GuiFields :=
  {| zircon_var := EmptyString; tiepoints_var := EmptyString; outdir_var := "out";
     bea_draws_var := "2000"; bea_tune_var := "2000"; bad_draws_var := "3000";
     bad_tune_var := "3000"; max_span_var := "1.0"; depth_sigma_var := "0.03";
     target_accept_var := "0.9"; no_bootstrap_var := 0 |}.

(** The settings after validation. *)
Record Params := {
  p_bea_draws : Z;
  p_bea_tune : Z;
  p_bad_draws : Z;
  p_bad_tune : Z;
  p_max_span_ma : PyFloat;
  p_depth_sigma_m : PyFloat;
  p_target_accept : PyFloat;
  p_no_bootstrap : bool
}.

(** [Path(p).exists()] *)
Definition path_exists (p : string) (fs : FS) : bool := mem p (fs_dirs fs) || mem p (fs_files fs).

(** [not p or not Path(p).exists()], negated. *)
Definition input_ok (p : string) (fs : FS) : bool := negb (String.eqb p EmptyString) && path_exists p fs.

Definition nl : string := String "010"%char EmptyString.

Section Launcher.
Context {FR : FloatRepr}.

(** Lines 33-42. *)
Definition _parse_float (name value : string) (min_v max_v : option Q) : result PyFloat :=
  match py_float value with
  | None => Err (ValueError (name ++ " must be a number."))
  | Some v =>
      _ <- match min_v with
      | Some m => if float_lt v m then Err (ValueError (name ++ " must be ≥ " ++ py_repr (Fin m) ++ "."))
                  else Ok tt
      | None => Ok tt
      end ;;
      _ <- match max_v with
      | Some m => if float_gt v m then Err (ValueError (name ++ " must be ≤ " ++ py_repr (Fin m) ++ "."))
                  else Ok tt
      | None => Ok tt
      end ;;
      Ok v
  end%result.

(** Lines 59-68. *)
Definition read_params (g : GuiFields) : result Params :=
  (bea_draws <- _parse_int "BEA draws" (bea_draws_var g) 100 ;;
   bea_tune <- _parse_int "BEA tune" (bea_tune_var g) 100 ;;
   bad_draws <- _parse_int "BAD draws" (bad_draws_var g) 100 ;;
   bad_tune <- _parse_int "BAD tune" (bad_tune_var g) 100 ;;
   max_span_ma <- _parse_float "Max span (Ma)" (max_span_var g) (Some 0) (Some 100) ;;
   depth_sigma_m <- _parse_float "Depth sigma (m)" (depth_sigma_var g) (Some 0) (Some 10) ;;
   target_accept <- _parse_float "target_accept" (target_accept_var g) (Some (6 # 10)) (Some (999 # 1000)) ;;
   Ok {| p_bea_draws := bea_draws; p_bea_tune := bea_tune; p_bad_draws := bad_draws;
         p_bad_tune := bad_tune; p_max_span_ma := max_span_ma; p_depth_sigma_m := depth_sigma_m;
         p_target_accept := target_accept; p_no_bootstrap := negb (Z.eqb (no_bootstrap_var g) 0) |})%result.

(** Lines 74-94. *)
Definition gui_argv (zircon tiepoints outdir : string) (p : Params) : list string :=
  app (app ["bea_bad";
            "--zircon"; zircon;
            "--tiepoints"; tiepoints;
            "--outdir"; outdir;
            "--bea_draws"; py_str_int (p_bea_draws p);
            "--bea_tune"; py_str_int (p_bea_tune p);
            "--bad_draws"; py_str_int (p_bad_draws p);
            "--bad_tune"; py_str_int (p_bad_tune p);
            "--max_span_ma"; py_repr (p_max_span_ma p);
            "--depth_sigma_m"; py_repr (p_depth_sigma_m p)]
           ["--target_accept"; py_repr (p_target_accept p)])
      (if p_no_bootstrap p then ["--no_bootstrap_prior"] else []).

(** [except Exception as e: messagebox.showerror("Error", str(e))]:
    everything but [SystemExit] is caught. *)
Definition except_exception (r : result (list UiEvent)) : result (list UiEvent) :=
  match r with
  | Err (SystemExit n) => Err (SystemExit n)
  | Err e => Ok [ShowError "Error" (exc_str e)]
  | Ok evs => Ok evs
  end.

Variable run : CliArgs -> IO unit.
Variable resolve : string -> string.

(** The [try] body, lines 59-99. *)
Definition try_body (zircon tiepoints outdir : string) (g : GuiFields) : IO (list UiEvent) :=
  (p <- io_lift (read_params g) ;;
   _ <- cli_main run (gui_argv zircon tiepoints outdir p) ;;
   io_ret [ShowInfo "Done" ("Finished!" ++ nl ++ "Outputs saved to:" ++ nl ++ resolve outdir)])%io.

(** Lines 45-102. *)
Definition run_pipeline (g : GuiFields) : IO (list UiEvent) := fun fs =>
  let zircon := py_strip (zircon_var g) in
  let tiepoints := py_strip (tiepoints_var g) in
  let outdir := let o := py_strip (outdir_var g) in if String.eqb o EmptyString then "out" else o in
  if negb (input_ok zircon fs) then
    (Ok [ShowError "Missing input" "Please select a valid zircon CSV file."], fs)
  else if negb (input_ok tiepoints fs) then
    (Ok [ShowError "Missing input" "Please select a valid tiepoints CSV file."], fs)
  else
    let (r, fs') := try_body zircon tiepoints outdir g fs in (except_exception r, fs').

(** ** Lemmas *)

(** The exceptions validation raises are all [ValueError]s. *)
Definition value_errors_only {A : Type} (r : result A) : Prop :=
  match r with Err (ValueError _) | Ok _ => True | Err _ => False end.

Lemma value_errors_only_bind {A B : Type} (r : result A) (k : A -> result B) :
  value_errors_only r -> (forall x, value_errors_only (k x)) -> value_errors_only (bind r k).
Proof. destruct r as [x|[]]; cbn; auto. Qed.

Lemma parse_int_value_errors (name value : string) (m : Z) :
  value_errors_only (_parse_int name value m).
Proof. unfold _parse_int; destruct (py_int value) as [v|]; [destruct (Z.ltb v m)|]; exact I. Qed.

Lemma parse_float_value_errors (name value : string) (lo hi : option Q) :
  value_errors_only (_parse_float name value lo hi).
Proof.
  unfold _parse_float; destruct py_float as [v|]; [|exact I].
  apply value_errors_only_bind; [destruct lo as [l|]; [destruct (float_lt v l)|]; exact I|intros _].
  apply value_errors_only_bind; [destruct hi as [h|]; [destruct (float_gt v h)|]; exact I|intros _; exact I].
Qed.

Lemma read_params_value_errors (g : GuiFields) : value_errors_only (read_params g).
Proof.
  unfold read_params;
    repeat (apply value_errors_only_bind; [apply parse_int_value_errors || apply parse_float_value_errors|intros ?]).
  exact I.
Qed.

Lemma parse_float_ok (name value : string) (lo hi : Q) (x : PyFloat) :
  _parse_float name value (Some lo) (Some hi) = Ok x ->
  py_float value = Some x /\ float_lt x lo = false /\ float_gt x hi = false.
Proof.
  unfold _parse_float; destruct (py_float value) as [v|]; [|discriminate].
  destruct (float_lt v lo) eqn:E1, (float_gt v hi) eqn:E2; cbn [bind]; try discriminate.
  intros E; injection E as <-; auto.
Qed.

(** Passing both checks leaves a NaN or a finite float in the range. *)
Lemma float_in_range (x : PyFloat) (lo hi : Q) :
  float_lt x lo = false -> float_gt x hi = false ->
  x = NaN \/ exists q, x = Fin q /\ lo <= q /\ q <= hi.
Proof.
  destruct x as [q|[|]|]; cbn [float_lt float_gt negb]; try discriminate; [|auto].
  unfold Qltb; rewrite !negb_false_iff, !Qle_bool_iff; intros H1 H2; right; eauto.
Qed.

Lemma digit_not_dash (c : ascii) : digit_val c <> None -> Ascii.eqb c "-" = false.
Proof.
  intros H; destruct (Ascii.eqb c "-") eqn:E; [|reflexivity].
  apply Ascii.eqb_eq in E; subst; contradiction H; reflexivity.
Qed.

(** The [target_accept] that passes validation prints as a token that
    does not start with [-] ([0.6 <= v <= 0.999], or a NaN). *)
Lemma target_accept_token (g : GuiFields) (p : Params) :
  read_params g = Ok p ->
  exists c s, py_repr (p_target_accept p) = String c s /\ Ascii.eqb c "-" = false.
Proof.
  unfold read_params; intros H.
  repeat (apply bind_ok in H as (? & ? & H)); injection H as <-; cbn [p_target_accept].
  match goal with E : _parse_float "target_accept" _ _ _ = Ok ?x |- _ =>
    apply parse_float_ok in E as (_ & E1 & E2);
    destruct (float_in_range x _ _ E1 E2) as [-> | (q & -> & Hq & _)] end.
  - rewrite py_repr_nan; exists "n"%char, "an"; split; reflexivity.
  - destruct (py_repr_pos q) as (c & s & E & Hc); [apply Qlt_le_trans with (6 # 10); [reflexivity | exact Hq]|].
    exists c, s; split; [exact E | apply digit_not_dash, Hc].
Qed.

(** The tail of the vector is ten option/value pairs, then
    [--target_accept v], then the flag. *)
Lemma gui_argv_tokens (zircon tiepoints outdir : string) (p : Params) :
  tl (gui_argv zircon tiepoints outdir p) =
  app (pair_tokens [("--zircon", zircon); ("--tiepoints", tiepoints); ("--outdir", outdir);
                    ("--bea_draws", py_str_int (p_bea_draws p)); ("--bea_tune", py_str_int (p_bea_tune p));
                    ("--bad_draws", py_str_int (p_bad_draws p)); ("--bad_tune", py_str_int (p_bad_tune p));
                    ("--max_span_ma", py_repr (p_max_span_ma p));
                    ("--depth_sigma_m", py_repr (p_depth_sigma_m p))])
      ("--target_accept" :: py_repr (p_target_accept p) ::
       (if p_no_bootstrap p then ["--no_bootstrap_prior"] else [])).
Proof. reflexivity. Qed.

(** [cli.main]'s parser rejects every vector the launcher builds. *)
Lemma gui_argv_rejected (zircon tiepoints outdir : string) (g : GuiFields) (p : Params) :
  read_params g = Ok p ->
  parse_args cli_actions (tl (gui_argv zircon tiepoints outdir p)) = usage_error.
Proof.
  intros H; destruct (target_accept_token g p H) as (c & s & E & Hc).
  rewrite gui_argv_tokens, E; unfold parse_args.
  apply pairs_then_error; [reflexivity|].
  intros st; apply target_accept_tail; [exact Hc | destruct (p_no_bootstrap p); auto].
Qed.

Lemma try_body_exits (zircon tiepoints outdir : string) (g : GuiFields) (fs : FS) :
  try_body zircon tiepoints outdir g fs =
  match read_params g with
  | Ok _ => (Err (SystemExit 2), fs)
  | Err e => (Err e, fs)
  end.
Proof.
  unfold try_body, io_bind, io_lift; destruct (read_params g) as [p|e] eqn:Hp; [|reflexivity].
  unfold cli_main, io_bind, io_lift; rewrite (gui_argv_rejected _ _ _ g p Hp); reflexivity.
Qed.

(** ** Theorems *)

(** [_parse_int] (lines 23-30) returns [int(value)] exactly when
    that parses and is at least [min_v]; otherwise it raises. *)
Theorem parse_int_spec (name value : string) (min_v v : Z) :
  _parse_int name value min_v = Ok v <-> py_int value = Some v /\ (min_v <= v)%Z.
Proof.
  unfold _parse_int; destruct (py_int value) as [w|]; [|split; [discriminate | intros [[=] _]]].
  destruct (Z.ltb_spec w min_v); split.
  - discriminate.
  - intros [[= ->] ?]; lia.
  - intros [= ->]; auto.
  - intros [[= ->] _]; reflexivity.
Qed.

(** C37: a value [_parse_float] (lines 33-42) accepts between two bounds
    is a float in the bounds, or a NaN: every comparison with a NaN is
    false, so [nan] passes both checks. *)
Theorem parse_float_range (name value : string) (lo hi : Q) (x : PyFloat) :
  _parse_float name value (Some lo) (Some hi) = Ok x ->
  x = NaN \/ exists q, x = Fin q /\ lo <= q /\ q <= hi.
Proof. intros H; apply parse_float_ok in H as (_ & H1 & H2); apply float_in_range; assumption. Qed.

(** C11: when both input files exist and the settings are valid, the Run
    button ends in [SystemExit(2)] with nothing written: [cli.main]'s
    parser has no [--target_accept] (line 91 adds it always), and
    [SystemExit] is not caught by [except Exception]. *)
Theorem gui_run_exits (g : GuiFields) (fs : FS) (p : Params) :
  input_ok (py_strip (zircon_var g)) fs = true ->
  input_ok (py_strip (tiepoints_var g)) fs = true ->
  read_params g = Ok p ->
  run_pipeline g fs = (Err (SystemExit 2), fs).
Proof.
  intros Hz Ht Hp; cbv beta zeta delta [run_pipeline]; rewrite Hz, Ht; cbn [negb].
  rewrite try_body_exits, Hp; reflexivity.
Qed.

(** the Run button never reports "Done" and never changes the file
    system: it shows one error dialog, or exits with status 2. *)
Theorem gui_never_done (g : GuiFields) (fs : FS) :
  exists r, run_pipeline g fs = (r, fs) /\
            (r = Err (SystemExit 2) \/ exists title msg, r = Ok [ShowError title msg]).
Proof.
  cbv beta zeta delta [run_pipeline].
  destruct (negb (input_ok _ fs)); [eauto 6|].
  destruct (negb (input_ok _ fs)); [eauto 6|].
  rewrite try_body_exits; pose proof (read_params_value_errors g) as He.
  destruct (read_params g) as [p|[m| | | | |]]; cbn in He |- *; try contradiction; eauto 6.
Qed.

End Launcher.

(** A printing of floats with one decimal ([0.9], [1.0], [0.0]) that
    meets [FloatRepr]: the concrete instance the examples run with. *)
Definition fixed1 (q : Q) : string :=
  py_str_int (Qfloor q) ++ "." ++ py_str_int (Qfloor (10 * (q - inject_Z (Qfloor q)))).

Definition one_decimal_repr (x : PyFloat) : string :=
  match x with
  | Fin q => if Qle_bool 0 q then fixed1 q else "-" ++ fixed1 (- q)
  | Inf neg => if neg then "-inf" else "inf"
  | NaN => "nan"
  end.

Lemma one_decimal_repr_pos (q : Q) :
  0 < q -> exists c s, one_decimal_repr (Fin q) = String c s /\ digit_val c <> None.
Proof.
  intros Hq; cbn [one_decimal_repr].
  replace (Qle_bool 0 q) with true by (symmetry; apply Qle_bool_iff, Qlt_le_weak, Hq).
  destruct (py_str_int_digit (Qfloor q)) as (c & s & E & Hc).
  - change 0%Z with (Qfloor 0); apply Qfloor_resp_le, Qlt_le_weak, Hq.
  - unfold fixed1; rewrite E; exists c; eexists; split; [reflexivity | exact Hc].
Qed.

#[export] Instance one_decimal : FloatRepr :=
  {| py_repr := one_decimal_repr; py_repr_pos := one_decimal_repr_pos; py_repr_nan := eq_refl |}.

(** The window with both files chosen (with stray blanks) and the
    default settings. *)
Definition example_fields : GuiFields :=
  {| zircon_var := " zircon.csv"; tiepoints_var := "tiepoints.csv ";
     outdir_var := outdir_var gui_defaults; bea_draws_var := bea_draws_var gui_defaults;
     bea_tune_var := bea_tune_var gui_defaults; bad_draws_var := bad_draws_var gui_defaults;
     bad_tune_var := bad_tune_var gui_defaults; max_span_var := max_span_var gui_defaults;
     depth_sigma_var := depth_sigma_var gui_defaults; target_accept_var := target_accept_var gui_defaults;
     no_bootstrap_var := 1 |}.

Definition example_fs : FS := {| fs_dirs := []; fs_files := ["zircon.csv"; "tiepoints.csv"] |}.

Lemma parse_float_range_witness :
  _parse_float "target_accept" "nan" (Some (6 # 10)) (Some (999 # 1000)) = Ok NaN /\
  (NaN = NaN \/ exists q, NaN = Fin q /\ 6 # 10 <= q /\ q <= 999 # 1000).
Proof. split; [reflexivity | apply (parse_float_range "target_accept" "nan"); reflexivity]. Defined.

Lemma gui_run_exits_witness :
  exists p, read_params example_fields = Ok p /\
    run_pipeline (fun _ => io_ret tt) (fun s => s) example_fields example_fs = (Err (SystemExit 2), example_fs).
Proof.
  eexists; split; [reflexivity|].
  eapply (gui_run_exits (fun _ => io_ret tt) (fun s => s) example_fields example_fs); reflexivity.
Defined.

End Gui.
