(* ===== verification/Engine.v ===== *)
(** * The external collaborators and the model declarations

    [pm.sample] (PyMC's NUTS), scipy's [gaussian_kde] and numpy's
    [default_rng(seed).normal] are not modelled; the core reaches them
    through the interfaces of this file.  A [Sampler] takes the model
    [fit_bea_for_ash] or [fit_bad] declares (as data: which distributions,
    with which parameters) and returns the draws, chain by chain, or fails.
    Its laws are what PyMC guarantees about the declared distributions:
    [chains] chains of [draws] draws each; for BAD, [d_true] of shape [K]
    strictly increasing (the [ordered] transform) and [K - 1] positive
    rates (LogNormal); for BEA with an [Interpolated] prior, draws of [E]
    inside the grid (its support).  The theorems of [Bea.v] and [Bad.v]
    hold for every instance; [point_sampler] below is one, used by the
    witnesses. *)

From S2P Require Import Prelude NpSort NpArray Piecewise.
Import Piecewise.

(** ** Model declarations *)

(** The keyword arguments of [pm.sample] the code passes ([draws] and
    [tune] are Python ints, as [cli.main] passes them). *)
Record SampleCfg := {
  cfg_draws : Z;
  cfg_tune : Z;
  cfg_chains : nat;
  cfg_target_accept : Q;
  cfg_random_seed : Z
}.

(** The prior of the eruption age [E] ([bea.py] lines 58 and 73); the
    normal's [sigma] is a Python float ([None] would be NaN). *)
Inductive EPrior :=
| Interpolated (x_points pdf_points : list Q)
| NormalPrior (mu : Q) (sigma : option Q).

(** The BEA model ([bea.py] lines 57-61 and 72-76): [E ~ prior],
    [tau ~ HalfNormal(tau_scale)], [delta ~ Exponential(1 / tau)] of shape
    [n], [obs ~ Normal(E + delta, sigmas2)] observed at [ages2].
    [tau_scale] is a Python float: [None] would be NaN. *)
Record BeaModel := {
  bm_E : EPrior;
  bm_tau_sigma : option Q;
  bm_delta_shape : nat;
  bm_obs_sigma : list Q;
  bm_observed : list Q
}.

(** The BAD model ([bad.py] lines 65-82): ordered [d_true ~ Normal(d_obs,
    depth_sigma)] started at [d_obs]; [rates ~ LogNormal] of shape
    [K - 1]; [age0 ~ Normal(E_obs[0], max(5 E_sd[0], 0.2))]; the
    likelihood [E_like ~ Normal(age_ties, E_sd)] observed at [E_obs]. *)
Record BadModel := {
  bad_d_mu : list Q;
  bad_d_sigma : PyFloat;
  bad_d_initval : list Q;
  bad_rates_logmu : Q;
  bad_rates_logsigma : Q;
  bad_rates_shape : nat;
  bad_age0_mu : Q;
  bad_age0_sigma : Q;
  bad_like_sigma : list Q;
  bad_like_observed : list Q
}.

(** One posterior draw of the BAD model's free variables. *)
Record BadDraw := {
  draw_d_true : list Q;
  draw_age0 : Q;
  draw_rates : list Q
}.

(** [chains] chains of [draws] draws each. *)
Definition draws_shape {A : Type} (c : SampleCfg) (post : list (list A)) : Prop :=
  length post = cfg_chains c /\ Forall (fun ch => length ch = Z.to_nat (cfg_draws c)) post.

(** What a draw of the BAD model satisfies by construction. *)
Definition bad_draw_ok (m : BadModel) (d : BadDraw) : Prop :=
  length (draw_d_true d) = length (bad_d_mu m) /\ is_increasing (draw_d_true d) = true /\
  length (draw_rates d) = bad_rates_shape m /\ all_pos (draw_rates d) = true.

Definition last_or (l : list Q) (d : Q) : Q := last l d.

(** All entries equal (up to [==]): a sample with zero variance. *)
Definition all_equal (l : list Q) : bool :=
  match l with
  | [] => true
  | x :: l' => forallb (Qeq_bool x) l'
  end.

(** ** Interfaces *)

Class Sampler := {
  sample_bea : BeaModel -> SampleCfg -> result (list (list Q));
  sample_bad : BadModel -> SampleCfg -> result (list (list BadDraw));
  sample_bea_shape : forall m c post, (0 <= cfg_draws c)%Z -> sample_bea m c = Ok post -> draws_shape c post;
  sample_bea_support : forall m c post xs ps,
    bm_E m = Interpolated xs ps -> sample_bea m c = Ok post ->
    Forall (Forall (fun e => xs.[0] <= e <= last_or xs 0)) post;
  sample_bad_shape : forall m c post, (0 <= cfg_draws c)%Z -> sample_bad m c = Ok post -> draws_shape c post;
  sample_bad_support : forall m c post, sample_bad m c = Ok post ->
    Forall (Forall (bad_draw_ok m)) post
}.

(** [scipy.stats.gaussian_kde(sample)]: the density, or the exception
    scipy raises ([ValueError] below two points, [LinAlgError] when the
    sample's covariance is singular, e.g. all points equal). *)
Class Kde := {
  gaussian_kde : list Q -> result (Q -> Q);
  gaussian_kde_singular : forall mins, all_equal mins = true -> exists e, gaussian_kde mins = Err e
}.

(** [np.random.default_rng(seed)] and its stream of standard normals;
    [rng.normal(loc, scale)] is [loc + scale * z] for the next [z]. *)
Class NormalGenerator := {
  Gen : Type;
  default_rng : Z -> Gen;
  standard_normal : Gen -> Q * Gen
}.

(** ** Instances used by the witnesses *)

(** A sampler that puts every draw at the prior's location (the grid's
    first point, the normal's mean, [d_obs], [E_obs[0]], rates [0.05])
    and refuses models it cannot honour. *)
Definition point_sample_bea (m : BeaModel) (c : SampleCfg) : result (list (list Q)) :=
  let e := match bm_E m with Interpolated xs _ => xs.[0] | NormalPrior mu _ => mu end in
  match bm_E m with
  | Interpolated xs _ =>
      if Qle_bool xs.[0] (last_or xs 0)
      then Ok (repeat (repeat e (Z.to_nat (cfg_draws c))) (cfg_chains c))
      else Err (ValueError "grid not increasing")
  | NormalPrior _ _ => Ok (repeat (repeat e (Z.to_nat (cfg_draws c))) (cfg_chains c))
  end.

Definition point_sample_bad (m : BadModel) (c : SampleCfg) : result (list (list BadDraw)) :=
  if is_increasing (bad_d_mu m)
  then Ok (repeat (repeat {| draw_d_true := bad_d_mu m; draw_age0 := bad_age0_mu m;
                             draw_rates := repeat (1 # 20) (bad_rates_shape m) |}
                          (Z.to_nat (cfg_draws c))) (cfg_chains c))
  else Err (ValueError "initial point not ordered").

Lemma repeat_shape {A : Type} (c : SampleCfg) (x : A) :
  draws_shape c (repeat (repeat x (Z.to_nat (cfg_draws c))) (cfg_chains c)).
Proof.
  split; [apply repeat_length|]. apply Forall_forall; intros ch Hch.
  apply repeat_spec in Hch; subst; apply repeat_length.
Qed.

Lemma Forall_repeat_repeat {A : Type} (P : A -> Prop) (x : A) (n k : nat) :
  P x -> Forall (Forall P) (repeat (repeat x n) k).
Proof.
  intros Hx; apply Forall_forall; intros ch Hch; apply repeat_spec in Hch; subst.
  apply Forall_forall; intros y Hy; apply repeat_spec in Hy; subst; exact Hx.
Qed.

#[export] Instance point_sampler : Sampler.
Proof.
  refine {| sample_bea := point_sample_bea; sample_bad := point_sample_bad |}.
  - intros m c post _; unfold point_sample_bea.
    destruct (bm_E m); [destruct (Qle_bool _ _)|]; intros H; try discriminate;
      injection H as <-; apply repeat_shape.
  - intros m c post xs ps E; unfold point_sample_bea; rewrite E.
    destruct (Qle_bool xs.[0] (last_or xs 0)) eqn:Hle; [|discriminate].
    apply Qle_bool_iff in Hle; intros H; injection H as <-.
    apply Forall_repeat_repeat; lra.
  - intros m c post _; unfold point_sample_bad; destruct (is_increasing _); [|discriminate].
    intros H; injection H as <-; apply repeat_shape.
  - intros m c post; unfold point_sample_bad; destruct (is_increasing _) eqn:Hi; [|discriminate].
    intros H; injection H as <-; apply Forall_repeat_repeat.
    repeat split; simpl; auto; [apply repeat_length|].
    unfold all_pos; apply forallb_forall; intros x Hx; apply repeat_spec in Hx; subst; reflexivity.
Defined.

(** A flat density, failing where scipy fails, and two generators: one
    whose standard normals are all [0], one alternating [-1, 0]. *)
Definition flat_kde_fn (mins : list Q) : result (Q -> Q) :=
  if Nat.ltb (length mins) 2 then Err (ValueError "dataset input should have multiple elements")
  else if all_equal mins then Err (LinAlgError "singular matrix")
  else Ok (fun _ => 1).

#[export] Instance flat_kde : Kde.
Proof.
  refine {| gaussian_kde := flat_kde_fn |}.
  intros mins H; unfold flat_kde_fn; rewrite H.
  destruct (Nat.ltb _ _); eexists; reflexivity.
Defined.

Definition cycle_generator : NormalGenerator :=
  {| Gen := nat; default_rng := fun _ => 0%nat;
     standard_normal := fun g => (inject_Z (Z.of_nat (g mod 2)) - 1, S g) |}.

#[export] Instance zero_generator : NormalGenerator :=
  {| Gen := nat; default_rng := fun _ => 0%nat; standard_normal := fun g => (0, S g) |}.
