(* ===== verification/Bootstrap.v ===== *)
(** * EmpiricalPriorBuilder: [utils.bootstrap_min_prior_kde]

    [rng = default_rng(seed)];
    [draws = rng.normal(loc=ages[None, :], scale=sigmas[None, :], size=(n_boot, n))]
    fills the [n_boot x n] matrix in row-major order, entry [(r, i)] being
    [ages[i] + sigmas[i] * z] for the next standard normal [z];
    [mins = draws.min(axis=1)] takes each row's minimum (a [ValueError]
    for rows of length [0]); [gaussian_kde(mins)] is the prior density.
    The generator is the explicit state of [NormalGenerator], so the
    whole computation is a function of [seed]. *)

From S2P Require Import Prelude NpSort NpArray Posterior Engine.

Module Bootstrap.

Section WithGenerator.
Context {NG : NormalGenerator}.

(** One row: one standard normal per grain, in grain order. *)
Fixpoint draw_row (g : Gen) (ages sigmas : list Q) : list Q * Gen :=
  match ages, sigmas with
  | a :: ages', s :: sigmas' =>
      let (z, g1) := standard_normal g in
      let (row, g2) := draw_row g1 ages' sigmas' in
      ((a + s * z) :: row, g2)
  | _, _ => ([], g)
  end.

(** [n_boot] rows, the state threaded from one row to the next. *)
Fixpoint draw_rows (n_boot : nat) (g : Gen) (ages sigmas : list Q) : list (list Q) * Gen :=
  match n_boot with
  | O => ([], g)
  | S k =>
      let (row, g1) := draw_row g ages sigmas in
      let (rows, g2) := draw_rows k g1 ages sigmas in
      (row :: rows, g2)
  end.

(** [draws.min(axis=1)] after drawing from [default_rng(seed)]. *)
Definition bootstrap_mins (ages sigmas : list Q) (n_boot : nat) (seed : Z) : result (list Q) :=
  let rng := default_rng seed in
  let draws := fst (draw_rows n_boot rng ages sigmas) in
  map_result amin draws.

(** [utils.bootstrap_min_prior_kde]: the KDE of the row minima. *)
Definition bootstrap_min_prior_kde `{Kde} (ages sigmas : list Q) (n_boot : nat) (seed : Z)
  : result (Q -> Q) :=
  (mins <- bootstrap_mins ages sigmas n_boot seed ;;
   gaussian_kde mins)%result.

(** ** Lemmas *)

Lemma draw_row_length (g : Gen) (ages sigmas : list Q) :
  length ages = length sigmas -> length (fst (draw_row g ages sigmas)) = length ages.
Proof.
  revert g sigmas; induction ages as [|a ages IH]; intros g [|s sigmas] Hl; simpl in *; try lia.
  destruct (standard_normal g) as [z g1]; destruct (draw_row g1 ages sigmas) as [row g2] eqn:E.
  simpl; f_equal. specialize (IH g1 sigmas ltac:(lia)); rewrite E in IH; exact IH.
Qed.

(** Entry [i] of a row is [ages[i] + sigmas[i] * z] for some standard
    normal [z]. *)
Lemma draw_row_entries (g : Gen) (ages sigmas : list Q) :
  length ages = length sigmas ->
  Forall2 (fun x p => exists z, x = fst p + snd p * z) (fst (draw_row g ages sigmas))
          (combine ages sigmas).
Proof.
  revert g sigmas; induction ages as [|a ages IH]; intros g [|s sigmas] Hl; simpl in *; try lia;
    [constructor|].
  destruct (standard_normal g) as [z g1]; destruct (draw_row g1 ages sigmas) as [row g2] eqn:E.
  simpl; constructor; [eauto|]. specialize (IH g1 sigmas ltac:(lia)); rewrite E in IH; exact IH.
Qed.

Lemma draw_rows_rows (n : nat) (g : Gen) (ages sigmas : list Q) :
  length ages = length sigmas ->
  length (fst (draw_rows n g ages sigmas)) = n /\
  Forall (fun row => length row = length ages /\
            Forall2 (fun x p => exists z, x = fst p + snd p * z) row (combine ages sigmas))
         (fst (draw_rows n g ages sigmas)).
Proof.
  intros Hl; revert g; induction n as [|n IH]; intros g; simpl; [split; auto|].
  destruct (draw_row g ages sigmas) as [row g1] eqn:E1.
  destruct (draw_rows n g1 ages sigmas) as [rows g2] eqn:E2; simpl.
  destruct (IH g1) as [IHl IHf]; rewrite E2 in IHl, IHf; simpl in IHl, IHf.
  split; [f_equal; exact IHl|]. constructor; [|exact IHf].
  pose proof (draw_row_length g ages sigmas Hl) as L; pose proof (draw_row_entries g ages sigmas Hl) as F.
  rewrite E1 in L, F; split; assumption.
Qed.

Lemma draw_row_zero_sigma (row ages sigmas : list Q) :
  length ages = length sigmas -> Forall (fun s => s == 0) sigmas ->
  Forall2 (fun x p => exists z, x = fst p + snd p * z) row (combine ages sigmas) ->
  row =l= ages.
Proof.
  revert row sigmas; induction ages as [|a ages IH]; intros row [|s sigmas] Hl Hs H;
    simpl in *; try lia; inversion H; subst; constructor.
  - inversion Hs; subst. destruct H3 as [z ->]; simpl. rewrite H2; ring.
  - inversion Hs; subst. apply (IH _ sigmas); auto.
Qed.

(** For a non-empty grain set with one sigma per age, [bootstrap_mins]
    succeeds with one value per bootstrap repetition, and each value is
    the minimum of its row of simulated ages: it is one of them (up to
    [==]) and no simulated age of the row is smaller. *)
Lemma bootstrap_mins_spec (ages sigmas : list Q) (n_boot : nat) (seed : Z) :
  ages <> [] -> length ages = length sigmas ->
  exists mins, bootstrap_mins ages sigmas n_boot seed = Ok mins /\
    length mins = n_boot /\
    Forall2 (fun row m => (exists x, In x row /\ x == m) /\ Forall (fun y => m <= y) row)
            (fst (draw_rows n_boot (default_rng seed) ages sigmas)) mins.
Proof.
  intros Ha Hl; unfold bootstrap_mins.
  destruct (draw_rows_rows n_boot (default_rng seed) ages sigmas Hl) as [Hn Hrows].
  destruct (map_result_ok amin (fst (draw_rows n_boot (default_rng seed) ages sigmas)))
    as (mins & E & HF).
  { intros row Hrow; rewrite Forall_forall in Hrows; destruct (Hrows row Hrow) as [Lr _].
    apply amin_total; intros ->; simpl in Lr; destruct ages; [congruence | discriminate]. }
  exists mins; split; [exact E|]. split; [rewrite <- (Forall2_length HF); exact Hn|].
  eapply Forall2_impl; [|exact HF]. intros row m Hm; apply amin_spec, Hm.
Qed.


(** When every grain's sigma is [0] the simulation is exact: every
    bootstrap minimum equals the youngest observed age [ages.min()]
    (up to [==]), whatever the generator produces. *)
Lemma bootstrap_mins_exact (ages sigmas : list Q) (n_boot : nat) (seed : Z) (m : Q) :
  amin ages = Ok m -> length ages = length sigmas -> Forall (fun s => s == 0) sigmas ->
  exists mins, bootstrap_mins ages sigmas n_boot seed = Ok mins /\
    length mins = n_boot /\ Forall (fun x => x == m) mins.
Proof.
  intros Hm Hl Hs. assert (Ha : ages <> []) by (intros ->; discriminate).
  destruct (bootstrap_mins_spec ages _ n_boot seed Ha Hl) as (mins & E & L & HF).
  exists mins; split; [exact E|]; split; [exact L|].
  destruct (draw_rows_rows n_boot (default_rng seed) ages _ Hl) as [_ Hrows].
  rewrite Forall_forall in Hrows.
  apply (Forall2_Forall_r _ _ _ _ HF); intros row x Hrow [(y & Hy & Ey) Hle].
  destruct (Hrows row Hrow) as [_ Hent].
  assert (Hsame : row =l= ages) by (apply (draw_row_zero_sigma _ _ sigmas Hl Hs Hent)).
  destruct (amin_total row) as [r Hr]; [intros ->; inversion Hsame; subst; congruence|].
  destruct (amin_spec _ _ Hr) as ((w & Hw & Ew) & Hrle).
  pose proof (amin_proper _ _ _ _ Hsame Hr Hm) as Hrm.
  rewrite Forall_forall in Hle, Hrle.
  pose proof (Hle w Hw); pose proof (Hrle y Hy). lra.
Qed.


End WithGenerator.

End Bootstrap.
