(* ===== verification/Bea.v ===== *)
(** * BEAModel: [bea.fit_bea_for_ash]

    One ash bed: filter the grain ages ([RobustStats]), fall back to all
    grains when fewer than two survive, floor the MAD scale at [0.02],
    choose the prior of the eruption age [E] (the bootstrap KDE on a
    2000-point grid [min - 1 .. min + 0.5], or a wide normal below the
    youngest grain), declare the model, sample it through [Sampler], and
    summarise the draws of [E] (mean, std, 95% HDI).  The definitions
    follow the code's order; a Python exception stops the computation as
    an [Err]. *)

From S2P Require Import Prelude NpSort NpArray RobustStats Posterior Engine Bootstrap.
From Stdlib Require Import Qround.
Import RobustStats Bootstrap.

Module Bea.

(** [BEAResult] ([bea.py] lines 11-18); [e_mean] and [e_sd] are Python
    floats ([None] would be NaN). *)
Record BEAResult := {
  ash_id : string;
  e_mean : option Q;
  e_sd : option Q;
  hdi95_low : Q;
  hdi95_high : Q;
  n_used : nat
}.

(** Python's [max(a, b)] for a float [a] that may be NaN: [b] if
    [b > a], else [a] (so NaN stays NaN). *)
Definition py_max (a : option Q) (b : Q) : option Q :=
  match a with
  | Some x => if Qltb x b then Some b else Some x
  | None => None
  end.

(** [1e-300], the floor of the interpolated prior density. *)
Definition pdf_floor : Q := 1 # (10 ^ 300).

Section Fit.
Context {SQ : SqrtModel} {NG : NormalGenerator} {KD : Kde} {SM : Sampler}.

(** Lines 46-48: filter, and keep every grain when fewer than two
    survive. *)
Definition select_grains (ages sigmas : list Q) (max_span_ma : PyFloat) : result (list Q * list Q) :=
  (r <- filter_outliers_within_span ages sigmas max_span_ma ;;
   if Nat.ltb (length (fst r)) 2 then Ok (ages, sigmas) else Ok r)%result.

(** Lines 52-55 and 69-70: the prior of [E]. *)
Definition e_prior (use_bootstrap_prior : bool) (ages2 sigmas2 : list Q) (seed : Z)
  : result EPrior :=
  (if use_bootstrap_prior && Nat.leb 2 (length ages2) then
     kde <- bootstrap_min_prior_kde ages2 sigmas2 6000 seed ;;
     lo <- amin ages2 ;;
     let grid := linspace (lo - 1) (lo + (1 # 2)) 2000 in
     let pdf := map (fun x => Qmax (kde x) pdf_floor) grid in
     Ok (Interpolated grid pdf)
   else
     lo <- amin ages2 ;;
     let mu0 := lo - (5 # 100) in
     let sd0 := py_max (option_map (fun s => s * 3) (robust_mad ages2)) (2 # 10) in
     Ok (NormalPrior mu0 sd0))%result.

(** Lines 46-76 without the sampling: the model handed to [pm.sample]. *)
Definition bea_model (ages sigmas : list Q) (use_bootstrap_prior : bool) (max_span_ma : PyFloat)
  (seed : Z) : result BeaModel :=
  (sel <- select_grains ages sigmas max_span_ma ;;
   let ages2 := fst sel in
   let sigmas2 := snd sel in
   let tau_scale := py_max (robust_mad ages2) (2 # 100) in
   prior <- e_prior use_bootstrap_prior ages2 sigmas2 seed ;;
   Ok {| bm_E := prior; bm_tau_sigma := tau_scale; bm_delta_shape := length ages2;
         bm_obs_sigma := sigmas2; bm_observed := ages2 |})%result.

(** Lines 84-94: the summary of the draws of [E], pooled over chains. *)
Definition summarize_bea (ash_id : string) (idata : list (list Q)) (n_used : nat)
  : result BEAResult :=
  (let post_E := concat idata in
   h <- hdi post_E (95 # 100) ;;
   Ok {| ash_id := ash_id; e_mean := mean post_E; e_sd := std post_E;
         hdi95_low := fst h; hdi95_high := snd h; n_used := n_used |})%result.

(** [fit_bea_for_ash] (lines 22-94). *)
Definition fit_bea_for_ash (ash_id : string) (ages sigmas : list Q)
  (use_bootstrap_prior : bool) (max_span_ma : PyFloat) (draws tune : Z) (chains : nat)
  (target_accept : Q) (seed : Z) : result BEAResult :=
  (m <- bea_model ages sigmas use_bootstrap_prior max_span_ma seed ;;
   idata <- sample_bea m {| cfg_draws := draws; cfg_tune := tune; cfg_chains := chains;
                            cfg_target_accept := target_accept; cfg_random_seed := seed |} ;;
   summarize_bea ash_id idata (bm_delta_shape m))%result.

(** ** Lemmas *)

Lemma py_max_ge (a : option Q) (b y : Q) : py_max a b = Some y -> b <= y.
Proof.
  destruct a as [x|]; simpl; [|discriminate].
  destruct (Qltb x b) eqn:E; intros H; injection H as <-; [apply Qle_refl|].
  apply Qnot_lt_le; intros Hc; apply Qltb_iff in Hc; congruence.
Qed.

Lemma py_max_some (x b : Q) : exists y, py_max (Some x) b = Some y.
Proof. simpl; destruct (Qltb x b); eauto. Qed.

Lemma select_grains_ok (ages sigmas ages2 sigmas2 : list Q) (span : PyFloat) :
  select_grains ages sigmas span = Ok (ages2, sigmas2) ->
  length ages = length sigmas /\ length ages2 = length sigmas2 /\
  incl ages2 ages /\ incl sigmas2 sigmas /\ (length ages2 <= length ages)%nat /\
  ((ages2 = ages /\ sigmas2 = sigmas) \/ (2 <= length ages2)%nat).
Proof.
  unfold select_grains, bind.
  destruct (filter_outliers_within_span ages sigmas span) as [[a' s']|e] eqn:E; [|discriminate].
  destruct (filter_outliers_lengths _ _ _ _ _ E) as (H1 & H2 & H3).
  assert (Hincl : incl a' ages /\ incl s' sigmas).
  { rewrite filter_outliers_ok in E by exact H1; injection E as <- <-. split.
    - intros x Hx; apply filter_In in Hx; apply Hx.
    - intros x Hx; apply in_map_iff in Hx as ([a x'] & <- & Hp).
      apply filter_In in Hp as [Hp _]; apply in_combine_r in Hp; exact Hp. }
  simpl; destruct (Nat.ltb_spec (length a') 2); intros R; injection R as <- <-.
  - split; [exact H1|]; split; [exact H1|]; split; [apply incl_refl|]; split; [apply incl_refl|].
    split; [lia | left; split; reflexivity].
  - split; [exact H1|]; split; [exact H3|]; split; [apply Hincl|]; split; [apply Hincl|].
    split; [exact H2 | right; lia].
Qed.

Lemma filter_outliers_empty (span : PyFloat) : filter_outliers_within_span [] [] span = Ok ([], []).
Proof. reflexivity. Qed.

Lemma e_prior_ok (b : bool) (ages2 sigmas2 : list Q) (seed : Z) (pr : EPrior) :
  e_prior b ages2 sigmas2 seed = Ok pr ->
  exists lo, amin ages2 = Ok lo /\
  ((b = true /\ (2 <= length ages2)%nat /\
    exists pdf, pr = Interpolated (linspace (lo - 1) (lo + (1 # 2)) 2000) pdf /\
      length pdf = 2000%nat /\ Forall (fun p => pdf_floor <= p) pdf) \/
   ((b = false \/ (length ages2 < 2)%nat) /\
    exists sd0, pr = NormalPrior (lo - (5 # 100)) (Some sd0) /\ 2 # 10 <= sd0)).
Proof.
  unfold e_prior, bind.
  destruct (b && Nat.leb 2 (length ages2)) eqn:Eb.
  - apply andb_prop in Eb as [-> Hl]; apply Nat.leb_le in Hl.
    destruct (bootstrap_min_prior_kde ages2 sigmas2 6000 seed) as [kde|e]; [|discriminate].
    destruct (amin ages2) as [lo|e]; [|discriminate]; cbv zeta; intros E; injection E as <-.
    exists lo; split; [reflexivity|]; left; split; [reflexivity|]; split; [exact Hl|].
    exists (map (fun x => Qmax (kde x) pdf_floor) (linspace (lo - 1) (lo + (1 # 2)) 2000)).
    split; [reflexivity|]. split; [rewrite length_map; apply length_linspace|].
    apply Forall_forall; intros p Hp; apply in_map_iff in Hp as (x & <- & _); apply Q.le_max_r.
  - destruct (amin ages2) as [lo|e] eqn:Ea; [|discriminate]; intros E; injection E as <-.
    exists lo; split; [reflexivity|]; right.
    split; [destruct b; [right; apply Nat.leb_gt; exact Eb | left; reflexivity]|].
    assert (Hne : ages2 <> []) by (intros ->; discriminate).
    destruct (robust_mad_not_nan ages2 Hne) as [t Ht]; rewrite Ht; simpl option_map.
    destruct (py_max_some (t * 3) (2 # 10)) as [y Hy]; rewrite Hy.
    exists y; split; [reflexivity | apply (py_max_ge _ _ _ Hy)].
Qed.

Lemma bea_model_ok (ages sigmas : list Q) (b : bool) (span : PyFloat) (seed : Z) (m : BeaModel) :
  bea_model ages sigmas b span seed = Ok m ->
  exists ages2 sigmas2 lo,
    select_grains ages sigmas span = Ok (ages2, sigmas2) /\ amin ages2 = Ok lo /\
    bm_observed m = ages2 /\ bm_obs_sigma m = sigmas2 /\ bm_delta_shape m = length ages2 /\
    bm_tau_sigma m = py_max (robust_mad ages2) (2 # 100) /\
    e_prior b ages2 sigmas2 seed = Ok (bm_E m).
Proof.
  unfold bea_model, bind.
  destruct (select_grains ages sigmas span) as [[ages2 sigmas2]|e] eqn:Es; [|discriminate].
  cbv zeta; cbn [fst snd].
  destruct (e_prior b ages2 sigmas2 seed) as [pr|e] eqn:Ep; [|discriminate].
  intros E; injection E as <-; simpl.
  destruct (e_prior_ok _ _ _ _ _ Ep) as (lo & Hlo & _).
  exists ages2, sigmas2, lo; repeat split; auto.
Qed.

(** ** Theorems *)

(** C30: an ash bed with no grain ages cannot be fitted: the code raises
    numpy's [ValueError] of [ages2.min()] on an empty array, before any
    model is sampled (whatever the sampler). *)
Theorem bea_no_grains (ash : string) (b : bool) (span : PyFloat) (draws tune : Z) (chains : nat)
  (ta : Q) (seed : Z) :
  exists msg, fit_bea_for_ash ash [] [] b span draws tune chains ta seed = Err (ValueError msg).
Proof.
  unfold fit_bea_for_ash, bea_model, select_grains, bind.
  rewrite filter_outliers_empty; simpl.
  unfold e_prior; rewrite andb_false_r; simpl; eauto.
Qed.

(** the grain count [fit_bea_for_ash] reports is at least one and at
    most the number of grains given; below two it is the whole set (the
    fallback when the outlier filter keeps fewer than two grains). *)
Theorem bea_n_used (ash : string) (ages sigmas : list Q) (b : bool) (span : PyFloat)
  (draws tune : Z) (chains : nat) (ta : Q) (seed : Z) (r : BEAResult) :
  fit_bea_for_ash ash ages sigmas b span draws tune chains ta seed = Ok r ->
  (1 <= n_used r <= length ages)%nat /\ ((n_used r < 2)%nat -> n_used r = length ages).
Proof.
  unfold fit_bea_for_ash, bind.
  destruct (bea_model ages sigmas b span seed) as [m|e] eqn:Em; [|discriminate].
  destruct (sample_bea _ _) as [idata|e]; [|discriminate].
  unfold summarize_bea, bind; destruct (hdi _ _) as [h|e]; [|discriminate].
  intros E; injection E as <-; simpl.
  destruct (bea_model_ok _ _ _ _ _ _ Em) as (ages2 & sigmas2 & lo & Hs & Hlo & _ & _ & -> & _).
  destruct (select_grains_ok _ _ _ _ _ Hs) as (_ & _ & _ & _ & Hle & Hcase).
  assert (1 <= length ages2)%nat by (destruct ages2; [discriminate | simpl; lia]).
  split; [lia|]. intros Hlt; destruct Hcase as [[-> _]|]; [reflexivity | lia].
Qed.

(** C10: every model [fit_bea_for_ash] hands to [pm.sample] is well
    formed: [tau]'s scale is a number [>= 0.02], one excess age per
    retained grain, one sigma per observed age, at least one observation,
    and either a 2000-point strictly increasing grid with a density
    [>= 1e-300 > 0] at every point, or a normal prior of scale [>= 0.2]. *)
Theorem bea_model_well_formed (ages sigmas : list Q) (b : bool) (span : PyFloat) (seed : Z)
  (m : BeaModel) :
  bea_model ages sigmas b span seed = Ok m ->
  (exists t, bm_tau_sigma m = Some t /\ 2 # 100 <= t) /\
  bm_delta_shape m = length (bm_observed m) /\
  length (bm_obs_sigma m) = length (bm_observed m) /\
  (1 <= length (bm_observed m))%nat /\
  match bm_E m with
  | Interpolated xs ps =>
      length xs = 2000%nat /\ is_increasing xs = true /\ length ps = 2000%nat /\
      Forall (fun p => 0 < p) ps
  | NormalPrior _ sd => exists s, sd = Some s /\ 2 # 10 <= s
  end.
Proof.
  intros Hm; destruct (bea_model_ok _ _ _ _ _ _ Hm) as
    (ages2 & sigmas2 & lo & Hs & Hlo & Eo & Esg & Ed & Et & Ep).
  destruct (select_grains_ok _ _ _ _ _ Hs) as (_ & Hl2 & _).
  assert (Hne : ages2 <> []) by (intros ->; discriminate).
  rewrite Eo, Esg, Ed, Et.
  split; [destruct (robust_mad_not_nan _ Hne) as [t Ht]; rewrite Ht;
          destruct (py_max_some t (2 # 100)) as [y Hy]; rewrite Hy; eauto using py_max_ge|].
  split; [reflexivity|]. split; [symmetry; exact Hl2|].
  split; [destruct ages2; [congruence | simpl; lia]|].
  destruct (e_prior_ok _ _ _ _ _ Ep) as (lo' & Hlo' & [(_ & _ & pdf & Epr & Lp & Fp)|(_ & sd0 & Epr & Hsd)]);
    rewrite Epr; [|eauto].
  split; [apply length_linspace|]. split; [apply linspace_increasing; lra|].
  split; [exact Lp|]. eapply Forall_impl; [|exact Fp]. intros p Hp.
  apply Qlt_le_trans with pdf_floor; [reflexivity | exact Hp].
Qed.

(** The bootstrap prior's grid runs from [min - 1] to [min + 0.5]. *)
Lemma bootstrap_grid_ends (lo : Q) :
  let grid := linspace (lo - 1) (lo + (1 # 2)) 2000 in
  grid.[0] == lo - 1 /\ last_or grid 0 = lo + (1 # 2).
Proof.
  intros grid; change 2000%nat with (S (S 1998)) in grid; subst grid.
  split; [apply linspace_first | apply last_linspace].
Qed.

(** C7: with the bootstrap prior and at least two retained grains, the
    95% HDI of the eruption age lies inside the prior's grid
    [[min - 1, min + 0.5]] around the youngest retained grain [min], and
    [low <= high]: the [Interpolated] prior confines every draw there. *)
Theorem bea_hdi_in_grid (ash : string) (ages sigmas : list Q) (span : PyFloat)
  (draws tune : Z) (chains : nat) (ta : Q) (seed : Z) (r : BEAResult) :
  fit_bea_for_ash ash ages sigmas true span draws tune chains ta seed = Ok r ->
  (2 <= n_used r)%nat ->
  exists ages2 sigmas2 y, select_grains ages sigmas span = Ok (ages2, sigmas2) /\
    amin ages2 = Ok y /\ y - 1 <= hdi95_low r <= hdi95_high r /\ hdi95_high r <= y + (1 # 2).
Proof.
  unfold fit_bea_for_ash, bind.
  destruct (bea_model ages sigmas true span seed) as [m|e] eqn:Em; [|discriminate].
  destruct (sample_bea m _) as [post|e] eqn:Es; [|discriminate].
  unfold summarize_bea, bind; destruct (hdi _ _) as [[lo hi]|e] eqn:Eh; [|discriminate].
  intros E Hn; injection E as <-; simpl in Hn |- *.
  destruct (bea_model_ok _ _ _ _ _ _ Em) as (ages2 & sigmas2 & y & Hs & Hy & _ & _ & Ed & _ & Ep).
  exists ages2, sigmas2, y; split; [exact Hs|]; split; [exact Hy|].
  destruct (e_prior_ok _ _ _ _ _ Ep) as (y' & Hy' & [(_ & _ & pdf & Epr & _)|([|] & _)]);
    [|discriminate | lia].
  rewrite Hy in Hy'; injection Hy' as <-.
  pose proof (sample_bea_support _ _ _ _ _ Epr Es) as Hsup.
  destruct (bootstrap_grid_ends y) as [H0 Hl].
  destruct (hdi_members _ _ _ _ Eh) as (Hle & Hlo & Hhi).
  apply (Forall_concat_In _ _ _ Hsup) in Hlo, Hhi.
  rewrite Hl, H0 in *. lra.
Qed.

(** C9: with the bootstrap prior, at least two grains and every sigma
    [0], [fit_bea_for_ash] fails: each of the 6000 bootstrap rows is the
    observed ages exactly, so every row minimum is the youngest age, and
    [gaussian_kde] raises on that zero-variance sample.  The normal
    fallback prior is not tried. *)
Theorem bea_zero_sigma_fails (ash : string) (ages sigmas : list Q) (span : PyFloat)
  (draws tune : Z) (chains : nat) (ta : Q) (seed : Z) :
  (2 <= length ages)%nat -> length ages = length sigmas -> Forall (fun s => s == 0) sigmas ->
  exists e, fit_bea_for_ash ash ages sigmas true span draws tune chains ta seed = Err e.
Proof.
  intros HK Hl Hs.
  assert (Hsel : exists ages2 sigmas2, select_grains ages sigmas span = Ok (ages2, sigmas2)).
  { unfold select_grains, bind; rewrite filter_outliers_ok by exact Hl; simpl.
    destruct (Nat.ltb _ 2); eauto. }
  destruct Hsel as (ages2 & sigmas2 & Hsel).
  destruct (select_grains_ok _ _ _ _ _ Hsel) as (_ & Hl2 & _ & Hsinc & Hle & Hcase).
  assert (HK2 : (2 <= length ages2)%nat) by (destruct Hcase as [[-> _]|]; lia).
  assert (Hs2 : Forall (fun s => s == 0) sigmas2) by (rewrite Forall_forall in *; auto).
  destruct (amin_total ages2) as [m Hm]; [intros ->; simpl in HK2; lia|].
  destruct (bootstrap_mins_exact ages2 sigmas2 6000 seed m Hm Hl2 Hs2) as (mins & Emins & _ & Fm).
  destruct (gaussian_kde_singular mins) as [e He].
  { destruct mins as [|x l]; [reflexivity|]; simpl; apply forallb_forall; intros y Hy.
    inversion Fm as [|? ? Hx Hl']; subst; rewrite Forall_forall in Hl'.
    pose proof (Hl' y Hy); apply Qeq_bool_iff; lra. }
  exists e. unfold fit_bea_for_ash, bea_model, bind; rewrite Hsel; cbv beta iota zeta; cbn [fst snd].
  unfold e_prior, bind; apply Nat.leb_le in HK2; rewrite HK2; cbn [andb].
  unfold bootstrap_min_prior_kde, bind; rewrite Emins, He; reflexivity.
Qed.

(** C26: The summary [fit_bea_for_ash] reports (lines 84-94) describes the
    draws the sampler returned for the declared model, pooled over the
    chains: [e_mean] is their mean, [hdi95_low <= hdi95_high] are two of
    them, the interval holds at least [floor(0.95 n) + 1] of the [n]
    draws, and no window of that many consecutive sorted draws is
    narrower. *)
Theorem bea_hdi95 (ash : string) (ages sigmas : list Q) (b : bool) (span : PyFloat)
  (draws tune : Z) (chains : nat) (ta : Q) (seed : Z) (r : BEAResult) :
  fit_bea_for_ash ash ages sigmas b span draws tune chains ta seed = Ok r ->
  exists m idata, bea_model ages sigmas b span seed = Ok m /\
    sample_bea m {| cfg_draws := draws; cfg_tune := tune; cfg_chains := chains;
                    cfg_target_accept := ta; cfg_random_seed := seed |} = Ok idata /\
    let post := concat idata in
    let w := Z.to_nat (Qfloor ((95 # 100) * inject_Z (Z.of_nat (length post)))) in
    e_mean r = mean post /\
    hdi95_low r <= hdi95_high r /\ In (hdi95_low r) post /\ In (hdi95_high r) post /\
    (S w <= length (filter (fun x => Qle_bool (hdi95_low r) x && Qle_bool x (hdi95_high r)) post))%nat /\
    (forall j, (j + w < length post)%nat ->
       hdi95_high r - hdi95_low r <= (sort post).[j + w] - (sort post).[j]).
Proof.
  unfold fit_bea_for_ash, bind.
  destruct (bea_model ages sigmas b span seed) as [m|e] eqn:Em; [|discriminate].
  destruct (sample_bea m _) as [idata|e] eqn:Es; [|discriminate].
  unfold summarize_bea, bind; destruct (hdi _ _) as [[lo hi]|e] eqn:Eh; [|discriminate].
  intros E; injection E as <-; exists m, idata; split; [reflexivity|]; split; [exact Es|].
  cbn zeta; cbn [e_mean hdi95_low hdi95_high fst snd].
  destruct (hdi_members _ _ _ _ Eh) as (Hle & Hlo & Hhi).
  destruct (hdi_window _ _ _ _ Eh) as (k & _ & _ & _ & Hmin).
  pose proof (hdi_mass _ _ _ _ Eh) as Hmass.
  rewrite !sort_length in *; repeat split; assumption.
Qed.

End Fit.

(** ** Witnesses, with the instances of [Engine] and [NpArray] *)

Lemma bea_n_used_witness :
  exists r, fit_bea_for_ash "A" [10; 11; 12] [1; 1; 1] false (Fin 4) 4 4 2 (9 # 10) 0 = Ok r /\
    (1 <= n_used r <= 3)%nat /\ ((n_used r < 2)%nat -> n_used r = 3%nat).
Proof.
  destruct (fit_bea_for_ash "A" [10; 11; 12] [1; 1; 1] false (Fin 4) 4 4 2 (9 # 10) 0) as [r|e] eqn:E;
    [|vm_compute in E; discriminate].
  exists r; split; [reflexivity|]. exact (bea_n_used _ _ _ _ _ _ _ _ _ _ r E).
Defined.

Lemma bea_model_well_formed_witness :
  exists m, bea_model (NG := cycle_generator) [10; 11; 12] [1; 1; 1] true (Fin 4) 0 = Ok m /\
    bm_delta_shape m = length (bm_observed m) /\ (1 <= length (bm_observed m))%nat.
Proof.
  destruct (bea_model (NG := cycle_generator) [10; 11; 12] [1; 1; 1] true (Fin 4) 0) as [m|e] eqn:E;
    [|vm_compute in E; discriminate].
  exists m; split; [reflexivity|].
  destruct (bea_model_well_formed _ _ _ _ _ m E) as (_ & Hd & _ & Hl & _). split; assumption.
Defined.

Lemma bea_hdi_in_grid_witness :
  exists r, fit_bea_for_ash (NG := cycle_generator) "A" [10; 11; 12] [1; 1; 1] true (Fin 4) 4 4 2 (9 # 10) 0 = Ok r /\
    (2 <= n_used r)%nat /\ 9 <= hdi95_low r <= hdi95_high r /\ hdi95_high r <= 10 + (1 # 2).
Proof.
  destruct (fit_bea_for_ash (NG := cycle_generator) "A" [10; 11; 12] [1; 1; 1] true (Fin 4) 4 4 2 (9 # 10) 0) as [r|e] eqn:E;
    [|vm_compute in E; discriminate].
  assert (Hn : (2 <= n_used r)%nat) by (vm_compute in E; injection E as <-; simpl; lia).
  exists r; split; [reflexivity|]; split; [exact Hn|].
  destruct (bea_hdi_in_grid _ _ _ _ _ _ _ _ _ r E Hn) as (a2 & s2 & y & Hs & Hy & H1 & H2).
  vm_compute in Hs; injection Hs as <- <-; vm_compute in Hy; injection Hy as <-. lra.
Defined.

Lemma bea_zero_sigma_fails_witness :
  Nat.le 2 (length [10; 11; 12]) /\ length [10; 11; 12] = length [0; 0; 0] /\
  Forall (fun s => s == 0) [0; 0; 0] /\
  exists e, fit_bea_for_ash "A" [10; 11; 12] [0; 0; 0] true (Fin 4) 4 4 2 (9 # 10) 0 = Err e.
Proof.
  assert (H1 : Nat.le 2 (length [10; 11; 12])) by (simpl; lia).
  assert (H2 : length [10; 11; 12] = length [0; 0; 0]) by reflexivity.
  assert (H3 : Forall (fun s => s == 0) [0; 0; 0]) by (repeat constructor).
  split; [exact H1|]; split; [exact H2|]; split; [exact H3|].
  exact (bea_zero_sigma_fails "A" _ _ (Fin 4) 4 4 2 (9 # 10) 0 H1 H2 H3).
Defined.

Lemma bea_hdi95_witness :
  exists r, fit_bea_for_ash "A" [10; 11; 12] [1; 1; 1] false (Fin 4) 4 4 2 (9 # 10) 0 = Ok r /\
  exists m idata, bea_model [10; 11; 12] [1; 1; 1] false (Fin 4) 0 = Ok m /\
    sample_bea m {| cfg_draws := 4; cfg_tune := 4; cfg_chains := 2;
                    cfg_target_accept := 9 # 10; cfg_random_seed := 0 |} = Ok idata /\
    let post := concat idata in
    let w := Z.to_nat (Qfloor ((95 # 100) * inject_Z (Z.of_nat (length post)))) in
    e_mean r = mean post /\
    hdi95_low r <= hdi95_high r /\ In (hdi95_low r) post /\ In (hdi95_high r) post /\
    (S w <= length (filter (fun x => Qle_bool (hdi95_low r) x && Qle_bool x (hdi95_high r)) post))%nat /\
    (forall j, (j + w < length post)%nat ->
       hdi95_high r - hdi95_low r <= (sort post).[j + w] - (sort post).[j]).
Proof.
  destruct (fit_bea_for_ash "A" [10; 11; 12] [1; 1; 1] false (Fin 4) 4 4 2 (9 # 10) 0) as [r|e] eqn:E;
    [|vm_compute in E; discriminate].
  exists r; split; [reflexivity|]. exact (bea_hdi95 _ _ _ _ _ _ _ _ _ _ r E).
Defined.

End Bea.
