(* ===== verification/Bad.v ===== *)
(** * BADModel: [bad.fit_bad]

    The age-depth model: sort the tie points by depth ([np.argsort] and
    fancy indexing, lines 56-59), require [K >= 2] ties (lines 61-63),
    declare the model (lines 65-82) and sample it through [Sampler]
    (lines 84-88), write the posterior (lines 90-91), then evaluate every
    posterior draw at the query depths with [_piecewise_age_one_draw]
    (lines 94-101) and at the ties (lines 111-115), and summarise each
    column by its mean and its 2.5% and 97.5% quantiles (lines 103-108
    and 117-124).  The whole function is an [IO] computation of
    [FileSys]: the directory is created before anything is checked.

    [np.argsort]'s default sort is not stable; [argsort] here is the
    stable one, which is one of the orders numpy may return (they differ
    only among ties of equal depth).  pandas' [sort_values("depth_m")] is
    likewise [sort_by depth_m]: rows of equal depth are identical (the
    same query depth gives the same ages in every draw), so their order
    is not observable.  A DataFrame is a list of row records. *)

From S2P Require Import Prelude NpSort NpArray Piecewise Posterior Engine FileSys.
Import Piecewise.

Module Bad.

(** ** Data ([bad.py] lines 10-14 and the two DataFrames) *)

Record QueryRow := {
  depth_m : Q;
  age_mean_ma : option Q;
  age_hdi95_low_ma : Q;
  age_hdi95_high_ma : Q
}.

Record TieRow := {
  depth_obs_m : Q;
  eruption_obs_ma : Q;
  eruption_obs_sd_ma : Q;
  age_model_mean_ma : option Q;
  age_model_hdi95_low_ma : Q;
  age_model_hdi95_high_ma : Q
}.

Record BADOutputs := {
  tie_summary : list TieRow;
  query_summary : list QueryRow;
  posterior_path : string
}.

(** ** Sorting the ties (lines 56-59) *)

(** [np.argsort(d_obs)] *)
Definition argsort (a : list Q) : list nat := sort_by (fun i => a.[i]) (seq 0 (length a)).

(** [a[order]]: numpy raises [IndexError] on an index out of range. *)
Definition take (a : list Q) (idx : list nat) : result (list Q) :=
  if forallb (fun i => Nat.ltb i (length a)) idx
  then Ok (map (fun i => a.[i]) idx)
  else Err (IndexError "index is out of bounds for axis 0").

Definition sort_ties (d_obs E_obs E_sd : list Q) : result (list Q * list Q * list Q) :=
  let order := argsort d_obs in
  (d' <- take d_obs order ;;
   E' <- take E_obs order ;;
   s' <- take E_sd order ;;
   Ok (d', E', s'))%result.

(** ** The model (lines 65-82) *)

Definition bad_model (d_obs E_obs E_sd : list Q) (depth_sigma_m : PyFloat) (sedrate_logn_mu sedrate_logn_sigma : Q)
  : BadModel :=
  let K := length d_obs in
  let s0 := E_sd.[0] * 5 in
  {| bad_d_mu := d_obs; bad_d_sigma := depth_sigma_m; bad_d_initval := d_obs;
     bad_rates_logmu := sedrate_logn_mu; bad_rates_logsigma := sedrate_logn_sigma;
     bad_rates_shape := K - 1;
     bad_age0_mu := E_obs.[0];
     bad_age0_sigma := if Qltb s0 (2 # 10) then 2 # 10 else s0;
     bad_like_sigma := E_sd; bad_like_observed := E_obs |}.

(** ** Summaries (lines 94-124) *)

(** Lines 99-101: one row of query ages per pooled draw. *)
Definition query_ages (draws : list BadDraw) (q : list Q) : list (list Q) :=
  map (fun dr => _piecewise_age_one_draw (draw_d_true dr) (draw_age0 dr) (draw_rates dr) q) draws.

(** Lines 111-115: one row of tie ages per pooled draw. *)
Definition tie_age_rows (draws : list BadDraw) : list (list Q) :=
  map (fun dr => tie_ages (draw_d_true dr) (draw_age0 dr) (draw_rates dr)) draws.

(** Column [j] of a 2-D array, for numpy's [axis=0] reductions. *)
Definition column (rows : list (list Q)) (j : nat) : list Q := map (fun r => r.[j]) rows.

(** [np.quantile(rows, p, axis=0)] over [ncols] columns. *)
Definition quantile_axis0 (rows : list (list Q)) (ncols : nat) (p : Q) : result (list Q) :=
  map_result (fun j => quantile (column rows j) p) (seq 0 ncols).

(** Lines 103-108. *)
Definition summarize_query (ages_q : list (list Q)) (q : list Q) : result (list QueryRow) :=
  let n := length q in
  (lows <- quantile_axis0 ages_q n (25 # 1000) ;;
   highs <- quantile_axis0 ages_q n (975 # 1000) ;;
   let rows := map (fun j => {| depth_m := q.[j]; age_mean_ma := mean (column ages_q j);
                                age_hdi95_low_ma := lows.[j]; age_hdi95_high_ma := highs.[j] |})
                   (seq 0 n) in
   Ok (sort_by depth_m rows))%result.

(** Lines 117-124. *)
Definition summarize_ties (tie_rows : list (list Q)) (d_obs E_obs E_sd : list Q)
  : result (list TieRow) :=
  let K := length d_obs in
  (lows <- quantile_axis0 tie_rows K (25 # 1000) ;;
   highs <- quantile_axis0 tie_rows K (975 # 1000) ;;
   Ok (map (fun j => {| depth_obs_m := d_obs.[j]; eruption_obs_ma := E_obs.[j];
                        eruption_obs_sd_ma := E_sd.[j];
                        age_model_mean_ma := mean (column tie_rows j);
                        age_model_hdi95_low_ma := lows.[j];
                        age_model_hdi95_high_ma := highs.[j] |})
           (seq 0 K)))%result.

(** ** [fit_bad] (lines 29-130) *)

Definition fit_bad `{Sampler} (tie_depths_m tie_age_mean_ma tie_age_sd_ma query_depths_m : list Q)
  (depth_sigma_m : PyFloat) (sedrate_logn_mu sedrate_logn_sigma : Q) (draws tune : Z) (chains : nat)
  (target_accept : Q) (seed : Z) (outdir : string) : IO BADOutputs :=
  (_ <- ensure_dir outdir ;;
   sorted <- io_lift (sort_ties tie_depths_m tie_age_mean_ma tie_age_sd_ma) ;;
   let '(d_obs, E_obs, E_sd) := sorted in
   let K := length d_obs in
   _ <- io_lift (if Nat.ltb K 2 then Err (ValueError "BAD needs at least 2 tie points")
                 else Ok tt) ;;
   let m := bad_model d_obs E_obs E_sd depth_sigma_m sedrate_logn_mu sedrate_logn_sigma in
   idata <- io_lift (sample_bad m {| cfg_draws := draws; cfg_tune := tune; cfg_chains := chains;
                                    cfg_target_accept := target_accept;
                                    cfg_random_seed := seed |}) ;;
   let posterior_path := path_join outdir "bad_posterior.nc" in
   _ <- write_file posterior_path ;;
   let pooled := concat idata in
   query_summary <- io_lift (summarize_query (query_ages pooled query_depths_m) query_depths_m) ;;
   tie_summary <- io_lift (summarize_ties (tie_age_rows pooled) d_obs E_obs E_sd) ;;
   io_ret {| tie_summary := tie_summary; query_summary := query_summary;
             posterior_path := posterior_path |})%io.

(** ** Sorting the ties *)

Lemma argsort_perm (a : list Q) : Permutation (argsort a) (seq 0 (length a)).
Proof. apply sort_by_perm. Qed.

Lemma length_argsort (a : list Q) : length (argsort a) = length a.
Proof. rewrite (Permutation_length (argsort_perm a)), length_seq; reflexivity. Qed.

Lemma argsort_in_range (a : list Q) (i : nat) : In i (argsort a) -> (i < length a)%nat.
Proof.
  intros Hi; apply (Permutation_in _ (argsort_perm a)), in_seq in Hi; lia.
Qed.

Lemma take_ok (a : list Q) (idx : list nat) :
  (forall i, In i idx -> (i < length a)%nat) -> take a idx = Ok (map (fun i => a.[i]) idx).
Proof.
  intros H; unfold take.
  replace (forallb _ idx) with true; [reflexivity|].
  symmetry; apply forallb_forall; intros i Hi; apply Nat.ltb_lt, H, Hi.
Qed.

Lemma take_err (a : list Q) (idx : list nat) (i : nat) :
  In i idx -> (length a <= i)%nat -> exists msg, take a idx = Err (IndexError msg).
Proof.
  intros Hi Hle; unfold take.
  replace (forallb _ idx) with false; [eexists; reflexivity|].
  symmetry; apply not_true_iff_false; rewrite forallb_forall; intros H.
  specialize (H i Hi); apply Nat.ltb_lt in H; lia.
Qed.

(** With at least one mean and one sd per depth, the ties are the input
    rows re-read in [argsort] order. *)
Lemma sort_ties_ok (d E s : list Q) :
  (length d <= length E)%nat -> (length d <= length s)%nat ->
  sort_ties d E s = Ok (map (fun i => d.[i]) (argsort d), map (fun i => E.[i]) (argsort d),
                        map (fun i => s.[i]) (argsort d)).
Proof.
  intros HE Hs; unfold sort_ties.
  rewrite !take_ok; [reflexivity|..]; intros i Hi; apply argsort_in_range in Hi; lia.
Qed.

Lemma sort_ties_sorted (d : list Q) : is_sorted (map (fun i => d.[i]) (argsort d)) = true.
Proof. apply sort_by_sorted. Qed.

(** Fewer means (or sds) than depths: [E_obs[order]] raises. *)
Lemma sort_ties_short (d E s : list Q) :
  (length E < length d)%nat \/ (length d <= length E /\ length s < length d)%nat ->
  exists msg, sort_ties d E s = Err (IndexError msg).
Proof.
  intros H; unfold sort_ties.
  assert (Hin : In (length d - 1)%nat (argsort d))
    by (apply (Permutation_in _ (Permutation_sym (argsort_perm d))), in_seq; lia).
  rewrite take_ok by (intros i Hi; apply argsort_in_range, Hi).
  destruct H as [H|[H1 H2]].
  - destruct (take_err E (argsort d) _ Hin ltac:(lia)) as [msg ->]; exists msg; reflexivity.
  - rewrite take_ok by (intros i Hi; apply argsort_in_range in Hi; lia).
    destruct (take_err s (argsort d) _ Hin ltac:(lia)) as [msg ->]; exists msg; reflexivity.
Qed.

(** Reading only in-range indices, [take] ignores the entries beyond. *)
Lemma take_firstn (a : list Q) (idx : list nat) (n : nat) :
  (forall i, In i idx -> (i < n)%nat) -> (n <= length a)%nat ->
  take (firstn n a) idx = take a idx.
Proof.
  intros H Hn; rewrite !take_ok.
  - f_equal; apply map_ext_in; intros i Hi; rewrite nth_firstn.
    destruct (Nat.ltb_spec i n); [reflexivity | specialize (H i Hi); lia].
  - intros i Hi; specialize (H i Hi); lia.
  - intros i Hi; rewrite length_firstn; specialize (H i Hi); lia.
Qed.

Lemma sort_ties_firstn (d E s : list Q) :
  (length d <= length E)%nat -> (length d <= length s)%nat ->
  sort_ties d (firstn (length d) E) (firstn (length d) s) = sort_ties d E s.
Proof.
  intros HE Hs; unfold sort_ties.
  rewrite !take_firstn by (try assumption; intros i Hi; apply argsort_in_range, Hi).
  reflexivity.
Qed.

(** Row [j] of the sorted columns is row [order[j]] of the input. *)
Lemma sorted_triples (d E s : list Q) :
  let order := argsort d in
  let d' := map (fun i => d.[i]) order in
  let E' := map (fun i => E.[i]) order in
  let s' := map (fun i => s.[i]) order in
  map (fun j => (d'.[j], E'.[j], s'.[j])) (seq 0 (length d')) =
  map (fun i => (d.[i], E.[i], s.[i])) order.
Proof.
  intros order d' E' s'; subst d' E' s'; rewrite length_map.
  transitivity (map (fun i => (d.[i], E.[i], s.[i]))
                    (map (fun j => nth j order 0%nat) (seq 0 (length order)))).
  - rewrite map_map; apply map_ext_in; intros j Hj; apply in_seq in Hj.
    rewrite !(nth_map_lt _ _ 0%nat) by lia; reflexivity.
  - rewrite map_nth_seq_self; reflexivity.
Qed.

(** ** Summaries *)

Lemma quantile_axis0_nth (rows : list (list Q)) (n : nat) (p : Q) (ys : list Q) (j : nat) :
  quantile_axis0 rows n p = Ok ys -> (j < n)%nat -> quantile (column rows j) p = Ok ys.[j].
Proof.
  intros H Hj; pose proof (map_result_nth _ _ _ 0%nat j H) as E.
  rewrite length_seq, seq_nth in E by lia; apply E; lia.
Qed.

(** The query table: one row per query depth, sorted by depth, each row
    the mean and quantiles of that depth's column. *)
Lemma summarize_query_ok (rows : list (list Q)) (q : list Q) (qs : list QueryRow) :
  summarize_query rows q = Ok qs ->
  length qs = length q /\ is_sorted (map depth_m qs) = true /\ Permutation (map depth_m qs) q /\
  forall r, In r qs -> exists j, (j < length q)%nat /\ depth_m r = q.[j] /\
    age_mean_ma r = mean (column rows j) /\
    quantile (column rows j) (25 # 1000) = Ok (age_hdi95_low_ma r) /\
    quantile (column rows j) (975 # 1000) = Ok (age_hdi95_high_ma r).
Proof.
  unfold summarize_query, bind.
  destruct (quantile_axis0 rows (length q) (25 # 1000)) as [lows|e] eqn:Hl; [|discriminate].
  destruct (quantile_axis0 rows (length q) (975 # 1000)) as [highs|e] eqn:Hh; [|discriminate].
  intros E; injection E as <-.
  pose proof (sort_by_perm depth_m (map (fun j => {| depth_m := q.[j]; age_mean_ma := mean (column rows j);
      age_hdi95_low_ma := lows.[j]; age_hdi95_high_ma := highs.[j] |}) (seq 0 (length q)))) as Hp.
  split; [rewrite (Permutation_length Hp), length_map, length_seq; reflexivity|].
  split; [apply sort_by_sorted|].
  split; [rewrite (Permutation_map _ Hp), map_map; simpl; rewrite map_nth_seq_self; reflexivity|].
  intros r Hr; apply (Permutation_in _ Hp), in_map_iff in Hr as (j & <- & Hj).
  apply in_seq in Hj; exists j; simpl; repeat split; try lia;
    eapply quantile_axis0_nth; eauto; lia.
Qed.

(** The tie table: row [j] is tie [j] (as sorted) with the mean and
    quantiles of column [j] of the tie ages. *)
Lemma summarize_ties_ok (rows : list (list Q)) (d E s : list Q) (ts : list TieRow) :
  summarize_ties rows d E s = Ok ts ->
  map (fun r => (depth_obs_m r, eruption_obs_ma r, eruption_obs_sd_ma r)) ts =
    map (fun j => (d.[j], E.[j], s.[j])) (seq 0 (length d)) /\
  length ts = length d /\
  forall j, (j < length d)%nat -> exists r, nth_error ts j = Some r /\
    age_model_mean_ma r = mean (column rows j) /\
    quantile (column rows j) (25 # 1000) = Ok (age_model_hdi95_low_ma r) /\
    quantile (column rows j) (975 # 1000) = Ok (age_model_hdi95_high_ma r).
Proof.
  unfold summarize_ties, bind.
  destruct (quantile_axis0 rows (length d) (25 # 1000)) as [lows|e] eqn:Hl; [|discriminate].
  destruct (quantile_axis0 rows (length d) (975 # 1000)) as [highs|e] eqn:Hh; [|discriminate].
  intros E'; injection E' as <-.
  split; [rewrite map_map; reflexivity|].
  split; [rewrite length_map, length_seq; reflexivity|].
  intros j Hj; eexists; split.
  - rewrite nth_error_map, nth_error_seq; destruct (Nat.ltb_spec j (length d)); [|lia].
    reflexivity.
  - simpl; repeat split; eapply quantile_axis0_nth; eauto.
Qed.

Lemma column_query_ages (pooled : list BadDraw) (q : list Q) (j : nat) :
  (j < length q)%nat ->
  column (query_ages pooled q) j =
  map (fun dr => age_at (draw_d_true dr) (tie_ages (draw_d_true dr) (draw_age0 dr) (draw_rates dr))
                        (draw_rates dr) q.[j]) pooled.
Proof.
  intros Hj; unfold column, query_ages; rewrite map_map; apply map_ext; intros dr.
  unfold _piecewise_age_one_draw; apply nth_map_Q; exact Hj.
Qed.

Lemma column_tie_age_rows (pooled : list BadDraw) (j : nat) :
  column (tie_age_rows pooled) j =
  map (fun dr => (tie_ages (draw_d_true dr) (draw_age0 dr) (draw_rates dr)).[j]) pooled.
Proof. unfold column, tie_age_rows; rewrite map_map; reflexivity. Qed.

(** ** [fit_bad] *)

Section Fit.
Context {SM : Sampler}.

(** The steps of [fit_bad] up to the [K] check, when the directory can
    be created and every depth has its mean and sd. *)
Lemma fit_bad_prefix (d E s q : list Q) (dsig : PyFloat) (mu sig : Q) (draws tune : Z) (chains : nat) (ta : Q)
  (seed : Z) (outdir : string) (fs : FS) :
  outdir <> EmptyString -> ~ In outdir (fs_files fs) ->
  (length d <= length E)%nat -> (length d <= length s)%nat ->
  exists fs1, In outdir (fs_dirs fs1) /\ fs_files fs1 = fs_files fs /\
    incl (fs_dirs fs) (fs_dirs fs1) /\
    fit_bad d E s q dsig mu sig draws tune chains ta seed outdir fs =
    (let d' := map (fun i => d.[i]) (argsort d) in
     let E' := map (fun i => E.[i]) (argsort d) in
     let s' := map (fun i => s.[i]) (argsort d) in
     if Nat.ltb (length d) 2 then (Err (ValueError "BAD needs at least 2 tie points"), fs1)
     else
       (idata <- io_lift (sample_bad (bad_model d' E' s' dsig mu sig)
                   {| cfg_draws := draws; cfg_tune := tune; cfg_chains := chains;
                      cfg_target_accept := ta; cfg_random_seed := seed |}) ;;
        let posterior_path := path_join outdir "bad_posterior.nc" in
        _ <- write_file posterior_path ;;
        let pooled := concat idata in
        query_summary <- io_lift (summarize_query (query_ages pooled q) q) ;;
        tie_summary <- io_lift (summarize_ties (tie_age_rows pooled) d' E' s') ;;
        io_ret {| tie_summary := tie_summary; query_summary := query_summary;
                  posterior_path := posterior_path |})%io fs1).
Proof.
  intros Hp Hf HE Hs.
  destruct (ensure_dir_ok outdir fs Hp Hf) as (fs1 & Hd & Hin & Hfiles & Hincl).
  exists fs1; repeat split; auto.
  unfold fit_bad; rewrite (io_bind_ok _ _ _ _ _ Hd).
  unfold io_bind at 1, io_lift at 1; rewrite sort_ties_ok by assumption.
  rewrite length_map, length_argsort; cbv zeta.
  destruct (Nat.ltb (length d) 2); reflexivity.
Qed.

(** What a successful [fit_bad] went through: every step succeeded, in
    the code's order, on the ties sorted by depth. *)
Lemma fit_bad_ok_inv (d E s q : list Q) (dsig : PyFloat) (mu sig : Q) (draws tune : Z) (chains : nat) (ta : Q)
  (seed : Z) (outdir : string) (fs fs2 : FS) (out : BADOutputs) :
  fit_bad d E s q dsig mu sig draws tune chains ta seed outdir fs = (Ok out, fs2) ->
  let d' := map (fun i => d.[i]) (argsort d) in
  let E' := map (fun i => E.[i]) (argsort d) in
  let s' := map (fun i => s.[i]) (argsort d) in
  exists post,
    (2 <= length d)%nat /\ (length d <= length E)%nat /\ (length d <= length s)%nat /\
    sample_bad (bad_model d' E' s' dsig mu sig)
      {| cfg_draws := draws; cfg_tune := tune; cfg_chains := chains;
         cfg_target_accept := ta; cfg_random_seed := seed |} = Ok post /\
    summarize_query (query_ages (concat post) q) q = Ok (query_summary out) /\
    summarize_ties (tie_age_rows (concat post)) d' E' s' = Ok (tie_summary out) /\
    posterior_path out = path_join outdir "bad_posterior.nc" /\
    In (posterior_path out) (fs_files fs2) /\ In outdir (fs_dirs fs2).
Proof.
  intros H d' E' s'.
  unfold fit_bad, io_bind, io_lift, io_ret in H.
  destruct (ensure_dir outdir fs) as [[[]|e] fs1] eqn:Ed; [|discriminate].
  apply ensure_dir_ok_inv in Ed as [Hin _].
  assert (HE : (length d <= length E)%nat /\ (length d <= length s)%nat).
  { destruct (Nat.le_gt_cases (length d) (length E)) as [H1|H1];
      [destruct (Nat.le_gt_cases (length d) (length s)) as [H2|H2]; [lia|]|];
    (destruct (sort_ties_short d E s ltac:(lia)) as [msg Hm]; rewrite Hm in H; discriminate). }
  destruct HE as [HE Hs]; rewrite sort_ties_ok in H by assumption.
  rewrite length_map, length_argsort in H.
  destruct (Nat.ltb_spec (length d) 2) as [|HK]; [discriminate|].
  destruct (sample_bad _ _) as [post|e] eqn:Hp; [|discriminate].
  destruct (write_file _ fs1) as [[[]|e] fs3] eqn:Hw; [|discriminate].
  apply write_file_ok in Hw as (Hf & Hdirs & _).
  destruct (summarize_query _ _) as [qs|e] eqn:Hq; [|discriminate].
  destruct (summarize_ties _ _ _ _) as [ts|e] eqn:Ht; [|discriminate].
  injection H as <- <-.
  exists post; repeat split; auto. rewrite Hdirs; exact Hin.
Qed.

(** A [fit_bad] that succeeded once succeeds again, with the same
    outputs, in a run confined to its directory where the posterior
    file is expected and is not a directory. *)
Lemma fit_bad_confined (d E s q : list Q) (dsig : PyFloat) (mu sig : Q) (draws tune : Z) (chains : nat)
  (ta : Q) (seed : Z) (outdir : string) (outs : list string) (fs0 fs0' fs fs1 : FS) (out : BADOutputs) :
  fit_bad d E s q dsig mu sig draws tune chains ta seed outdir fs0 = (Ok out, fs0') ->
  confined outdir outs fs fs1 -> outdir <> EmptyString -> ~ In outdir outs -> ~ In outdir (fs_files fs) ->
  In (path_join outdir "bad_posterior.nc") outs ->
  ~ In (path_join outdir "bad_posterior.nc") (outdir :: fs_dirs fs) ->
  exists fs2, fit_bad d E s q dsig mu sig draws tune chains ta seed outdir fs1 = (Ok out, fs2) /\
    confined outdir outs fs fs2 /\ In (path_join outdir "bad_posterior.nc") (fs_files fs2) /\
    incl (fs_files fs1) (fs_files fs2).
Proof.
  intros H Hc Hp Ho Hf Hin Hnd; apply fit_bad_ok_inv in H; cbv zeta in H.
  destruct H as (post & HK & HE & Hs & Hsam & Hq & Ht & Hpath & _).
  destruct (ensure_dir_again _ _ _ _ Hc Hp Ho Hf) as (fs2 & Hd & Hc2 & Hf2).
  destruct (write_file_confined _ _ _ _ _ Hc2 Hin Hnd) as (fs3 & Hw & Hc3 & Hin3 & Hi3).
  exists fs3; unfold fit_bad; rewrite (io_bind_ok _ _ _ _ _ Hd).
  erewrite io_bind_ok; [| unfold io_lift; rewrite sort_ties_ok by assumption; reflexivity].
  cbv beta iota zeta; rewrite ?length_map, ?length_argsort.
  destruct (Nat.ltb_spec (length d) 2) as [|_]; [lia|].
  erewrite io_bind_ok; [| unfold io_lift; reflexivity].
  erewrite io_bind_ok; [| unfold io_lift; rewrite Hsam; reflexivity].
  rewrite (io_bind_ok _ _ _ _ _ Hw).
  erewrite io_bind_ok; [| unfold io_lift; rewrite Hq; reflexivity].
  erewrite io_bind_ok; [| unfold io_lift; rewrite Ht; reflexivity].
  split; [destruct out; cbn in Hpath |- *; rewrite Hpath; reflexivity|].
  rewrite <- Hf2; auto.
Qed.


(** Every pooled draw has the shape and the support the model declares:
    [K] strictly increasing depths and [K - 1] positive rates. *)
Lemma pooled_draws_ok (m : BadModel) (c : SampleCfg) (post : list (list BadDraw)) (dr : BadDraw) :
  sample_bad m c = Ok post -> (2 <= length (bad_d_mu m))%nat ->
  bad_rates_shape m = (length (bad_d_mu m) - 1)%nat -> In dr (concat post) ->
  well_shaped (draw_d_true dr) (draw_rates dr) = true /\ is_increasing (draw_d_true dr) = true /\
  all_pos (draw_rates dr) = true /\ length (draw_d_true dr) = length (bad_d_mu m).
Proof.
  intros Hp HK Hr Hdr.
  destruct (Forall_concat_In _ _ _ (sample_bad_support _ _ _ Hp) Hdr) as (Hl & Hi & Hlr & Hpos).
  repeat split; auto. unfold well_shaped; apply andb_true_intro; split;
    [apply Nat.leb_le | apply Nat.eqb_eq]; lia.
Qed.

Lemma pooled_nonempty (m : BadModel) (c : SampleCfg) (post : list (list BadDraw)) :
  sample_bad m c = Ok post -> (1 <= cfg_chains c)%nat -> (1 <= cfg_draws c)%Z ->
  concat post <> [].
Proof.
  intros Hp Hc Hd; destruct (sample_bad_shape m c post ltac:(lia) Hp) as [Hl Hf].
  destruct post as [|ch post]; simpl in Hl; [lia|].
  inversion Hf as [|? ? Hch _]; subst.
  destruct ch; simpl in Hch; [lia | discriminate].
Qed.

(** ** Theorems on [fit_bad] *)

(** C5: with fewer than two tie points [fit_bad] raises [ValueError]
    (lines 61-63), and it does so after [ensure_dir(outdir)] (line 48):
    the output directory exists afterwards although nothing was sampled,
    and no file was written. *)
Theorem fit_bad_needs_two_ties (d E s q : list Q) (dsig : PyFloat) (mu sig : Q) (draws tune : Z) (chains : nat)
  (ta : Q) (seed : Z) (outdir : string) (fs : FS) :
  outdir <> EmptyString -> ~ In outdir (fs_files fs) ->
  (length d < 2)%nat -> (length d <= length E)%nat -> (length d <= length s)%nat ->
  exists msg fs1,
    fit_bad d E s q dsig mu sig draws tune chains ta seed outdir fs = (Err (ValueError msg), fs1) /\
    In outdir (fs_dirs fs1) /\ fs_files fs1 = fs_files fs.
Proof.
  intros Hp Hf HK HE Hs.
  destruct (fit_bad_prefix d E s q dsig mu sig draws tune chains ta seed outdir fs Hp Hf HE Hs)
    as (fs1 & Hin & Hfiles & _ & ->).
  cbv zeta; destruct (Nat.ltb_spec (length d) 2); [|lia].
  eexists _, _; split; [reflexivity | split; assumption].
Qed.

(** C31: fewer eruption ages (or sds) than tie depths make the fancy
    indexing [E_obs[order]] (line 58) raise [IndexError]; the directory
    has been created by then. *)
Theorem fit_bad_short_columns (d E s q : list Q) (dsig : PyFloat) (mu sig : Q) (draws tune : Z) (chains : nat)
  (ta : Q) (seed : Z) (outdir : string) (fs : FS) :
  outdir <> EmptyString -> ~ In outdir (fs_files fs) ->
  ((length E < length d)%nat \/ (length d <= length E /\ length s < length d)%nat) ->
  exists msg fs1,
    fit_bad d E s q dsig mu sig draws tune chains ta seed outdir fs = (Err (IndexError msg), fs1) /\
    In outdir (fs_dirs fs1).
Proof.
  intros Hp Hf Hlen.
  destruct (ensure_dir_ok outdir fs Hp Hf) as (fs1 & Hd & Hin & _).
  destruct (sort_ties_short d E s Hlen) as [msg Hm].
  exists msg, fs1; split; [|exact Hin].
  unfold fit_bad; rewrite (io_bind_ok _ _ _ _ _ Hd).
  unfold io_bind at 1, io_lift at 1; rewrite Hm; reflexivity.
Qed.

(** C32: extra eruption ages or sds beyond the number of tie depths are
    silently ignored: [fit_bad] computes exactly what it computes on the
    columns cut to [len(tie_depths_m)] (the fancy indexing reads only the
    first [K] entries). *)
Theorem fit_bad_ignores_extra_rows (d E s q : list Q) (dsig : PyFloat) (mu sig : Q) (draws tune : Z) (chains : nat)
  (ta : Q) (seed : Z) (outdir : string) :
  (length d <= length E)%nat -> (length d <= length s)%nat ->
  fit_bad d E s q dsig mu sig draws tune chains ta seed outdir =
  fit_bad d (firstn (length d) E) (firstn (length d) s) q dsig mu sig draws tune chains ta seed outdir.
Proof.
  intros HE Hs; unfold fit_bad; rewrite sort_ties_firstn by assumption; reflexivity.
Qed.

(** C33: a successful [fit_bad] has written the posterior to
    [os.path.join(outdir, "bad_posterior.nc")], the path it returns, and
    the output directory exists. *)
Theorem fit_bad_writes_posterior (d E s q : list Q) (dsig : PyFloat) (mu sig : Q) (draws tune : Z) (chains : nat)
  (ta : Q) (seed : Z) (outdir : string) (fs fs2 : FS) (out : BADOutputs) :
  fit_bad d E s q dsig mu sig draws tune chains ta seed outdir fs = (Ok out, fs2) ->
  posterior_path out = path_join outdir "bad_posterior.nc" /\
  In (posterior_path out) (fs_files fs2) /\ In outdir (fs_dirs fs2).
Proof.
  intros H; apply fit_bad_ok_inv in H; cbv zeta in H.
  destruct H as (post & _ & _ & _ & _ & _ & _ & Hp & Hf & Hd); auto.
Qed.

(** C6: the tie table has one row per tie point, sorted by depth, and
    its (depth, eruption age, sd) columns are the input rows reordered:
    the sort of lines 56-59 moves whole rows, never mixing the columns of
    different ties. *)
Theorem fit_bad_tie_table (d E s q : list Q) (dsig : PyFloat) (mu sig : Q) (draws tune : Z) (chains : nat)
  (ta : Q) (seed : Z) (outdir : string) (fs fs2 : FS) (out : BADOutputs) :
  fit_bad d E s q dsig mu sig draws tune chains ta seed outdir fs = (Ok out, fs2) ->
  length (tie_summary out) = length d /\
  is_sorted (map depth_obs_m (tie_summary out)) = true /\
  Permutation (map (fun r => (depth_obs_m r, eruption_obs_ma r, eruption_obs_sd_ma r))
                   (tie_summary out))
              (map (fun i => (d.[i], E.[i], s.[i])) (seq 0 (length d))).
Proof.
  intros H; apply fit_bad_ok_inv in H; cbv zeta in H.
  destruct H as (post & _ & _ & _ & _ & _ & Ht & _).
  destruct (summarize_ties_ok _ _ _ _ _ Ht) as [Hrows _].
  rewrite sorted_triples in Hrows.
  split; [apply (f_equal (@length _)) in Hrows; rewrite !length_map, length_argsort in Hrows;
          exact Hrows|].
  split.
  - replace (map depth_obs_m (tie_summary out)) with
      (map (fun t => fst (fst t)) (map (fun r => (depth_obs_m r, eruption_obs_ma r,
                                                  eruption_obs_sd_ma r)) (tie_summary out)))
      by (rewrite map_map; reflexivity).
    rewrite Hrows, map_map; apply sort_ties_sorted.
  - rewrite Hrows; apply Permutation_map, argsort_perm.
Qed.

(** the query table has one row per query depth, sorted by depth
    ([sort_values("depth_m")]), and its depths are the query depths. *)
Theorem fit_bad_query_table (d E s q : list Q) (dsig : PyFloat) (mu sig : Q) (draws tune : Z) (chains : nat)
  (ta : Q) (seed : Z) (outdir : string) (fs fs2 : FS) (out : BADOutputs) :
  fit_bad d E s q dsig mu sig draws tune chains ta seed outdir fs = (Ok out, fs2) ->
  length (query_summary out) = length q /\
  is_sorted (map depth_m (query_summary out)) = true /\
  Permutation (map depth_m (query_summary out)) q.
Proof.
  intros H; apply fit_bad_ok_inv in H; cbv zeta in H.
  destruct H as (post & _ & _ & _ & _ & Hq & _).
  destruct (summarize_query_ok _ _ _ Hq) as (Hl & Hs & Hp & _); auto.
Qed.

(** The two facts about the pooled draws the monotonicity theorems use. *)
Lemma fit_bad_draws (d E s : list Q) (dsig : PyFloat) (mu sig : Q) (c : SampleCfg) (post : list (list BadDraw)) :
  (2 <= length d)%nat ->
  sample_bad (bad_model (map (fun i => d.[i]) (argsort d)) (map (fun i => E.[i]) (argsort d))
                        (map (fun i => s.[i]) (argsort d)) dsig mu sig) c = Ok post ->
  forall dr, In dr (concat post) ->
    well_shaped (draw_d_true dr) (draw_rates dr) = true /\ is_increasing (draw_d_true dr) = true /\
    all_pos (draw_rates dr) = true /\ length (draw_d_true dr) = length d.
Proof.
  intros HK Hp dr Hdr.
  destruct (pooled_draws_ok _ _ _ dr Hp) as (Hw & Hi & Hpos & Hl);
    cbn [bad_model bad_d_mu bad_rates_shape] in *;
    rewrite ?length_map, ?length_argsort in *; auto.
Qed.

(** C1: the age-depth model is monotone: of two query depths, the deeper
    one gets the strictly older posterior mean age (every draw has
    increasing tie depths and positive rates, so every draw's ages
    increase strictly with depth). *)
Theorem fit_bad_query_ages_increase (d E s q : list Q) (dsig : PyFloat) (mu sig : Q) (draws tune : Z) (chains : nat)
  (ta : Q) (seed : Z) (outdir : string) (fs fs2 : FS) (out : BADOutputs) (r1 r2 : QueryRow) :
  fit_bad d E s q dsig mu sig draws tune chains ta seed outdir fs = (Ok out, fs2) ->
  (1 <= chains)%nat -> (1 <= draws)%Z ->
  In r1 (query_summary out) -> In r2 (query_summary out) -> depth_m r1 < depth_m r2 ->
  exists a1 a2, age_mean_ma r1 = Some a1 /\ age_mean_ma r2 = Some a2 /\ a1 < a2.
Proof.
  intros H Hc Hd H1 H2 Hlt; apply fit_bad_ok_inv in H; cbv zeta in H.
  destruct H as (post & HK & _ & _ & Hp & Hq & _).
  destruct (summarize_query_ok _ _ _ Hq) as (_ & _ & _ & Hrow).
  destruct (Hrow r1 H1) as (j1 & Hj1 & Ed1 & Em1 & _).
  destruct (Hrow r2 H2) as (j2 & Hj2 & Ed2 & Em2 & _).
  rewrite Em1, Em2; apply mean_lt.
  - rewrite !column_query_ages by assumption. apply Forall2_map_same; intros dr Hdr.
    destruct (fit_bad_draws _ _ _ _ _ _ _ _ HK Hp dr Hdr) as (Hw & Hi & Hpos & _).
    apply age_at_strict_mono; auto. rewrite <- Ed1, <- Ed2; exact Hlt.
  - rewrite column_query_ages by assumption; intros E0; apply map_eq_nil in E0.
    exact (pooled_nonempty _ _ _ Hp Hc Hd E0).
Qed.

(** C24: the modelled tie ages are monotone too: down the tie table
    (sorted by depth), the posterior mean age of the tie points strictly
    increases. *)
Theorem fit_bad_tie_ages_increase (d E s q : list Q) (dsig : PyFloat) (mu sig : Q) (draws tune : Z) (chains : nat)
  (ta : Q) (seed : Z) (outdir : string) (fs fs2 : FS) (out : BADOutputs) (i j : nat)
  (r1 r2 : TieRow) :
  fit_bad d E s q dsig mu sig draws tune chains ta seed outdir fs = (Ok out, fs2) ->
  (1 <= chains)%nat -> (1 <= draws)%Z -> (i < j)%nat ->
  nth_error (tie_summary out) i = Some r1 -> nth_error (tie_summary out) j = Some r2 ->
  exists a1 a2, age_model_mean_ma r1 = Some a1 /\ age_model_mean_ma r2 = Some a2 /\ a1 < a2.
Proof.
  intros H Hc Hd Hij H1 H2; apply fit_bad_ok_inv in H; cbv zeta in H.
  destruct H as (post & HK & _ & _ & Hp & _ & Ht & _).
  destruct (summarize_ties_ok _ _ _ _ _ Ht) as (_ & Hl & Hrow).
  rewrite length_map, length_argsort in Hl, Hrow.
  assert (Hj : (j < length d)%nat) by (rewrite <- Hl; apply nth_error_Some; congruence).
  destruct (Hrow i ltac:(lia)) as (r1' & E1 & Em1 & _); rewrite H1 in E1; injection E1 as <-.
  destruct (Hrow j Hj) as (r2' & E2 & Em2 & _); rewrite H2 in E2; injection E2 as <-.
  rewrite Em1, Em2, !column_tie_age_rows; apply mean_lt.
  - apply Forall2_map_same; intros dr Hdr.
    destruct (fit_bad_draws _ _ _ _ _ _ _ _ HK Hp dr Hdr) as (Hw & Hi & Hpos & Hlen).
    apply tie_ages_strict_mono; auto. lia.
  - intros E0; apply map_eq_nil in E0. exact (pooled_nonempty _ _ _ Hp Hc Hd E0).
Qed.

(** The band of the query table is ordered: each row's 2.5% quantile is
    at most its 97.5% quantile. *)
Lemma query_bands_ordered (d E s q : list Q) (dsig : PyFloat) (mu sig : Q) (draws tune : Z) (chains : nat)
  (ta : Q) (seed : Z) (outdir : string) (fs fs2 : FS) (out : BADOutputs) :
  fit_bad d E s q dsig mu sig draws tune chains ta seed outdir fs = (Ok out, fs2) ->
  Forall (fun r => age_hdi95_low_ma r <= age_hdi95_high_ma r) (query_summary out).
Proof.
  intros H; apply fit_bad_ok_inv in H; cbv zeta in H.
  destruct H as (post & _ & _ & _ & _ & Hq & _).
  destruct (summarize_query_ok _ _ _ Hq) as (_ & _ & _ & Hrow).
  apply Forall_forall; intros r Hr; destruct (Hrow r Hr) as (j & _ & _ & _ & Hlo & Hhi).
  eapply quantile_mono; [|exact Hlo | exact Hhi]; discriminate.
Qed.

(** C25: every band [fit_bad] reports is ordered: in both tables the
    2.5% quantile never exceeds the 97.5% one. *)
Theorem fit_bad_bands_ordered (d E s q : list Q) (dsig : PyFloat) (mu sig : Q) (draws tune : Z) (chains : nat)
  (ta : Q) (seed : Z) (outdir : string) (fs fs2 : FS) (out : BADOutputs) :
  fit_bad d E s q dsig mu sig draws tune chains ta seed outdir fs = (Ok out, fs2) ->
  Forall (fun r => age_hdi95_low_ma r <= age_hdi95_high_ma r) (query_summary out) /\
  Forall (fun r => age_model_hdi95_low_ma r <= age_model_hdi95_high_ma r) (tie_summary out).
Proof.
  intros H; split; [exact (query_bands_ordered _ _ _ _ _ _ _ _ _ _ _ _ _ _ _ _ H)|].
  apply fit_bad_ok_inv in H; cbv zeta in H.
  destruct H as (post & _ & _ & _ & _ & _ & Ht & _).
  destruct (summarize_ties_ok _ _ _ _ _ Ht) as (_ & Hl & Htie).
  apply Forall_forall; intros r Hr; destruct (In_nth_error _ _ Hr) as [j Hj].
  assert (Hjl : (j < length (tie_summary out))%nat) by (apply nth_error_Some; congruence).
  destruct (Htie j ltac:(lia)) as (r' & E' & _ & Hlo & Hhi); rewrite Hj in E'; injection E' as <-.
  eapply quantile_mono; [|exact Hlo | exact Hhi]; discriminate.
Qed.

End Fit.

(** ** Witnesses, with the sampler [point_sampler] of [Engine] *)

Lemma fit_bad_needs_two_ties_witness :
  exists msg fs1,
    fit_bad [20] [3] [1 # 10] [15] (Fin (3 # 100)) 0 1 2 2 2 (9 # 10) 42 "out"
      {| fs_dirs := []; fs_files := [] |} = (Err (ValueError msg), fs1) /\
    In "out"%string (fs_dirs fs1) /\ fs_files fs1 = fs_files {| fs_dirs := []; fs_files := [] |}.
Proof.
  apply fit_bad_needs_two_ties; [discriminate | simpl; tauto | simpl; lia ..].
Defined.

Lemma fit_bad_short_columns_witness :
  exists msg fs1,
    fit_bad [20; 10] [3] [1 # 10; 1 # 10] [15] (Fin (3 # 100)) 0 1 2 2 2 (9 # 10) 42 "out"
      {| fs_dirs := []; fs_files := [] |} = (Err (IndexError msg), fs1) /\
    In "out"%string (fs_dirs fs1).
Proof.
  apply fit_bad_short_columns; [discriminate | simpl; tauto | left; simpl; lia].
Defined.

Lemma fit_bad_ignores_extra_rows_witness :
  fit_bad [20; 10] [3; 2; 7] [1 # 10; 1 # 10; 1 # 10] [15] (Fin (3 # 100)) 0 1 2 2 2 (9 # 10) 42 "out" =
  fit_bad [20; 10] [3; 2] [1 # 10; 1 # 10] [15] (Fin (3 # 100)) 0 1 2 2 2 (9 # 10) 42 "out".
Proof. apply fit_bad_ignores_extra_rows; simpl; lia. Defined.

Lemma fit_bad_writes_posterior_witness :
  exists out fs2, fit_bad [20; 10; 40] [3; 2; 5] [1 # 10; 1 # 10; 1 # 10] [15; 5; 30] (Fin (3 # 100)) 0 1 2 2 2 (9 # 10) 42
      "out" {| fs_dirs := []; fs_files := [] |} = (Ok out, fs2) /\
    posterior_path out = path_join "out" "bad_posterior.nc" /\
    In (posterior_path out) (fs_files fs2) /\ In "out"%string (fs_dirs fs2).
Proof.
  destruct (fit_bad [20; 10; 40] [3; 2; 5] [1 # 10; 1 # 10; 1 # 10] [15; 5; 30] (Fin (3 # 100)) 0 1 2 2 2 (9 # 10) 42 "out" {| fs_dirs := []; fs_files := [] |}) as [[out|e] fs2] eqn:E;
    [|vm_compute in E; discriminate].
  exists out, fs2; split; [reflexivity|]. exact (fit_bad_writes_posterior _ _ _ _ _ _ _ _ _ _ _ _ _ _ _ _ E).
Defined.

Lemma fit_bad_tie_table_witness :
  exists out fs2, fit_bad [20; 10; 40] [3; 2; 5] [1 # 10; 1 # 10; 1 # 10] [15; 5; 30] (Fin (3 # 100)) 0 1 2 2 2 (9 # 10) 42
      "out" {| fs_dirs := []; fs_files := [] |} = (Ok out, fs2) /\
    length (tie_summary out) = 3%nat /\ is_sorted (map depth_obs_m (tie_summary out)) = true.
Proof.
  destruct (fit_bad [20; 10; 40] [3; 2; 5] [1 # 10; 1 # 10; 1 # 10] [15; 5; 30] (Fin (3 # 100)) 0 1 2 2 2 (9 # 10) 42 "out" {| fs_dirs := []; fs_files := [] |}) as [[out|e] fs2] eqn:E;
    [|vm_compute in E; discriminate].
  exists out, fs2; split; [reflexivity|].
  destruct (fit_bad_tie_table _ _ _ _ _ _ _ _ _ _ _ _ _ _ _ _ E) as (Hl & Hs & _). auto.
Defined.

Lemma fit_bad_query_table_witness :
  exists out fs2, fit_bad [20; 10; 40] [3; 2; 5] [1 # 10; 1 # 10; 1 # 10] [15; 5; 30] (Fin (3 # 100)) 0 1 2 2 2 (9 # 10) 42
      "out" {| fs_dirs := []; fs_files := [] |} = (Ok out, fs2) /\
    length (query_summary out) = 3%nat /\ is_sorted (map depth_m (query_summary out)) = true /\
    Permutation (map depth_m (query_summary out)) [15; 5; 30].
Proof.
  destruct (fit_bad [20; 10; 40] [3; 2; 5] [1 # 10; 1 # 10; 1 # 10] [15; 5; 30] (Fin (3 # 100)) 0 1 2 2 2 (9 # 10) 42 "out" {| fs_dirs := []; fs_files := [] |}) as [[out|e] fs2] eqn:E;
    [|vm_compute in E; discriminate].
  exists out, fs2; split; [reflexivity|]. exact (fit_bad_query_table _ _ _ _ _ _ _ _ _ _ _ _ _ _ _ _ E).
Defined.

Lemma fit_bad_query_ages_increase_witness :
  exists out fs2 r1 r2, fit_bad [20; 10; 40] [3; 2; 5] [1 # 10; 1 # 10; 1 # 10] [15; 5; 30] (Fin (3 # 100)) 0 1 2 2 2 (9 # 10) 42
      "out" {| fs_dirs := []; fs_files := [] |} = (Ok out, fs2) /\
    In r1 (query_summary out) /\ In r2 (query_summary out) /\ depth_m r1 < depth_m r2 /\
    exists a1 a2, age_mean_ma r1 = Some a1 /\ age_mean_ma r2 = Some a2 /\ a1 < a2.
Proof.
  destruct (fit_bad [20; 10; 40] [3; 2; 5] [1 # 10; 1 # 10; 1 # 10] [15; 5; 30] (Fin (3 # 100)) 0 1 2 2 2 (9 # 10) 42 "out" {| fs_dirs := []; fs_files := [] |}) as [[out|e] fs2] eqn:E;
    [|vm_compute in E; discriminate].
  assert (Hq : exists r1 r2 rest, query_summary out = r1 :: r2 :: rest /\ depth_m r1 < depth_m r2)
    by (vm_compute in E; injection E as <- _; do 3 eexists; split; [reflexivity | vm_compute; reflexivity]).
  destruct Hq as (r1 & r2 & rest & Eq & Hlt).
  assert (H1 : In r1 (query_summary out)) by (rewrite Eq; left; reflexivity).
  assert (H2 : In r2 (query_summary out)) by (rewrite Eq; right; left; reflexivity).
  exists out, fs2, r1, r2; split; [reflexivity|]; split; [exact H1|]; split; [exact H2|].
  split; [exact Hlt|].
  eapply fit_bad_query_ages_increase; [exact E | lia | lia | exact H1 | exact H2 | exact Hlt].
Defined.

Lemma fit_bad_tie_ages_increase_witness :
  exists out fs2 r1 r2, fit_bad [20; 10; 40] [3; 2; 5] [1 # 10; 1 # 10; 1 # 10] [15; 5; 30] (Fin (3 # 100)) 0 1 2 2 2 (9 # 10) 42
      "out" {| fs_dirs := []; fs_files := [] |} = (Ok out, fs2) /\
    nth_error (tie_summary out) 0 = Some r1 /\ nth_error (tie_summary out) 2 = Some r2 /\
    exists a1 a2, age_model_mean_ma r1 = Some a1 /\ age_model_mean_ma r2 = Some a2 /\ a1 < a2.
Proof.
  destruct (fit_bad [20; 10; 40] [3; 2; 5] [1 # 10; 1 # 10; 1 # 10] [15; 5; 30] (Fin (3 # 100)) 0 1 2 2 2 (9 # 10) 42 "out" {| fs_dirs := []; fs_files := [] |}) as [[out|e] fs2] eqn:E;
    [|vm_compute in E; discriminate].
  assert (Ht : exists r1 r2, nth_error (tie_summary out) 0 = Some r1 /\
                             nth_error (tie_summary out) 2 = Some r2)
    by (vm_compute in E; injection E as <- _; do 2 eexists; split; reflexivity).
  destruct Ht as (r1 & r2 & H1 & H2).
  exists out, fs2, r1, r2; split; [reflexivity|]; split; [exact H1|]; split; [exact H2|].
  eapply fit_bad_tie_ages_increase; [exact E | lia | lia | | exact H1 | exact H2]; lia.
Defined.

Lemma fit_bad_bands_ordered_witness :
  exists out fs2, fit_bad [20; 10; 40] [3; 2; 5] [1 # 10; 1 # 10; 1 # 10] [15; 5; 30] (Fin (3 # 100)) 0 1 2 2 2 (9 # 10) 42
      "out" {| fs_dirs := []; fs_files := [] |} = (Ok out, fs2) /\
    Forall (fun r => age_hdi95_low_ma r <= age_hdi95_high_ma r) (query_summary out) /\
    Forall (fun r => age_model_hdi95_low_ma r <= age_model_hdi95_high_ma r) (tie_summary out).
Proof.
  destruct (fit_bad [20; 10; 40] [3; 2; 5] [1 # 10; 1 # 10; 1 # 10] [15; 5; 30] (Fin (3 # 100)) 0 1 2 2 2 (9 # 10) 42 "out" {| fs_dirs := []; fs_files := [] |}) as [[out|e] fs2] eqn:E;
    [|vm_compute in E; discriminate].
  exists out, fs2; split; [reflexivity|]. exact (fit_bad_bands_ordered _ _ _ _ _ _ _ _ _ _ _ _ _ _ _ _ E).
Defined.

End Bad.
