(* ===== verification/Plot.v ===== *)
(** * Plot: [plot.plot_age_depth]

    [plot_age_depth] creates the output directory, draws the query band
    ([fill_betweenx] between the 2.5% and 97.5% ages), the mean age line
    and the tie points with error bars [1.96 * sd], and saves the figure
    to [os.path.join(outdir, filename)], returning that path.  Rendering
    is matplotlib's and is not modelled: the figure is the record of the
    series handed to matplotlib ([figure_of]), and saving it is the file
    system effect [write_file], which records the file's creation and not
    its contents: [figure_of] is therefore not connected to the saved
    file, and no theorem is stated about it. *)

From S2P Require Import Prelude FileSys Bad.
Import Bad.
Local Open Scope string_scope.

Module Plot.

(** The series of lines 19-41. *)
Record Figure := {
  band_depths : list Q;
  band_low : list Q;
  band_high : list Q;
  line_ages : list (option Q);
  line_depths : list Q;
  err_x : list Q;
  err_y : list Q;
  err_xerr : list Q;
  y_inverted : bool;
  x_label : string;
  y_label : string;
  fig_title : string
}.

(** Lines 19-41. *)
Definition figure_of (tie_summary : list TieRow) (query_summary : list QueryRow) (invert_y : bool) : Figure :=
  let qq := map depth_m query_summary in
  {| band_depths := qq;
     band_low := map age_hdi95_low_ma query_summary;
     band_high := map age_hdi95_high_ma query_summary;
     line_ages := map age_mean_ma query_summary;
     line_depths := qq;
     err_x := map eruption_obs_ma tie_summary;
     err_y := map depth_obs_m tie_summary;
     err_xerr := map (fun r => (196 # 100) * eruption_obs_sd_ma r) tie_summary;
     y_inverted := invert_y;
     x_label := "Age (Ma)";
     y_label := "Depth (m)";
     fig_title := "Bayesian age–depth model (BAD-like) using BEA eruption ages" |}.

(** [plot_age_depth(tie_summary, query_summary, outdir, filename="age_depth_model.png")]
    (lines 9-45): the path of the saved figure. *)
Definition plot_age_depth (tie_summary : list TieRow) (query_summary : list QueryRow)
  (outdir : string) (filename : string) : IO string :=
  (_ <- ensure_dir outdir ;;
   let fig_path := path_join outdir filename in
   _ <- write_file fig_path ;;
   io_ret fig_path)%io.

Definition default_filename : string := "age_depth_model.png".

(** ** Lemmas *)

(** Saving into a directory a run has made succeeds when the figure's
    name is not a directory; the run stays confined to that directory. *)
Lemma plot_age_depth_confined (ts : list TieRow) (qs : list QueryRow) (o fname : string)
  (outs : list string) (fs fs1 : FS) :
  confined o outs fs fs1 -> o <> EmptyString -> ~ In o outs -> ~ In o (fs_files fs) ->
  In (path_join o fname) outs -> ~ In (path_join o fname) (o :: fs_dirs fs) ->
  exists fs2, plot_age_depth ts qs o fname fs1 = (Ok (path_join o fname), fs2) /\
    confined o outs fs fs2 /\ In (path_join o fname) (fs_files fs2) /\ incl (fs_files fs1) (fs_files fs2).
Proof.
  intros Hc Hp Ho Hf Hin Hnd.
  destruct (ensure_dir_again _ _ _ _ Hc Hp Ho Hf) as (fs2 & E2 & Hc2 & Hf2).
  destruct (write_file_confined _ _ _ _ _ Hc2 Hin Hnd) as (fs3 & E3 & Hc3 & Hin3 & Hi3).
  exists fs3; unfold plot_age_depth; rewrite (io_bind_ok _ _ _ _ _ E2); cbv zeta.
  rewrite (io_bind_ok _ _ _ _ _ E3); split; [reflexivity|]; split; [exact Hc3|]; split; [exact Hin3|].
  rewrite <- Hf2; exact Hi3.
Qed.


End Plot.
