(* ===== verification/Main.v ===== *)
(** * The pipeline of [cli.main] (lines 31-81)

    After [ap.parse_args()] ([Cli]), [main] creates the output directory,
    reads the two tables ([DataIO]) and the query depths, fits every ash
    bed of the grain table in [groupby("ash_id")] order ([Bea]), joins
    the results with the tie-point depths ([merge(..., how="left")]),
    sorts them by depth and writes them as a CSV file, fits the age-depth
    model on them ([Bad]), writes the two summaries and draws the figure
    ([Plot]).  [run_main] is that sequence as an [IO] computation; [main]
    is [Cli.cli_main run_main], the whole of [cli.main].

    [to_numpy(float)] of a column that may hold NaN ([None]) is
    [float_array]; along [main] no NaN reaches it (every grain's ash has a
    tie depth after [read_inputs], and every successful BEA fit has a
    mean and a standard deviation: [bea_table_for_bad], from
    [fit_bea_facts] and [merge_left_rows]), so the value it gives a NaN
    is never used.  The
    CSV and PNG contents and the [print] calls are output only: writing
    a file is its creation in [FS].  pandas' [sort_values] uses an
    unstable quicksort; the model sorts stably, one of its possible
    orders (they differ only among rows of equal depth). *)

From S2P Require Import Prelude NpSort NpArray RobustStats Posterior FileSys PyNum Argparse DataIO Cli Engine Bootstrap Bea Bad Plot.
Import DataIO Cli Bea Bad Plot.
Local Open Scope string_scope.

Module Main.

(** ** [data.zircon.groupby("ash_id")] (line 38) *)

(** The group keys in ascending order (byte order of UTF-8, which is
    Python's code-point order). *)
Fixpoint insert_key (k : string) (l : list string) : list string :=
  match l with
  | [] => [k]
  | x :: l' => if String.leb k x then k :: l else x :: insert_key k l'
  end.

Fixpoint sort_keys (l : list string) : list string :=
  match l with
  | [] => []
  | k :: l' => insert_key k (sort_keys l')
  end.

Definition group_keys (z : list ZRow) : list string := sort_keys (nodup string_dec (map z_ash_id z)).

(** The rows of one group, in the table's order. *)
Definition group (z : list ZRow) (k : string) : list ZRow :=
  filter (fun r => String.eqb (z_ash_id r) k) z.

(** ** The BEA table (lines 51-52) *)

(** A row of [bea_df]: the [BEAResult] fields and [depth_m] (NaN when
    the ash has no tie point). *)
Record BeaRow := {
  bea_result : BEAResult;
  bea_depth_m : option Q
}.

(** The rows [merge(..., on="ash_id", how="left")] makes of one result:
    one per matching tie point, one with a NaN depth when none matches. *)
Definition merge_one (t : list TRow) (r : BEAResult) : list BeaRow :=
  match filter (fun u => String.eqb (t_ash_id u) (ash_id r)) t with
  | [] => [{| bea_result := r; bea_depth_m := None |}]
  | us => map (fun u => {| bea_result := r; bea_depth_m := Some (t_depth_m u) |}) us
  end.

(** [pd.DataFrame(rows).merge(data.tiepoints, on="ash_id", how="left")];
    a frame built from no rows has no [ash_id] column, and the merge
    raises [KeyError]. *)
Definition merge_left (rows : list BEAResult) (t : list TRow) : result (list BeaRow) :=
  match rows with
  | [] => Err (KeyError "'ash_id'")
  | _ => Ok (flat_map (merge_one t) rows)
  end.

Definition depth_key (r : BeaRow) : Q := match bea_depth_m r with Some d => d | None => 0 end.

Definition has_depth (r : BeaRow) : bool := match bea_depth_m r with Some _ => true | None => false end.

(** [.sort_values("depth_m")]: ascending depth, NaN last. *)
Definition sort_values_depth (rows : list BeaRow) : list BeaRow :=
  app (sort_by depth_key (filter has_depth rows)) (filter (fun r => negb (has_depth r)) rows).

(** [.to_numpy(float)] *)
Definition float_array (xs : list (option Q)) : list Q :=
  map (fun x => match x with Some q => q | None => 0 end) xs.

(** The query depths [read_query_depths] returns: the CSV column, or
    the grid (300 NaN when there are no tie points). *)
Definition grid_values (qd : option (list Q)) : list (option Q) :=
  match qd with Some q => map Some q | None => repeat None 300 end.

(** [np.log(0.05)], [fit_bad]'s default [sedrate_logn_mu], as the double
    it evaluates to. *)
Definition sedrate_logn_mu_default : Q := -2995732273553991 # 1000000000000000.

Section Run.
Context {SQ : SqrtModel} {NG : NormalGenerator} {KD : Kde} {SM : Sampler} {CSV : CsvSource}.

(** Lines 37-49: one [fit_bea_for_ash] per ash, with [main]'s arguments
    and the defaults [chains=2], [target_accept=0.9]. *)
Definition bea_fits (a : CliArgs) (z : list ZRow) : result (list BEAResult) :=
  map_result (fun k =>
    let g := group z k in
    fit_bea_for_ash k (map z_age_ma g) (map z_sigma_ma g) (negb (a_no_bootstrap_prior a))
      (a_max_span_ma a) (a_bea_draws a) (a_bea_tune a) 2 (9 # 10) (a_seed a))
    (group_keys z).

(** Lines 37-52. *)
Definition bea_table (a : CliArgs) (d : InputData) : result (list BeaRow) :=
  (rows <- bea_fits a (zircon d) ;;
   df <- merge_left rows (tiepoints d) ;;
   Ok (sort_values_depth df))%result.

(** The output files (lines 53, 69-70). *)
Definition bea_path (a : CliArgs) : string := path_join (a_outdir a) "bea_eruption_age_summary.csv".
Definition tie_path (a : CliArgs) : string := path_join (a_outdir a) "tiepoint_summary.csv".
Definition query_path (a : CliArgs) : string := path_join (a_outdir a) "query_age_summary.csv".

(** Lines 57-67: [fit_bad] on the BEA table, with [fit_bad]'s defaults
    for the rate prior, [chains] and [target_accept]. *)
Definition run_bad (a : CliArgs) (bea_df : list BeaRow) (qdepths : option (list Q)) : IO BADOutputs :=
  fit_bad (float_array (map bea_depth_m bea_df))
          (float_array (map (fun r => e_mean (bea_result r)) bea_df))
          (float_array (map (fun r => e_sd (bea_result r)) bea_df))
          (float_array (grid_values qdepths))
          (a_depth_sigma_m a) sedrate_logn_mu_default 1 (a_bad_draws a) (a_bad_tune a) 2 (9 # 10)
          (a_seed a) (a_outdir a).

(** Lines 31-81. *)
Definition run_main (a : CliArgs) : IO unit :=
  (_ <- ensure_dir (a_outdir a) ;;
   data <- io_lift (read_inputs (a_zircon a) (a_tiepoints a)) ;;
   qdepths <- io_lift (read_query_depths (a_query a) (tiepoints data) 300) ;;
   bea_df <- io_lift (bea_table a data) ;;
   _ <- write_file (bea_path a) ;;
   bad_out <- run_bad a bea_df qdepths ;;
   _ <- write_file (tie_path a) ;;
   _ <- write_file (query_path a) ;;
   _ <- plot_age_depth (tie_summary bad_out) (query_summary bad_out) (a_outdir a) default_filename ;;
   io_ret tt)%io.

(** [cli.main()] with [sys.argv = argv]. *)
Definition main (argv : list string) : IO unit := cli_main run_main argv.

End Run.

(** The files [main] writes: the BEA table, the posterior, the two
    summaries and the figure, all in [outdir]. *)
Definition output_names : list string :=
  ["bea_eruption_age_summary.csv"; "bad_posterior.nc"; "tiepoint_summary.csv";
   "query_age_summary.csv"; default_filename].

Definition output_paths (a : CliArgs) : list string := map (path_join (a_outdir a)) output_names.

(** ** Lemmas *)

Lemma hdi_nonempty (ary : list Q) (p : Q) (h : Q * Q) : hdi ary p = Ok h -> ary <> [].
Proof. intros H ->; discriminate H. Qed.

Lemma In_insert_key (k x : string) (l : list string) : In k (insert_key x l) <-> k = x \/ In k l.
Proof.
  induction l as [|y l IH]; cbn [insert_key]; [cbn; intuition|].
  destruct (String.leb x y); cbn; [intuition|]; rewrite IH; intuition.
Qed.

Lemma In_sort_keys (k : string) (l : list string) : In k (sort_keys l) <-> In k l.
Proof.
  induction l as [|x l IH]; cbn [sort_keys]; [reflexivity|].
  rewrite In_insert_key, IH; cbn; intuition.
Qed.

(** The group keys are the ash ids of the grains. *)
Lemma In_group_keys (k : string) (z : list ZRow) :
  In k (group_keys z) <-> exists r, In r z /\ z_ash_id r = k.
Proof. unfold group_keys; rewrite In_sort_keys, nodup_In, in_map_iff; firstorder. Qed.

Lemma group_keys_nil (z : list ZRow) : group_keys z = [] -> z = [].
Proof.
  destruct z as [|r z]; [reflexivity|]; intros H.
  assert (Hin : In (z_ash_id r) (group_keys (r :: z))) by (apply In_group_keys; exists r; split; [left|]; reflexivity).
  rewrite H in Hin; destruct Hin.
Qed.

(** A left merge keeps every result, once per matching tie point; when
    every result has a tie point, every row has its depth. *)
Lemma merge_left_rows (rows : list BEAResult) (t : list TRow) (df : list BeaRow) :
  Forall (fun r => exists u, In u t /\ t_ash_id u = ash_id r) rows ->
  merge_left rows t = Ok df ->
  rows <> [] /\
  Forall (fun row => In (bea_result row) rows /\
                     exists u, In u t /\ t_ash_id u = ash_id (bea_result row) /\
                               bea_depth_m row = Some (t_depth_m u)) df.
Proof.
  intros Ht H; destruct rows as [|r0 rows']; [discriminate|].
  assert (Hdf : df = flat_map (merge_one t) (r0 :: rows')) by (injection H; intros E; rewrite <- E; reflexivity).
  subst df; split; [discriminate|]; apply Forall_forall; intros row Hrow.
  apply in_flat_map in Hrow as (r & Hr & Hrow); unfold merge_one in Hrow.
  rewrite Forall_forall in Ht; destruct (Ht r Hr) as (u0 & Hu0 & Ha0).
  destruct (filter (fun u => String.eqb (t_ash_id u) (ash_id r)) t) as [|v vs] eqn:F.
  - exfalso; assert (Hin : In u0 (filter (fun u => String.eqb (t_ash_id u) (ash_id r)) t))
      by (apply filter_In; split; [exact Hu0 | apply String.eqb_eq, Ha0]).
    rewrite F in Hin; destruct Hin.
  - apply in_map_iff in Hrow as (u & <- & Hu); rewrite <- F in Hu; apply filter_In in Hu as [Hu Ha].
    apply String.eqb_eq in Ha; cbn [bea_result bea_depth_m]; split; [exact Hr|]; eauto.
Qed.

Lemma merge_one_nonempty (t : list TRow) (r : BEAResult) : merge_one t r <> [].
Proof. unfold merge_one; destruct (filter _ t) as [|u us]; discriminate. Qed.

Lemma sort_values_all_depths (df : list BeaRow) :
  Forall (fun r => has_depth r = true) df -> sort_values_depth df = sort_by depth_key df.
Proof.
  intros H; unfold sort_values_depth; rewrite filter_all_in by exact H.
  rewrite filter_none; [apply app_nil_r|].
  intros r Hr; rewrite Forall_forall in H; rewrite (H r Hr); reflexivity.
Qed.

(** Without NaN, [to_numpy(float)] of the depths is the sort key. *)
Lemma float_array_depths (tbl : list BeaRow) :
  Forall (fun r => has_depth r = true) tbl -> float_array (map bea_depth_m tbl) = map depth_key tbl.
Proof.
  induction 1 as [|r tbl Hr _ IH]; [reflexivity|]; cbn [map float_array]; cbn in IH |- *.
  unfold float_array in IH; rewrite IH; unfold depth_key, has_depth in *.
  destruct (bea_depth_m r); [reflexivity | discriminate].
Qed.

Lemma output_paths_not_outdir (a : CliArgs) : ~ In (a_outdir a) (output_paths a).
Proof.
  unfold output_paths; intros Hin; apply in_map_iff in Hin as (nm & E & Hnm).
  revert E; apply path_join_neq; intros ->; cbn in Hnm; intuition discriminate.
Qed.

Lemma output_not_dir (a : CliArgs) (fs : FS) (p : string) :
  Forall (fun p => ~ In p (fs_dirs fs)) (output_paths a) -> In p (output_paths a) ->
  ~ In p (a_outdir a :: fs_dirs fs).
Proof.
  intros H Hp [E|Hc]; [subst p; exact (output_paths_not_outdir a Hp)|].
  rewrite Forall_forall in H; exact (H p Hp Hc).
Qed.

Section Facts.
Context {SQ : SqrtModel} {NG : NormalGenerator} {KD : Kde} {SM : Sampler} {CSV : CsvSource}.

(** A successful BEA fit is named after its ash and has a mean and a
    standard deviation. *)
Lemma fit_bea_facts (k : string) (ages sigmas : list Q) (b : bool) (span : PyFloat) (draws tune : Z)
  (chains : nat) (ta : Q) (seed : Z) (r : BEAResult) :
  fit_bea_for_ash k ages sigmas b span draws tune chains ta seed = Ok r ->
  ash_id r = k /\ exists m s, e_mean r = Some m /\ e_sd r = Some s.
Proof.
  unfold fit_bea_for_ash; intros H; apply bind_ok in H as (m & _ & H); apply bind_ok in H as (idata & _ & H).
  unfold summarize_bea in H; apply bind_ok in H as (h & Hh & H); injection H as <-.
  apply hdi_nonempty in Hh; split; [reflexivity|]; cbn [e_mean e_sd].
  unfold std, mean; destruct (concat idata) as [|x l]; [contradiction|]; cbn [length map].
  eexists; eexists; split; reflexivity.
Qed.

(** The fits come in group order, one per ash, each with a mean and a
    standard deviation. *)
Lemma bea_fits_keys (a : CliArgs) (z : list ZRow) (rows : list BEAResult) :
  bea_fits a z = Ok rows ->
  map ash_id rows = group_keys z /\
  Forall (fun r => exists m s, e_mean r = Some m /\ e_sd r = Some s) rows.
Proof.
  unfold bea_fits; intros H; apply map_result_Forall2 in H.
  induction H as [|k r ks rs Hk _ [IH1 IH2]]; [split; [reflexivity | constructor]|].
  apply fit_bea_facts in Hk as [Ha Hf]; split; [cbn; rewrite Ha, IH1; reflexivity | constructor; assumption].
Qed.

End Facts.

Section Theorems.
Context {SQ : SqrtModel} {NG : NormalGenerator} {KD : Kde} {SM : Sampler} {CSV : CsvSource}.

(** C18: The table [main] hands to [fit_bad] is what [fit_bad] needs:
    after [read_inputs], a successful [bea_table] is not empty, is
    sorted by depth, and each of its rows is the fit of an ash that has
    grains, with the depth of one of its tie points (never NaN) and a
    finite mean and standard deviation. *)
Theorem bea_table_for_bad (a : CliArgs) (d : InputData) (tbl : list BeaRow) :
  read_inputs (a_zircon a) (a_tiepoints a) = Ok d -> bea_table a d = Ok tbl ->
  tbl <> [] /\ is_sorted (float_array (map bea_depth_m tbl)) = true /\
  Forall (fun row =>
    (exists g, In g (zircon d) /\ z_ash_id g = ash_id (bea_result row)) /\
    (exists u, In u (tiepoints d) /\ t_ash_id u = ash_id (bea_result row) /\
               bea_depth_m row = Some (t_depth_m u)) /\
    (exists m s, e_mean (bea_result row) = Some m /\ e_sd (bea_result row) = Some s)) tbl.
Proof.
  intros Hr H; apply read_inputs_tied in Hr as (t & _ & _ & Htied).
  unfold bea_table in H; apply bind_ok in H as (rows & Hrows & H); apply bind_ok in H as (df & Hdf & H).
  injection H as <-; destruct (bea_fits_keys _ _ _ Hrows) as [Hkeys Hfin].
  assert (Hg : Forall (fun r => exists g, In g (zircon d) /\ z_ash_id g = ash_id r) rows).
  { apply Forall_forall; intros r Hr; apply In_group_keys; rewrite <- Hkeys; apply in_map, Hr. }
  assert (Ht : Forall (fun r => exists u, In u (tiepoints d) /\ t_ash_id u = ash_id r) rows).
  { rewrite Forall_forall in Hg, Htied |- *; intros r Hr.
    destruct (Hg r Hr) as (g & Hgz & Ha); destruct (Htied g Hgz) as (u & Hu & Hua).
    exists u; split; [exact Hu | congruence]. }
  destruct (merge_left_rows _ _ _ Ht Hdf) as [Hne Hrows'].
  assert (Hdepth : Forall (fun r => has_depth r = true) df).
  { eapply Forall_impl; [|exact Hrows']; intros row (_ & u & _ & _ & E); unfold has_depth; rewrite E; reflexivity. }
  rewrite sort_values_all_depths by exact Hdepth.
  pose proof (sort_by_perm depth_key df) as Hperm.
  split; [|split].
  - intros E; rewrite E in Hperm; apply Permutation_nil in Hperm; subst df.
    destruct rows as [|r rows]; [contradiction|].
    injection Hdf as Hdf; apply app_eq_nil in Hdf as [Hm _]; exact (merge_one_nonempty _ _ Hm).
  - rewrite float_array_depths by (rewrite Hperm; exact Hdepth).
    apply sort_by_sorted.
  - rewrite Hperm; apply Forall_forall; intros row Hrow.
    rewrite Forall_forall in Hrows', Hg, Hfin.
    destruct (Hrows' row Hrow) as (Hin & Hu); split; [apply Hg, Hin|]; split; [exact Hu | apply Hfin, Hin].
Qed.

(** C17: [main] runs to completion.  Once the inputs have been read, the
    BEA table built and the age-depth model sampled (its outputs do not
    depend on the files), [main] finishes without an exception on any
    file system where [outdir] is not a file and none of its outputs is
    a directory; it makes [outdir] and no other directory, writes all
    five outputs and no other file. *)
Theorem run_main_completes (a : CliArgs) (d : InputData) (qd : option (list Q)) (tbl : list BeaRow)
  (out : BADOutputs) (fs0 fs0' fs : FS) :
  read_inputs (a_zircon a) (a_tiepoints a) = Ok d ->
  read_query_depths (a_query a) (tiepoints d) 300 = Ok qd ->
  bea_table a d = Ok tbl ->
  run_bad a tbl qd fs0 = (Ok out, fs0') ->
  a_outdir a <> EmptyString -> ~ In (a_outdir a) (fs_files fs) ->
  Forall (fun p => ~ In p (fs_dirs fs)) (output_paths a) ->
  exists fs', run_main a fs = (Ok tt, fs') /\ confined (a_outdir a) (output_paths a) fs fs' /\
    Forall (fun p => In p (fs_files fs')) (output_paths a).
Proof.
  intros Hr Hq Hb Hbad Hp Hf Hnd.
  pose proof (output_paths_not_outdir a) as Ho.
  assert (Hout : forall nm, In nm output_names -> In (path_join (a_outdir a) nm) (output_paths a)
                   /\ ~ In (path_join (a_outdir a) nm) (a_outdir a :: fs_dirs fs)).
  { intros nm Hnm; assert (Hin : In (path_join (a_outdir a) nm) (output_paths a)) by (apply in_map, Hnm).
    split; [exact Hin | exact (output_not_dir _ _ _ Hnd Hin)]. }
  destruct (Hout "bea_eruption_age_summary.csv" ltac:(cbn; tauto)) as [In1 Nd1]; destruct (Hout "bad_posterior.nc" ltac:(cbn; tauto)) as [In2 Nd2].
  destruct (Hout "tiepoint_summary.csv" ltac:(cbn; tauto)) as [In3 Nd3]; destruct (Hout "query_age_summary.csv" ltac:(cbn; tauto)) as [In4 Nd4].
  destruct (Hout default_filename ltac:(cbn; tauto)) as [In5 Nd5].
  destruct (ensure_dir_confined _ (output_paths a) _ Hp Hf) as (fs1 & E1 & C1).
  destruct (write_file_confined _ _ _ _ _ C1 In1 Nd1) as (fs2 & E2 & C2 & W2 & I2).
  unfold run_bad in Hbad.
  destruct (fit_bad_confined _ _ _ _ _ _ _ _ _ _ _ _ _ _ _ _ _ _ _ Hbad C2 Hp Ho Hf In2 Nd2)
    as (fs3 & E3 & C3 & W3 & I3).
  destruct (write_file_confined _ _ _ _ _ C3 In3 Nd3) as (fs4 & E4 & C4 & W4 & I4).
  destruct (write_file_confined _ _ _ _ _ C4 In4 Nd4) as (fs5 & E5 & C5 & W5 & I5).
  destruct (plot_age_depth_confined (tie_summary out) (query_summary out) _ _ _ _ _ C5 Hp Ho Hf In5 Nd5)
    as (fs6 & E6 & C6 & W6 & I6).
  exists fs6; unfold run_main; rewrite (io_bind_ok _ _ _ _ _ E1).
  erewrite io_bind_ok; [| unfold io_lift; rewrite Hr; reflexivity].
  erewrite io_bind_ok; [| unfold io_lift; rewrite Hq; reflexivity].
  erewrite io_bind_ok; [| unfold io_lift; rewrite Hb; reflexivity].
  cbv beta; unfold bea_path, tie_path, query_path, run_bad.
  rewrite (io_bind_ok _ _ _ _ _ E2); cbv beta; rewrite (io_bind_ok _ _ _ _ _ E3); cbv beta.
  rewrite (io_bind_ok _ _ _ _ _ E4); cbv beta; rewrite (io_bind_ok _ _ _ _ _ E5); cbv beta.
  rewrite (io_bind_ok _ _ _ _ _ E6).
  split; [reflexivity|]; split; [exact C6|].
  repeat constructor; auto 6.
Qed.

(** C19: When no grain is left to date (an empty grain table, or none of
    its ashes has a tie point, or every grain is flagged discordant),
    [main] fails with [KeyError('ash_id')] raised by the merge of an
    empty frame, after making [outdir] and before writing any file. *)
Theorem run_main_no_grains (a : CliArgs) (d : InputData) (qd : option (list Q)) (fs fs1 : FS) :
  read_inputs (a_zircon a) (a_tiepoints a) = Ok d -> zircon d = [] ->
  read_query_depths (a_query a) (tiepoints d) 300 = Ok qd ->
  ensure_dir (a_outdir a) fs = (Ok tt, fs1) ->
  run_main a fs = (Err (KeyError "'ash_id'"), fs1) /\ fs_files fs1 = fs_files fs.
Proof.
  intros Hr Hz Hq E1; split; [|apply (ensure_dir_ok_inv _ _ _ E1)].
  unfold run_main; rewrite (io_bind_ok _ _ _ _ _ E1).
  erewrite io_bind_ok; [| unfold io_lift; rewrite Hr; reflexivity].
  erewrite io_bind_ok; [| unfold io_lift; rewrite Hq; reflexivity].
  unfold bea_table, bea_fits; rewrite Hz; reflexivity.
Qed.

End Theorems.

(** ** Witnesses, with the instances of [Engine], [NpArray] and a CSV
    source of two ashes *)

Definition example_grain (a : string) (age : Q) : ZRow :=
  {| z_ash_id := a; z_age_ma := age; z_sigma_ma := 1 # 10; z_is_discordant := None |}.

(** Grain and tie-point files, with ties for [A] and [B] or only for an
    ash [C] that has no grains. *)
Definition example_inputs (tie_ids : list string) : CsvSource :=
  {| read_zircon_csv := fun _ => Ok {| zt_columns := ["ash_id"; "age_ma"; "sigma_ma"];
        zt_rows := [example_grain "B" 20; example_grain "A" 10; example_grain "B" 21;
                    example_grain "A" 11; example_grain "A" 12; example_grain "B" 22] |};
     read_tiepoints_csv := fun _ => Ok {| tt_columns := ["ash_id"; "depth_m"];
        tt_rows := map (fun k => {| t_ash_id := k; t_depth_m := if String.eqb k "B" then 2 else 1 |}) tie_ids |};
     read_query_csv := fun _ => Err (OSError "[Errno 2] No such file or directory") |}.

(** [bea-bad --zircon zircon.csv --tiepoints tiepoints.csv --outdir out
    --no-bootstrap-prior] with two draws and two tuning steps. *)
Definition example_args : CliArgs :=
  {| a_zircon := "zircon.csv"; a_tiepoints := "tiepoints.csv"; a_query := None; a_outdir := "out";
     a_max_span_ma := Fin 4; a_depth_sigma_m := Fin (3 # 100); a_no_bootstrap_prior := true;
     a_bea_draws := 2; a_bea_tune := 2; a_bad_draws := 2; a_bad_tune := 2; a_seed := 0 |}.

Lemma run_main_completes_witness :
  exists fs', run_main (CSV := example_inputs ["A"; "B"]) example_args {| fs_dirs := []; fs_files := [] |} = (Ok tt, fs') /\
    confined "out" (output_paths example_args) {| fs_dirs := []; fs_files := [] |} fs' /\
    Forall (fun p => In p (fs_files fs')) (output_paths example_args).
Proof.
  eapply (run_main_completes (CSV := example_inputs ["A"; "B"]) example_args _ _ _ _ {| fs_dirs := []; fs_files := [] |}).
  all: try (vm_compute; reflexivity).
  - discriminate.
  - intros [].
  - apply Forall_forall; intros p _ [].
Defined.

Lemma bea_table_for_bad_witness :
  exists d tbl, read_inputs (CSV := example_inputs ["A"; "B"]) "zircon.csv" "tiepoints.csv" = Ok d /\
    bea_table example_args d = Ok tbl /\
    (tbl <> [] /\ is_sorted (float_array (map bea_depth_m tbl)) = true /\
     Forall (fun row =>
       (exists g, In g (zircon d) /\ z_ash_id g = ash_id (bea_result row)) /\
       (exists u, In u (tiepoints d) /\ t_ash_id u = ash_id (bea_result row) /\
                  bea_depth_m row = Some (t_depth_m u)) /\
       (exists m s, e_mean (bea_result row) = Some m /\ e_sd (bea_result row) = Some s)) tbl).
Proof.
  do 2 eexists; split; [vm_compute; reflexivity|]; split; [vm_compute; reflexivity|].
  apply (bea_table_for_bad (CSV := example_inputs ["A"; "B"]) example_args); vm_compute; reflexivity.
Defined.

Lemma run_main_no_grains_witness :
  exists fs1, run_main (CSV := example_inputs ["C"]) example_args {| fs_dirs := []; fs_files := [] |} =
    (Err (KeyError "'ash_id'"), fs1) /\ fs_files fs1 = [].
Proof.
  eexists; eapply (run_main_no_grains (CSV := example_inputs ["C"]) example_args); vm_compute; reflexivity.
Defined.

End Main.
