(* ===== verification/GuiApp.v ===== *)
(** * The Tk application of [app_gui.py]: window, widgets and main loop

    Lines 105-178 build the window: the variables ([Gui.GuiFields]), an
    [Inputs] frame with an entry and a [Browse] button per input, a
    parameters frame with an entry per setting and the bootstrap check
    button, and the [Run] button; [root.mainloop()] then runs the
    callbacks the user triggers.  The layout is the list [layout] of
    placed widgets, each with the variable or the command it is bound to;
    a user action ([UserAction]) is typing into the widget at a position
    of the list or pressing it, with the answer of the file dialog the
    press opens.  [handle] is one turn of the main loop: Tk's
    [CallWrapper] re-raises [SystemExit] (the program ends with that
    status) and reports any other exception, the window staying open.
    The session is the window's variables, the file system and the
    dialogs shown so far.  The [Run] button calls [Gui.run_pipeline] with
    [bea_bad.cli.main] itself ([Main.run_main]);
    [Path(outdir).resolve()] depends on the working directory and is the
    parameter [resolve].  Geometry, fonts and padding are not behaviour
    and are left out. *)

From S2P Require Import Prelude PyNum FileSys Argparse Cli DataIO Engine Bea Bad NpArray Main Gui.
Import Argparse Cli DataIO Main Gui.
Local Open Scope string_scope.

Module GuiApp.

(** The ten [tk.StringVar]s of lines 110-122. *)
Inductive StrVar :=
| ZirconVar | TiepointsVar | OutdirVar | BeaDrawsVar | BeaTuneVar | BadDrawsVar | BadTuneVar
| MaxSpanVar | DepthSigmaVar | TargetAcceptVar.

Scheme Equality for StrVar.

Definition get_str (v : StrVar) (g : GuiFields) : string :=
  match v with
  | ZirconVar => zircon_var g | TiepointsVar => tiepoints_var g | OutdirVar => outdir_var g
  | BeaDrawsVar => bea_draws_var g | BeaTuneVar => bea_tune_var g
  | BadDrawsVar => bad_draws_var g | BadTuneVar => bad_tune_var g
  | MaxSpanVar => max_span_var g | DepthSigmaVar => depth_sigma_var g
  | TargetAcceptVar => target_accept_var g
  end.

Definition mk_fields (f : StrVar -> string) (nb : Z) : GuiFields :=
  {| zircon_var := f ZirconVar; tiepoints_var := f TiepointsVar; outdir_var := f OutdirVar;
     bea_draws_var := f BeaDrawsVar; bea_tune_var := f BeaTuneVar; bad_draws_var := f BadDrawsVar;
     bad_tune_var := f BadTuneVar; max_span_var := f MaxSpanVar; depth_sigma_var := f DepthSigmaVar;
     target_accept_var := f TargetAcceptVar; no_bootstrap_var := nb |}.

(** [var.set(s)] on a [StringVar]. *)
Definition set_str (v : StrVar) (s : string) (g : GuiFields) : GuiFields :=
  mk_fields (fun w => if StrVar_beq w v then s else get_str w g) (no_bootstrap_var g).

(** [no_bootstrap_var.set(n)] on the [tk.IntVar]. *)
Definition set_no_bootstrap (n : Z) (g : GuiFields) : GuiFields := mk_fields (fun w => get_str w g) n.

(** Lines 8-14 and 17-20: the chosen path, or nothing when the dialog
    is cancelled (it returns [""]). *)
Definition browse_csv (var : StrVar) (p : string) (g : GuiFields) : GuiFields :=
  if String.eqb p EmptyString then g else set_str var p g.

Definition browse_outdir (var : StrVar) (p : string) (g : GuiFields) : GuiFields :=
  if String.eqb p EmptyString then g else set_str var p g.

(** ** The layout, lines 129-176 *)

Inductive Command :=
| BrowseCsv (v : StrVar)       (* lambda: browse_csv(v) *)
| BrowseOutdir (v : StrVar)    (* lambda: browse_outdir(v) *)
| RunPipeline.                 (* run_pipeline *)

Inductive Widget :=
| Label (text : string)
| Entry (var : StrVar) (width : Z)
| Button (text : string) (cmd : Command)
| Checkbutton (text : string).   (* variable=no_bootstrap_var *)

Inductive Frame := InputsFrame | ParamsFrame | RootWindow.

Definition frame_text (f : Frame) : string :=
  match f with
  | InputsFrame => "Inputs"
  | ParamsFrame => "Model / Sampling parameters"
  | RootWindow => "BEA → BAD (Bayesian eruption age + age–depth)"
  end.

(** A widget, its parent and its [grid(row, column)] ([None] for
    [pack]). *)
Record Placed := {
  w_frame : Frame;
  w_grid : option (Z * Z);
  w_widget : Widget
}.

Definition at_grid (f : Frame) (r c : Z) (w : Widget) : Placed :=
  {| w_frame := f; w_grid := Some (r, c); w_widget := w |}.

Definition layout : list Placed :=
  [at_grid InputsFrame 0 0 (Label "Zircon CSV");
   at_grid InputsFrame 0 1 (Entry ZirconVar 78);
   at_grid InputsFrame 0 2 (Button "Browse" (BrowseCsv ZirconVar));
   at_grid InputsFrame 1 0 (Label "Tiepoints CSV");
   at_grid InputsFrame 1 1 (Entry TiepointsVar 78);
   at_grid InputsFrame 1 2 (Button "Browse" (BrowseCsv TiepointsVar));
   at_grid InputsFrame 2 0 (Label "Output folder");
   at_grid InputsFrame 2 1 (Entry OutdirVar 78);
   at_grid InputsFrame 2 2 (Button "Browse" (BrowseOutdir OutdirVar));
   at_grid ParamsFrame 0 0 (Label "BEA draws");
   at_grid ParamsFrame 0 1 (Entry BeaDrawsVar 12);
   at_grid ParamsFrame 0 2 (Label "BEA tune");
   at_grid ParamsFrame 0 3 (Entry BeaTuneVar 12);
   at_grid ParamsFrame 0 4 (Label "BAD draws");
   at_grid ParamsFrame 0 5 (Entry BadDrawsVar 12);
   at_grid ParamsFrame 0 6 (Label "BAD tune");
   at_grid ParamsFrame 0 7 (Entry BadTuneVar 12);
   at_grid ParamsFrame 1 0 (Label "Max span (Ma)");
   at_grid ParamsFrame 1 1 (Entry MaxSpanVar 12);
   at_grid ParamsFrame 1 2 (Label "Depth sigma (m)");
   at_grid ParamsFrame 1 3 (Entry DepthSigmaVar 12);
   at_grid ParamsFrame 1 4 (Label "target_accept");
   at_grid ParamsFrame 1 5 (Entry TargetAcceptVar 12);
   at_grid ParamsFrame 1 6 (Checkbutton "Disable bootstrap prior (BEA)");
   {| w_frame := RootWindow; w_grid := None; w_widget := Button "Run" RunPipeline |}].

Definition widget_at (i : nat) : option Widget := option_map w_widget (nth_error layout i).

(** ** The main loop *)

Record Session := {
  fields : GuiFields;
  fsys : FS;
  shown : list UiEvent
}.

(** Lines 106-124: the window as it opens on a file system. *)
Definition initial (fs : FS) : Session := {| fields := gui_defaults; fsys := fs; shown := [] |}.

Inductive UserAction :=
| TypeInto (i : nat) (text : string)   (* edit the entry at position i to hold text *)
| Press (i : nat) (answer : string).   (* click the widget at position i; answer: the dialog's *)

Inductive Status :=
| Running (s : Session)
| Exited (code : nat) (s : Session).

Definition with_fields (s : Session) (g : GuiFields) : Session :=
  {| fields := g; fsys := fsys s; shown := shown s |}.

(** A Tk checkbutton sets [offvalue] when the variable holds [onvalue],
    and [onvalue] otherwise ([1] and [0] for a [Checkbutton]). *)
Definition toggle (n : Z) : Z := if Z.eqb n 1 then 0 else 1.

(** Tkinter's [CallWrapper]: [SystemExit] propagates out of
    [mainloop]; any other exception is reported and the loop goes on. *)
Definition tk_callback (r : result (list UiEvent) * FS) (s : Session) : Status :=
  match r with
  | (Ok evs, fs') => Running {| fields := fields s; fsys := fs'; shown := shown s ++ evs |}
  | (Err (SystemExit n), fs') => Exited n {| fields := fields s; fsys := fs'; shown := shown s |}
  | (Err _, fs') => Running {| fields := fields s; fsys := fs'; shown := shown s |}
  end.

Section Loop.
Context {SQ : SqrtModel} {NG : NormalGenerator} {KD : Kde} {SM : Sampler} {CSV : CsvSource} {FR : FloatRepr}.
Variable resolve : string -> string.

Definition invoke (c : Command) (answer : string) (s : Session) : Status :=
  match c with
  | BrowseCsv v => Running (with_fields s (browse_csv v answer (fields s)))
  | BrowseOutdir v => Running (with_fields s (browse_outdir v answer (fields s)))
  | RunPipeline => tk_callback (run_pipeline run_main resolve (fields s) (fsys s)) s
  end.

(** One turn of [root.mainloop()] (line 178). *)
Definition handle (a : UserAction) (s : Session) : Status :=
  match a with
  | TypeInto i text =>
      match widget_at i with
      | Some (Entry v _) => Running (with_fields s (set_str v text (fields s)))
      | _ => Running s
      end
  | Press i answer =>
      match widget_at i with
      | Some (Button _ c) => invoke c answer s
      | Some (Checkbutton _) =>
          Running (with_fields s (set_no_bootstrap (toggle (no_bootstrap_var (fields s))) (fields s)))
      | _ => Running s
      end
  end.

Fixpoint mainloop (acts : list UserAction) (s : Session) : Status :=
  match acts with
  | [] => Running s
  | a :: rest =>
      match handle a s with
      | Running s' => mainloop rest s'
      | Exited n s' => Exited n s'
      end
  end.

(** The sessions the user can reach from the opened window. *)
Inductive reachable (fs0 : FS) : Session -> Prop :=
| reach_init : reachable fs0 (initial fs0)
| reach_step (a : UserAction) (s s' : Session) :
    reachable fs0 s -> handle a s = Running s' -> reachable fs0 s'.

End Loop.

(** ** Reading the layout *)

Scheme Equality for Frame.

Definition entry_var (w : Widget) : option StrVar := match w with Entry v _ => Some v | _ => None end.

Definition browse_var (w : Widget) : option StrVar :=
  match w with Button _ (BrowseCsv v) | Button _ (BrowseOutdir v) => Some v | _ => None end.

Definition is_run (w : Widget) : bool := match w with Button _ RunPipeline => true | _ => false end.

Definition grid_row (p : Placed) : option Z := option_map fst (w_grid p).

Definition entry_of (v : StrVar) (q : Placed) : bool :=
  match entry_var (w_widget q) with Some u => StrVar_beq u v | None => false end.

(** A [Browse] button has the entry of its variable in its frame's row. *)
Definition browse_wired (p : Placed) : bool :=
  match browse_var (w_widget p) with
  | None => true
  | Some v =>
      existsb (fun q => entry_of v q && Frame_beq (w_frame q) (w_frame p) &&
                        match grid_row q, grid_row p with Some a, Some b => Z.eqb a b | _, _ => false end)
              layout
  end.

(** Where the entry of each variable is in [layout]. *)
Definition entry_pos (v : StrVar) : nat :=
  match v with
  | ZirconVar => 1 | TiepointsVar => 4 | OutdirVar => 7 | BeaDrawsVar => 10 | BeaTuneVar => 12
  | BadDrawsVar => 14 | BadTuneVar => 16 | MaxSpanVar => 18 | DepthSigmaVar => 20
  | TargetAcceptVar => 22
  end%nat.

Definition all_vars : list StrVar :=
  [ZirconVar; TiepointsVar; OutdirVar; BeaDrawsVar; BeaTuneVar; BadDrawsVar; BadTuneVar;
   MaxSpanVar; DepthSigmaVar; TargetAcceptVar].

(** Typing every variable's value of [g] into its entry, then ticking
    the check button when [g] has it set. *)
Definition fill (g : GuiFields) : list UserAction :=
  map (fun v => TypeInto (entry_pos v) (get_str v g)) all_vars ++
  (if Z.eqb (no_bootstrap_var g) 1 then [Press 23 EmptyString] else []).

(** The invariant of the sessions: the files as they were, only error
    dialogs so far, and the check button's variable [0] or [1]. *)
Definition is_error_dialog (e : UiEvent) : Prop := exists title msg, e = ShowError title msg.

Definition session_ok (fs0 : FS) (s : Session) : Prop :=
  fsys s = fs0 /\ Forall is_error_dialog (shown s) /\
  (no_bootstrap_var (fields s) = 0 \/ no_bootstrap_var (fields s) = 1)%Z.

(** ** Lemmas *)

Lemma toggle_01 (n : Z) : (toggle n = 0 \/ toggle n = 1)%Z.
Proof. unfold toggle; destruct (Z.eqb n 1); auto. Qed.

Lemma browse_csv_nb (v : StrVar) (p : string) (g : GuiFields) :
  no_bootstrap_var (browse_csv v p g) = no_bootstrap_var g.
Proof. unfold browse_csv; destruct (String.eqb p EmptyString); reflexivity. Qed.

Lemma browse_outdir_nb (v : StrVar) (p : string) (g : GuiFields) :
  no_bootstrap_var (browse_outdir v p g) = no_bootstrap_var g.
Proof. unfold browse_outdir; destruct (String.eqb p EmptyString); reflexivity. Qed.

Lemma session_ok_fields (fs0 : FS) (s : Session) (g : GuiFields) :
  session_ok fs0 s -> (no_bootstrap_var g = 0 \/ no_bootstrap_var g = 1)%Z ->
  session_ok fs0 (with_fields s g).
Proof. intros (H1 & H2 & _) H3; repeat split; assumption. Qed.

Lemma session_ok_init (fs0 : FS) : session_ok fs0 (initial fs0).
Proof. repeat split; [constructor | left; reflexivity]. Qed.

Lemma py_strip_empty : py_strip EmptyString = EmptyString.
Proof. reflexivity. Qed.

Lemma input_ok_nonempty (p : string) (fs : FS) : input_ok (py_strip p) fs = true -> p <> EmptyString.
Proof. intros H ->; discriminate H. Qed.

Lemma browse_csv_set (v : StrVar) (p : string) (g : GuiFields) :
  p <> EmptyString -> browse_csv v p g = set_str v p g.
Proof. intros Hp; unfold browse_csv; destruct (String.eqb_spec p EmptyString); [contradiction | reflexivity]. Qed.

Section Facts.
Context {SQ : SqrtModel} {NG : NormalGenerator} {KD : Kde} {SM : Sampler} {CSV : CsvSource} {FR : FloatRepr}.
Variable resolve : string -> string.

(** One turn keeps the invariant; a turn that ends the program ends it
    with status [2]. *)
Lemma handle_ok (fs0 : FS) (a : UserAction) (s : Session) :
  session_ok fs0 s ->
  match handle resolve a s with
  | Running s' => session_ok fs0 s'
  | Exited n s' => n = 2%nat /\ session_ok fs0 s'
  end.
Proof.
  intros Hs; destruct a as [i text|i answer]; cbn [handle].
  - destruct (widget_at i) as [[| v w | |]|]; exact Hs.
  - destruct (widget_at i) as [[| | t [v|v|] |]|]; try exact Hs; cbn [invoke].
    + apply session_ok_fields; [exact Hs|]; rewrite browse_csv_nb; apply Hs.
    + apply session_ok_fields; [exact Hs|]; rewrite browse_outdir_nb; apply Hs.
    + destruct (gui_never_done run_main resolve (fields s) (fsys s)) as (r & E & Hr).
      destruct Hs as (Hf & Hd & Hn); rewrite E; unfold tk_callback.
      destruct Hr as [-> | (title & msg & ->)]; cbn.
      * repeat split; auto.
      * split; [exact Hf|]; split; [|exact Hn]; cbn [shown].
        apply Forall_app; split; [exact Hd | repeat constructor; do 2 eexists; reflexivity].
    + apply session_ok_fields; [exact Hs | apply toggle_01].
Qed.

Lemma reachable_ok (fs0 : FS) (s : Session) : reachable resolve fs0 s -> session_ok fs0 s.
Proof.
  induction 1 as [|a s s' _ IH E]; [apply session_ok_init|].
  pose proof (handle_ok fs0 a s IH) as H; rewrite E in H; exact H.
Qed.

Lemma mainloop_reachable (fs0 : FS) (acts : list UserAction) (s : Session) :
  reachable resolve fs0 s ->
  match mainloop resolve acts s with
  | Running s' => reachable resolve fs0 s'
  | Exited n s' => n = 2%nat /\ session_ok fs0 s'
  end.
Proof.
  revert s; induction acts as [|a acts IH]; intros s Hs; cbn [mainloop]; [exact Hs|].
  pose proof (handle_ok fs0 a s (reachable_ok _ _ Hs)) as H.
  destruct (handle resolve a s) as [s'|n s'] eqn:E; [|exact H].
  apply IH; exact (reach_step _ _ a s s' Hs E).
Qed.

End Facts.

Section Theorems.
Context {SQ : SqrtModel} {NG : NormalGenerator} {KD : Kde} {SM : Sampler} {CSV : CsvSource} {FR : FloatRepr}.
Variable resolve : string -> string.

(** C12: The whole session, for every sequence of user actions from the
    opened window: the window is still open in a reachable state, or the
    program has ended with status 2; either way no file or directory was
    made, every dialog shown was an error, and the check button's
    variable holds 0 or 1.  The Done message is never shown. *)
Theorem gui_session_safe (fs0 : FS) (acts : list UserAction) :
  match mainloop resolve acts (initial fs0) with
  | Running s => reachable resolve fs0 s /\ session_ok fs0 s
  | Exited n s => n = 2%nat /\ session_ok fs0 s
  end.
Proof.
  pose proof (mainloop_reachable resolve fs0 acts _ (reach_init _ fs0)) as H.
  destruct (mainloop resolve acts (initial fs0)); [split; [|apply (reachable_ok resolve)] | ]; assumption.
Qed.

(** C22: The window states the user can reach before pressing Run are
    exactly the settings with the check button's variable 0 or 1: every
    variable has an entry to type into. *)
Theorem gui_window_states (fs0 : FS) (g : GuiFields) :
  reachable resolve fs0 {| fields := g; fsys := fs0; shown := [] |} <->
  (no_bootstrap_var g = 0 \/ no_bootstrap_var g = 1)%Z.
Proof.
  split; [intros H; apply (reachable_ok resolve _ _ H)|intros Hn].
  pose proof (mainloop_reachable resolve fs0 (fill g) _ (reach_init _ fs0)) as H.
  replace (mainloop resolve (fill g) (initial fs0)) with (Running {| fields := g; fsys := fs0; shown := [] |}) in H;
    [exact H|].
  destruct g; cbn in Hn; destruct Hn as [-> | ->]; reflexivity.
Qed.

(** C20: The first run ends the program: choosing two existing input files
    with the [Browse] buttons and pressing [Run] with the default
    settings exits with status 2, before any file is made. *)
Theorem gui_first_run_exits (fs0 : FS) (z t : string) :
  input_ok (py_strip z) fs0 = true -> input_ok (py_strip t) fs0 = true ->
  mainloop resolve [Press 2 z; Press 5 t; Press 24 EmptyString] (initial fs0) =
  Exited 2 {| fields := set_str TiepointsVar t (set_str ZirconVar z gui_defaults); fsys := fs0; shown := [] |}.
Proof.
  intros Hz Ht; cbn [mainloop handle widget_at nth_error option_map layout w_widget at_grid invoke].
  rewrite !browse_csv_set by (eapply input_ok_nonempty; eassumption).
  cbn [with_fields fields fsys shown initial]; unfold run_pipeline; cbn zeta.
  change (zircon_var (set_str TiepointsVar t (set_str ZirconVar z gui_defaults))) with z.
  change (tiepoints_var (set_str TiepointsVar t (set_str ZirconVar z gui_defaults))) with t.
  rewrite Hz, Ht; cbn [negb]; rewrite try_body_exits.
  destruct (read_params _) as [p|e] eqn:E; [reflexivity | vm_compute in E; discriminate].
Qed.

(** C21: The layout binds every variable to exactly one entry, each
    [Browse] button to the variable of the entry on its own row, and
    [run_pipeline] to one button. *)
Theorem gui_layout_wiring :
  (forall v, length (filter (entry_of v) layout) = 1%nat) /\
  (forall p v, In p layout -> browse_var (w_widget p) = Some v ->
     exists q, In q layout /\ entry_var (w_widget q) = Some v /\ w_frame q = w_frame p /\
               grid_row q = grid_row p) /\
  length (filter (fun p => is_run (w_widget p)) layout) = 1%nat.
Proof.
  split; [intros v; destruct v; reflexivity|]; split; [|reflexivity].
  intros p v Hin Hb.
  assert (Hall : forallb browse_wired layout = true) by reflexivity.
  rewrite forallb_forall in Hall; specialize (Hall p Hin); unfold browse_wired in Hall; rewrite Hb in Hall.
  apply existsb_exists in Hall as (q & Hq & E).
  apply andb_prop in E as [E Er]; apply andb_prop in E as [Ee Ef].
  exists q; split; [exact Hq|]; unfold entry_of in Ee.
  destruct (entry_var (w_widget q)) as [u|]; [|discriminate].
  apply internal_StrVar_dec_bl in Ee; subst u; split; [reflexivity|].
  split; [apply internal_Frame_dec_bl, Ef|].
  destruct (grid_row q), (grid_row p); try discriminate; apply Z.eqb_eq in Er; subst; reflexivity.
Qed.

End Theorems.

(** ** Witnesses *)

Lemma gui_first_run_exits_witness :
  input_ok (py_strip " zircon.csv") example_fs = true /\ input_ok (py_strip "tiepoints.csv ") example_fs = true /\
  mainloop (CSV := example_source) (fun s => s) [Press 2 " zircon.csv"; Press 5 "tiepoints.csv "; Press 24 EmptyString]
    (initial example_fs) =
  Exited 2 {| fields := set_str TiepointsVar "tiepoints.csv " (set_str ZirconVar " zircon.csv" gui_defaults);
              fsys := example_fs; shown := [] |}.
Proof.
  split; [reflexivity|]; split; [reflexivity|].
  apply (gui_first_run_exits (CSV := example_source)); reflexivity.
Defined.

End GuiApp.
